(** * Realm selection and peer message routing of the kernel comms layer

  A shallow embedding of

  - [packages/shared/comms/v2/LighthouseWorldInstanceConnection.ts]
    (the world instance connection: connect, room reconciliation, typed
    sends, the packet callback and the position codec), and
  - the realm sagas of [shared/dao] ([selectRealm], [getConfiguredRealm],
    [checkValidRealm], [pickCatalystRealm],
    [filterCandidatesByCatalystVersion], [initializeCatalystCandidates]),

  followed by the properties the specification states about them.

  JavaScript numbers are IEEE 754 binary64 values: they are modelled by the
  Standard Library's [spec_float], and [===] on numbers by [SFeqb].
  Exceptions are explicit: code that can throw returns a [Completion].
  Generators driven by redux-saga are written in a small monad that threads
  the world (store, persistent storage, query string, network oracles) and
  records every effect the saga yields. *)

From Stdlib Require Import Ascii String List ZArith Bool Lia.
From Stdlib Require Import Floats.SpecFloat.
From stdpp Require Import base gmap strings.
Import ListNotations.

Local Open Scope string_scope.
Local Open Scope list_scope.

(** * JavaScript values used by the code *)

Module Js.

(** A JavaScript [number]. *)
Definition number : Type := spec_float.

(** [a === b] on numbers: [NaN] differs from itself, [+0 === -0]. *)
Definition strict_eq (a b : number) : bool := SFeqb a b.

(** [a !== b] on numbers. *)
Definition strict_neq (a b : number) : bool := negb (SFeqb a b).

(** [Number.isFinite]. *)
Definition isFinite (a : number) : bool :=
  match a with
  | S754_zero _ | S754_finite _ _ _ => true
  | S754_infinity _ | S754_nan => false
  end.

(** The literal [0.0]. *)
Definition zero : number := S754_zero false.

(** Truthiness of a string: only the empty string is falsy. *)
Definition truthy_string (s : string) : bool :=
  match s with
  | EmptyString => false
  | String _ _ => true
  end.

(** Truthiness of a possibly absent string ([null], [undefined] or [""]
    are falsy). *)
Definition truthy_opt_string (s : option string) : bool :=
  match s with
  | Some s => truthy_string s
  | None => false
  end.

(** [s.startsWith(p)]. *)
Definition startsWith (s p : string) : bool := String.prefix p s.

(** What a call that may throw produces: a value, or the thrown value. *)
Inductive Completion (E A : Type) : Type :=
| Normal (a : A)
| Throw (e : E).
Arguments Normal {E A} a.
Arguments Throw {E A} e.

(** A thrown value: an error object with its [message] (absent when it is
    not a string) and, for a rejected HTTP exchange, the [status] of its
    [responseJson]. *)
Record ResponseJson : Type := mkResponseJson { status : option string }.

Record JsError : Type := mkJsError {
  name : string;
  message : option string;
  responseJson : option ResponseJson
}.

Definition TypeError (msg : string) : JsError :=
  mkJsError "TypeError" (Some msg) None.

(** [l.filter(pred)]: the predicate is called on the elements in order, and
    what it throws ends the filter. *)
Fixpoint array_filter {A : Type} (pred : A -> Completion JsError bool)
    (l : list A) : Completion JsError (list A) :=
  match l with
  | [] => Normal []
  | a :: l' =>
      match pred a with
      | Throw e => Throw e
      | Normal keep =>
          match array_filter pred l' with
          | Throw e => Throw e
          | Normal kept => Normal (if keep then a :: kept else kept)
          end
      end
  end.

End Js.

(** * [shared/dao/types] *)

Module DaoTypes.

(** [Realm]: the protocol tag, the host, the server name and, when known,
    the version of its lighthouse. *)
Record Realm : Type := mkRealm {
  protocol : string;
  hostname : string;
  serverName : string;
  lighthouseVersion : option string
}.

(** [Candidate]: a realm with its live telemetry. *)
Record Candidate : Type := mkCandidate {
  domain : string;
  catalystName : string;
  catalystVersion : string;
  usersCount : nat;
  maxUsers : option nat;
  elapsed : nat;
  usersParcels : list (Z * Z)
}.

End DaoTypes.

(** * The position codec *)

Module PositionCodec.
Import Js.

(** [Position]: x, y, z, the rotation quaternion and the "immediate"
    flag, the 8-tuple the code indexes with [p[0]] .. [p[7]]. *)
Record Position : Type := mkPosition {
  p0 : number; p1 : number; p2 : number;
  p3 : number; p4 : number; p5 : number; p6 : number;
  p7 : bool
}.

(** Modelled from the spec: the generated protobuf class [PositionData]
    of [proto/comms_pb], which is not among the sources.  Its shape is the
    one of the generated classes of [proto/bff_pb.js]: every scalar field
    sits in a slot that is empty until set, a proto3 setter stores the
    value unless it equals the default (then it clears the slot), and a
    getter reads the slot or answers the default. *)
Record PositionData : Type := mkPositionData {
  positionX : option number; positionY : option number;
  positionZ : option number;
  rotationX : option number; rotationY : option number;
  rotationZ : option number; rotationW : option number;
  immediate : option bool
}.

(** [new PositionData()]. *)
Definition newPositionData : PositionData :=
  mkPositionData None None None None None None None None.

(** [jspb.Message.setProto3FloatField]: slot content for [value]. *)
Definition proto3Float (value : number) : option number :=
  if strict_neq value zero then Some value else None.

(** [jspb.Message.setProto3BooleanField]. *)
Definition proto3Boolean (value : bool) : option bool :=
  if value then Some true else None.

(** [jspb.Message.getFloatingPointFieldWithDefault (msg, n, 0.0)]. *)
Definition floatWithDefault (slot : option number) : number :=
  match slot with Some v => v | None => zero end.

(** [jspb.Message.getBooleanFieldWithDefault (msg, n, false)]. *)
Definition booleanWithDefault (slot : option bool) : bool :=
  match slot with Some v => v | None => false end.

Definition setPositionX (v : number) (d : PositionData) : PositionData :=
  mkPositionData (proto3Float v) (positionY d) (positionZ d) (rotationX d)
    (rotationY d) (rotationZ d) (rotationW d) (immediate d).
Definition setPositionY (v : number) (d : PositionData) : PositionData :=
  mkPositionData (positionX d) (proto3Float v) (positionZ d) (rotationX d)
    (rotationY d) (rotationZ d) (rotationW d) (immediate d).
Definition setPositionZ (v : number) (d : PositionData) : PositionData :=
  mkPositionData (positionX d) (positionY d) (proto3Float v) (rotationX d)
    (rotationY d) (rotationZ d) (rotationW d) (immediate d).
Definition setRotationX (v : number) (d : PositionData) : PositionData :=
  mkPositionData (positionX d) (positionY d) (positionZ d) (proto3Float v)
    (rotationY d) (rotationZ d) (rotationW d) (immediate d).
Definition setRotationY (v : number) (d : PositionData) : PositionData :=
  mkPositionData (positionX d) (positionY d) (positionZ d) (rotationX d)
    (proto3Float v) (rotationZ d) (rotationW d) (immediate d).
Definition setRotationZ (v : number) (d : PositionData) : PositionData :=
  mkPositionData (positionX d) (positionY d) (positionZ d) (rotationX d)
    (rotationY d) (proto3Float v) (rotationW d) (immediate d).
Definition setRotationW (v : number) (d : PositionData) : PositionData :=
  mkPositionData (positionX d) (positionY d) (positionZ d) (rotationX d)
    (rotationY d) (rotationZ d) (proto3Float v) (immediate d).
Definition setImmediate (v : bool) (d : PositionData) : PositionData :=
  mkPositionData (positionX d) (positionY d) (positionZ d) (rotationX d)
    (rotationY d) (rotationZ d) (rotationW d) (proto3Boolean v).

Definition getPositionX (d : PositionData) := floatWithDefault (positionX d).
Definition getPositionY (d : PositionData) := floatWithDefault (positionY d).
Definition getPositionZ (d : PositionData) := floatWithDefault (positionZ d).
Definition getRotationX (d : PositionData) := floatWithDefault (rotationX d).
Definition getRotationY (d : PositionData) := floatWithDefault (rotationY d).
Definition getRotationZ (d : PositionData) := floatWithDefault (rotationZ d).
Definition getRotationW (d : PositionData) := floatWithDefault (rotationW d).
Definition getImmediate (d : PositionData) := booleanWithDefault (immediate d).

(** [createPositionData(p)]: the setters are called in source order on a
    fresh message. *)
Definition createPositionData (p : Position) : PositionData :=
  let positionData := newPositionData in
  let positionData := setPositionX (p0 p) positionData in
  let positionData := setPositionY (p1 p) positionData in
  let positionData := setPositionZ (p2 p) positionData in
  let positionData := setRotationX (p3 p) positionData in
  let positionData := setRotationY (p4 p) positionData in
  let positionData := setRotationZ (p5 p) positionData in
  let positionData := setRotationW (p6 p) positionData in
  let positionData := setImmediate (p7 p) positionData in
  positionData.

(** [mapToPositionMessage(positionData)]. *)
Definition mapToPositionMessage (positionData : PositionData) : Position :=
  mkPosition
    (getPositionX positionData)
    (getPositionY positionData)
    (getPositionZ positionData)
    (getRotationX positionData)
    (getRotationY positionData)
    (getRotationZ positionData)
    (getRotationW positionData)
    (getImmediate positionData).

(** ** The wire *)

(** A field on the wire: its number and its scalar.  The byte layout is
    the protobuf runtime's and is not modelled. *)
Inductive WireValue : Type :=
| WDouble (v : number)
| WBool (b : bool)
| WOther.

Definition WireField : Type := (nat * WireValue)%type.

(** Modelled from the spec: [PositionData.serializeBinaryToWriter] of
    [proto/comms_pb], absent from the sources; the spec's wire format
    carries numbers as doubles, and the generated writers of
    [proto/bff_pb.js] emit a scalar field only when its getter differs
    from the default.  Field numbers 3 to 10 follow the setters' order. *)
Definition writeDoubleField (n : nat) (f : number) : list WireField :=
  if strict_neq f zero then [(n, WDouble f)] else [].

Definition writeBoolField (n : nat) (f : bool) : list WireField :=
  if f then [(n, WBool f)] else [].

Definition serializeBinary (message : PositionData) : list WireField :=
  writeDoubleField 3 (getPositionX message) ++
  writeDoubleField 4 (getPositionY message) ++
  writeDoubleField 5 (getPositionZ message) ++
  writeDoubleField 6 (getRotationX message) ++
  writeDoubleField 7 (getRotationY message) ++
  writeDoubleField 8 (getRotationZ message) ++
  writeDoubleField 9 (getRotationW message) ++
  writeBoolField 10 (getImmediate message).

(** Modelled from the spec: [PositionData.deserializeBinaryFromReader]:
    the reader loop of the generated classes, one setter per known field
    number, any other field skipped. *)
Definition readField (msg : PositionData) (f : WireField) : PositionData :=
  match f with
  | (3, WDouble v) => setPositionX v msg
  | (4, WDouble v) => setPositionY v msg
  | (5, WDouble v) => setPositionZ v msg
  | (6, WDouble v) => setRotationX v msg
  | (7, WDouble v) => setRotationY v msg
  | (8, WDouble v) => setRotationZ v msg
  | (9, WDouble v) => setRotationW v msg
  | (10, WBool b) => setImmediate b msg
  | _ => msg
  end.

Definition deserializeBinary (bytes : list WireField) : PositionData :=
  fold_left readField bytes newPositionData.

(** What a sender puts on the wire for [p], and what a receiver maps it
    back to. *)
Definition encode (p : Position) : list WireField :=
  serializeBinary (createPositionData p).

Definition decode (bytes : list WireField) : Position :=
  mapToPositionMessage (deserializeBinary bytes).

(** Component-wise [===] of two positions. *)
Definition Position_eqb (p q : Position) : bool :=
  strict_eq (p0 p) (p0 q) && strict_eq (p1 p) (p1 q) &&
  strict_eq (p2 p) (p2 q) && strict_eq (p3 p) (p3 q) &&
  strict_eq (p4 p) (p4 q) && strict_eq (p5 p) (p5 q) &&
  strict_eq (p6 p) (p6 q) && Bool.eqb (p7 p) (p7 q).

(** The seven numeric components are finite. *)
Definition finite_components (p : Position) : bool :=
  isFinite (p0 p) && isFinite (p1 p) && isFinite (p2 p) &&
  isFinite (p3 p) && isFinite (p4 p) && isFinite (p5 p) &&
  isFinite (p6 p).

(** A sample position: (1.5, 0, -2, 0, -0, 0, 1), applied immediately. *)
Definition sample_position : Position :=
  mkPosition
    (S754_finite false 6755399441055744 (-52))
    (S754_zero false)
    (S754_finite true 4503599627370496 (-51))
    (S754_zero false) (S754_zero true) (S754_zero false)
    (S754_finite false 4503599627370496 (-52))
    true.

End PositionCodec.

(** * The world instance connection *)

Module Lighthouse.
Import Js DaoTypes PositionCodec.

(** ** Values *)

Definition Uint8Array : Type := list N.

(** [CommsStatus]: the connection status and the connected-peer count.  The
    transport's own status strings are relayed through [peer_status]. *)
Inductive Status : Type :=
| connecting | connected | realm_full | error
| peer_status (s : string).

Record CommsStatus : Type := mkCommsStatus {
  cs_status : Status;
  connectedPeers : nat
}.

(** [PeerMessageType] of the peer library. *)
Record PeerMessageType : Type := mkPeerMessageType {
  pmt_name : string;
  ttl : option Z;
  expirationTime : option Z;
  optimistic : bool;
  discardOlderThan : option Z
}.

Definition commsMessageType : PeerMessageType :=
  mkPeerMessageType "sceneComms" (Some 10%Z) (Some (10 * 1000)%Z) true None.

Definition VoiceType : PeerMessageType :=
  mkPeerMessageType "voice" (Some 5%Z) (Some 10000%Z) true (Some 2000%Z).

Definition ProfileRequestResponseType (action : string) : PeerMessageType :=
  mkPeerMessageType ("profile_" ++ action) (Some 10%Z) (Some 10000%Z) true
    (Some 0%Z).

(** An entry of the transport's [currentRooms]: a room id, or a [Room]
    object with its [id]. *)
Inductive RoomEntry : Type :=
| RoomId (id : string)
| RoomObject (id : string).

(** [ProfileType]. *)
Inductive ProfileType : Type := LOCAL | DEPLOYED.

(** The kind-specific protobuf payloads of [proto/comms_pb]. *)
Record ChatData : Type := mkChatData { messageId : string; chatText : string }.
Record SceneData : Type := mkSceneData { sceneId : string; sceneText : string }.
Record ProfileData : Type := mkProfileData {
  pd_userId : string; pd_profileVersion : string; pd_profileType : ProfileType
}.
Record VoiceData : Type := mkVoiceData { encodedSamples : Uint8Array; voiceIndex : Z }.
Record ProfileRequestData : Type := mkProfileRequestData {
  prq_userId : string; prq_profileVersion : string
}.
Record ProfileResponseData : Type := mkProfileResponseData {
  serializedProfile : string
}.

(** [MessageData]: what [sendData] accepts. *)
Inductive MessageData : Type :=
| MChat (d : ChatData)
| MProfile (d : ProfileData)
| MScene (d : SceneData)
| MPosition (d : PositionData)
| MVoice (d : VoiceData)
| MProfileRequest (d : ProfileRequestData)
| MProfileResponse (d : ProfileResponseData).

(** [CommsMessage]: the time and the [oneof data] with its discriminant
    ([getDataCase]); [DATA_NOT_SET] also stands for a field of a later
    protocol version, which the reader skips. *)
Inductive DataCase : Type :=
| DATA_NOT_SET
| CHAT_DATA (d : ChatData)
| POSITION_DATA (d : PositionData)
| SCENE_DATA (d : SceneData)
| PROFILE_DATA (d : ProfileData)
| VOICE_DATA (d : VoiceData)
| PROFILE_REQUEST_DATA (d : ProfileRequestData)
| PROFILE_RESPONSE_DATA (d : ProfileResponseData).

Record CommsMessage : Type := mkCommsMessage {
  time : number;
  data : DataCase
}.

(** [PackageType]: the closed set of message kinds. *)
Inductive PackageType : Type :=
| chat | position | profile | scene | voice | profileRequest | profileResponse.

(** The [data] of a [Package], one shape per mapper. *)
Inductive PackageData (Profile : Type) : Type :=
| ChatMessage (id text : string)
| PositionMessage (p : Position)
| BusMessage (id text : string)
| ProfileVersion (user version : string) (type : ProfileType)
| VoiceFragment (encoded : Uint8Array) (index : Z)
| ProfileRequest (userId : string) (version : option string)
| ProfileResponse (profile : Profile).
Arguments ChatMessage {Profile}.
Arguments PositionMessage {Profile}.
Arguments BusMessage {Profile}.
Arguments ProfileVersion {Profile}.
Arguments VoiceFragment {Profile}.
Arguments ProfileRequest {Profile}.
Arguments ProfileResponse {Profile}.

(** [Package<T>]. *)
Record Package (Profile : Type) : Type := mkPackage {
  pkg_sender : string;
  pkg_time : number;
  pkg_type : PackageType;
  pkg_data : PackageData Profile
}.
Arguments mkPackage {Profile}.
Arguments pkg_sender {Profile}.
Arguments pkg_time {Profile}.
Arguments pkg_type {Profile}.
Arguments pkg_data {Profile}.

(** The seven handler slots of the connection. *)
Inductive Handler : Type :=
| sceneMessageHandler | chatHandler | profileHandler | positionHandler
| voiceHandler | profileResponseHandler | profileRequestHandler.

(** ** Collaborators *)

(** The peer library ([@dcl/catalyst-peer]): what the connection calls on
    its transport.  Asynchronous calls answer with their settled outcome and
    the transport as it is once they settled. *)
Class CatalystPeer (P : Type) : Type := {
  newPeer : string -> option string -> option string -> P;
  connectedCount : P -> nat;
  currentRooms : P -> list RoomEntry;
  awaitConnectionEstablished : Z -> P -> Completion JsError unit * P;
  joinRoom : string -> P -> Completion JsError unit * P;
  leaveRoom : string -> P -> Completion JsError unit * P;
  sendMessage :
    string -> Uint8Array -> PeerMessageType -> P -> Completion JsError unit * P;
  setPeerPosition :
    string -> number * number * number -> P -> Completion JsError unit * P;
  dispose : P -> Completion JsError unit * P;
  setPreferedIslandId : option (string -> P -> P)
}.

(** Code of the repository and of its libraries that the connection uses
    and that is not among the sources: the generated [CommsMessage] codec,
    [JSON.parse] on a serialized profile and [compareVersions]. *)
Class Helpers (Profile : Type) : Type := {
  serializeBinary : CommsMessage -> Uint8Array;
  deserializeBinary : Uint8Array -> Completion JsError CommsMessage;
  JSON_parse : string -> Completion JsError Profile;
  compareVersions : string -> option string -> Z
}.

(** ** The connection object *)

(** Calls made on the transport. *)
Inductive PeerCall : Type :=
| CallNewPeer (url : string) (idToUse : option string)
| CallAwaitConnectionEstablished (timeout : Z)
| CallJoinRoom (room : string)
| CallLeaveRoom (room : string)
| CallSendMessage (topic : string) (bytes : Uint8Array) (type : PeerMessageType)
| CallSetPeerPosition (sender : string) (xyz : number * number * number)
| CallSetPreferedIslandId (island : string)
| CallDispose.

(** What the connection does to the outside, in order.  A status report
    also records what the transport's [connectedCount()] was when the status
    callback ran ([None] when there was no transport object). *)
Inductive Event (Profile : Type) : Type :=
| StatusReported (s : CommsStatus) (transportCount : option nat)
| PeerCalled (c : PeerCall)
| HandlerInvoked (h : Handler) (pkg : Package Profile)
| IslandChangeNotified
| LoggerWarn (dataCase : DataCase)
| LoggerError (e : JsError)
| DefaultLoggerError (e : JsError).
Arguments StatusReported {Profile}.
Arguments PeerCalled {Profile}.
Arguments HandlerInvoked {Profile}.
Arguments IslandChangeNotified {Profile}.
Arguments LoggerWarn {Profile}.
Arguments LoggerError {Profile}.
Arguments DefaultLoggerError {Profile}.

(** The fields of [LighthouseWorldInstanceConnection], the clock read by
    [Date.now()], the registered handlers (what each answers when invoked)
    and the trace of events so far.  Of [peerConfig] the connection reads
    [preferedIslandId] and [eventsHandler?.onIslandChange]: [onIslandChange]
    is [None] when no such handler is configured, and otherwise what the
    handler answers when it is called. *)
Record Connection (P Profile : Type) : Type := mkConnection {
  peer : option P;
  rooms : list string;
  peerId : string;
  realm : Realm;
  lighthouseUrl : string;
  preferedIslandId : option string;
  onIslandChange : option (Completion JsError unit);
  handlers : Handler -> Package Profile -> Completion JsError unit;
  clock : number;
  trace : list (Event Profile)
}.
Arguments mkConnection {P Profile}.
Arguments peer {P Profile}.
Arguments rooms {P Profile}.
Arguments peerId {P Profile}.
Arguments realm {P Profile}.
Arguments lighthouseUrl {P Profile}.
Arguments preferedIslandId {P Profile}.
Arguments onIslandChange {P Profile}.
Arguments handlers {P Profile}.
Arguments clock {P Profile}.
Arguments trace {P Profile}.

(** [NOOP]. *)
Definition NOOP {Profile : Type} (_ : Package Profile) : Completion JsError unit :=
  Normal tt.

(** ** Asynchronous methods as state transformers *)

Section Operations.
Context {P Profile : Type} `{CatalystPeer P} `{Helpers Profile}.

(** A method body: from the connection to its completion and the
    connection afterwards.  A [Throw] is a thrown exception or, for an
    [async] method, the rejection of its promise. *)
Definition M (A : Type) : Type :=
  Connection P Profile -> Completion JsError A * Connection P Profile.

Definition ret {A : Type} (a : A) : M A := fun c => (Normal a, c).

Definition bind {A B : Type} (m : M A) (k : A -> M B) : M B :=
  fun c =>
    match m c with
    | (Normal a, c') => k a c'
    | (Throw e, c') => (Throw e, c')
    end.

Definition throw {A : Type} (e : JsError) : M A := fun c => (Throw e, c).

(** [try { m } catch (e) { handler e }]. *)
Definition try_catch {A : Type} (m : M A) (handler : JsError -> M A) : M A :=
  fun c =>
    match m c with
    | (Normal a, c') => (Normal a, c')
    | (Throw e, c') => handler e c'
    end.

(** A promise that is created but not yet awaited: its outcome is a
    value. *)
Definition settle {A : Type} (m : M A) : M (Completion JsError A) :=
  fun c => let (r, c') := m c in (Normal r, c').

Notation "'let*' x ':=' m 'in' k" := (bind m (fun x => k))
  (at level 10, x name, m at level 100, k at level 200).

Fixpoint mapM {A B : Type} (f : A -> M B) (l : list A) : M (list B) :=
  match l with
  | [] => ret []
  | a :: l' => let* b := f a in let* bs := mapM f l' in ret (b :: bs)
  end.

Definition with_trace (t : list (Event Profile)) (c : Connection P Profile) :=
  mkConnection (peer c) (rooms c) (peerId c) (realm c) (lighthouseUrl c)
    (preferedIslandId c) (onIslandChange c) (handlers c) (clock c) t.

Definition with_peer (p : option P) (c : Connection P Profile) :=
  mkConnection p (rooms c) (peerId c) (realm c) (lighthouseUrl c)
    (preferedIslandId c) (onIslandChange c) (handlers c) (clock c) (trace c).

Definition with_rooms (r : list string) (c : Connection P Profile) :=
  mkConnection (peer c) r (peerId c) (realm c) (lighthouseUrl c)
    (preferedIslandId c) (onIslandChange c) (handlers c) (clock c) (trace c).

Definition with_realm (r : Realm) (url : string) (c : Connection P Profile) :=
  mkConnection (peer c) (rooms c) (peerId c) r url
    (preferedIslandId c) (onIslandChange c) (handlers c) (clock c) (trace c).

Definition get : M (Connection P Profile) := fun c => (Normal c, c).

Definition emit (ev : Event Profile) : M unit :=
  fun c => (Normal tt, with_trace (trace c ++ [ev]) c).

(** [this.peer.<method>(...)]: a [TypeError] when [this.peer] is
    undefined. *)
Definition undefinedPeer : JsError :=
  TypeError "Cannot read properties of undefined".

Definition onPeer {A : Type} (call : PeerCall)
    (f : P -> Completion JsError A * P) : M A :=
  fun c =>
    match peer c with
    | None => (Throw undefinedPeer, c)
    | Some p =>
        let (r, p') := f p in
        (r, with_peer (Some p') (with_trace (trace c ++ [PeerCalled call]) c))
    end.

Definition readPeer {A : Type} (f : P -> A) : M A :=
  fun c =>
    match peer c with
    | None => (Throw undefinedPeer, c)
    | Some p => (Normal (f p), c)
    end.

(** [this.statusHandler(status)]: the callback given to the constructor. *)
Definition statusHandler (s : CommsStatus) : M unit :=
  fun c =>
    (Normal tt,
     with_trace
       (trace c ++ [StatusReported s (option_map connectedCount (peer c))]) c).

(** A registered handler is invoked; what it throws is thrown here. *)
Definition invoke (h : Handler) (pkg : Package Profile) : M unit :=
  fun c => (handlers c h pkg, with_trace (trace c ++ [HandlerInvoked h pkg]) c).

(** [connectedPeersCount()]. *)
Definition connectedPeersCount : M nat :=
  fun c =>
    (Normal match peer c with
            | Some p => connectedCount p
            | None => 0
            end, c).

(** [e.responseJson && e.responseJson.status === 'layer_is_full']. *)
Definition layer_is_full (e : JsError) : bool :=
  match responseJson e with
  | Some r =>
      match status r with
      | Some s => String.eqb s "layer_is_full"
      | None => false
      end
  | None => false
  end.

(** [connect()]. *)
Definition connect : M bool :=
  try_catch
    (let* count := readPeer connectedCount in
     let* _ :=
       if Nat.eqb count 0
       then onPeer (CallAwaitConnectionEstablished 60000)
                   (awaitConnectionEstablished 60000)
       else ret tt in
     let* n := connectedPeersCount in
     let* _ := statusHandler (mkCommsStatus connected n) in
     ret true)
    (fun e =>
     let* _ := emit (DefaultLoggerError e) in
     let* n := connectedPeersCount in
     let* _ :=
       statusHandler
         (mkCommsStatus (if layer_is_full e then realm_full else error) n) in
     throw e).

(** [cleanUpPeer()]. *)
Definition cleanUpPeer : M unit := onPeer CallDispose dispose.

(** [disconnect()]. *)
Definition disconnect : M unit := cleanUpPeer.

(** The status callback [createPeer] installs in the peer's events
    handler: a status of the transport is relayed with the current count. *)
Definition relayPeerStatus (s : string) : M unit :=
  let* n := connectedPeersCount in
  statusHandler (mkCommsStatus (peer_status s) n).

(** [createPeer()]. *)
Definition createPeer : M P :=
  let* c := get in
  let idToUse :=
    if Z.eqb (compareVersions "0.1" (lighthouseVersion (realm c))) (-1)
    then None else Some (peerId c) in
  let* _ := emit (PeerCalled (CallNewPeer (lighthouseUrl c) idToUse)) in
  ret (newPeer (lighthouseUrl c) idToUse (preferedIslandId c)).

(** [initializePeer()]. *)
Definition initializePeer : M P :=
  let* n := connectedPeersCount in
  let* _ := statusHandler (mkCommsStatus connecting n) in
  let* p := createPeer in
  let* _ := (fun c => (Normal tt, with_peer (Some p) c)) in
  let* c := get in
  let* _ :=
    match preferedIslandId c, setPreferedIslandId with
    | Some island, Some set =>
        if truthy_string island
        then onPeer (CallSetPreferedIslandId island)
                    (fun p => (Normal tt, set island p))
        else ret tt
    | _, _ => ret tt
    end in
  readPeer (fun p => p).

(** [new LighthouseWorldInstanceConnection(peerId, realm, lighthouseUrl,
    peerConfig, statusHandler)]: the fields as declared, then
    [this.peer = this.initializePeer()]. *)
Definition fresh (peerId : string) (realm : Realm) (lighthouseUrl : string)
    (preferedIslandId : option string)
    (onIslandChange : option (Completion JsError unit)) (now : number)
    : Connection P Profile :=
  mkConnection None [] peerId realm lighthouseUrl preferedIslandId
    onIslandChange (fun _ => NOOP) now [].

Definition constructor (peerId : string) (realm : Realm) (lighthouseUrl : string)
    (preferedIslandId : option string)
    (onIslandChange : option (Completion JsError unit)) (now : number) :
    Completion JsError P * Connection P Profile :=
  initializePeer
    (fresh peerId realm lighthouseUrl preferedIslandId onIslandChange now).

(** [isSameRoom(roomId, roomIdOrObject)] of [syncRoomsWithPeer]. *)
Definition isSameRoom (roomId : string) (roomIdOrObject : RoomEntry) : bool :=
  match roomIdOrObject with
  | RoomId s => String.eqb s roomId
  | RoomObject id => String.eqb id roomId
  end.

(** [Promise.all]: rejected with a rejection of its members, if any. *)
Definition Promise_all (outcomes : list (Completion JsError unit)) : M unit :=
  match
    List.find (fun o => match o with Throw _ => true | Normal _ => false end)
      outcomes
  with
  | Some (Throw e) => throw e
  | _ => ret tt
  end.

(** [syncRoomsWithPeer()]: both [map]s run to their end, so every call is
    made before any outcome is looked at. *)
Definition syncRoomsWithPeer : M unit :=
  let* currentRooms := readPeer currentRooms in
  let* c := get in
  let* joining :=
    mapM (fun room =>
            if negb (existsb (fun current => isSameRoom room current) currentRooms)
            then settle (onPeer (CallJoinRoom room) (joinRoom room))
            else ret (Normal tt))
         (rooms c) in
  let* leaving :=
    mapM (fun current =>
            if negb (existsb (fun room => isSameRoom room current) (rooms c))
            then match current with
                 | RoomId id => settle (onPeer (CallLeaveRoom id) (leaveRoom id))
                 | RoomObject _ => ret (Normal tt)
                 end
            else ret (Normal tt))
         currentRooms in
  Promise_all (joining ++ leaving).

(** [setTopics(rooms)]. *)
Definition setTopics (rooms : list string) : M unit :=
  let* _ := (fun c => (Normal tt, with_rooms rooms c)) in
  syncRoomsWithPeer.

(** [this.peerConfig.eventsHandler?.onIslandChange?.(undefined, [])]:
    nothing when no handler is configured; what a handler throws is thrown
    here. *)
Definition notifyIslandChange : M unit :=
  fun c =>
    match onIslandChange c with
    | Some answer =>
        (answer, with_trace (trace c ++ [IslandChangeNotified]) c)
    | None => (Normal tt, c)
    end.

(** [changeRealm(realm, url)]. *)
Definition changeRealm (realm : Realm) (url : string) : M unit :=
  let* n := connectedPeersCount in
  let* _ := statusHandler (mkCommsStatus connecting n) in
  let* c := get in
  let* _ := match peer c with Some _ => cleanUpPeer | None => ret tt end in
  let* _ := (fun c => (Normal tt, with_realm realm url c)) in
  let* _ := notifyIslandChange in
  let* _ := initializePeer in
  let* _ := connect in
  syncRoomsWithPeer.

(** [createCommsMessage(data)]. *)
Definition createCommsMessage (d : MessageData) : M CommsMessage :=
  let* c := get in
  ret (mkCommsMessage (clock c)
         match d with
         | MChat d => CHAT_DATA d
         | MScene d => SCENE_DATA d
         | MProfile d => PROFILE_DATA d
         | MPosition d => POSITION_DATA d
         | MVoice d => VOICE_DATA d
         | MProfileRequest d => PROFILE_REQUEST_DATA d
         | MProfileResponse d => PROFILE_RESPONSE_DATA d
         end).

(** The text the transport rejects a send to a room not joined with. *)
Definition roomNotJoined : string := "cannot send a message in a room not joined".

(** [sendData(topic, messageData, type)]. *)
Definition sendData (topic : string) (messageData : MessageData)
    (type : PeerMessageType) : M unit :=
  try_catch
    (let* commsMessage := createCommsMessage messageData in
     let bytes := serializeBinary commsMessage in
     onPeer (CallSendMessage topic bytes type) (sendMessage topic bytes type))
    (fun e =>
     match message e with
     | Some message =>
         if startsWith message roomNotJoined then ret tt else throw e
     | None => throw e
     end).

(** [sendParcelSceneCommsMessage(sceneId, message)]. *)
Definition sendParcelSceneCommsMessage (sceneId message : string) : M unit :=
  let topic := sceneId in
  let sceneData := mkSceneData sceneId message in
  sendData topic (MScene sceneData) commsMessageType.

(** ** The receive path *)

(** [createPackage(sender, commsMessage, type, data)]. *)
Definition createPackage (sender : string) (commsMessage : CommsMessage)
    (type : PackageType) (data : PackageData Profile) : Package Profile :=
  mkPackage sender (time commsMessage) type data.

(** [mapToPackageChat(chatData)]. *)
Definition mapToPackageChat (chatData : ChatData) : PackageData Profile :=
  ChatMessage (messageId chatData) (chatText chatData).

(** [mapToPackageScene(sceneData)]. *)
Definition mapToPackageScene (sceneData : SceneData) : PackageData Profile :=
  BusMessage (sceneId sceneData) (sceneText sceneData).

(** [mapToPackageProfileType(profileType)]. *)
Definition mapToPackageProfileType (profileType : ProfileType) : ProfileType :=
  match profileType with
  | LOCAL => LOCAL
  | DEPLOYED => DEPLOYED
  end.

(** [mapToPackageProfile(profileData)]. *)
Definition mapToPackageProfile (profileData : ProfileData) : PackageData Profile :=
  ProfileVersion (pd_userId profileData) (pd_profileVersion profileData)
    (mapToPackageProfileType (pd_profileType profileData)).

(** [mapToPackageProfileRequest(profileRequestData)]. *)
Definition mapToPackageProfileRequest (profileRequestData : ProfileRequestData)
    : PackageData Profile :=
  let versionData := prq_profileVersion profileRequestData in
  ProfileRequest (prq_userId profileRequestData)
    (if truthy_string versionData then Some versionData else None).

(** [mapToPackageProfileResponse(profileResponseData)]: [JSON.parse] throws
    on a text that is not JSON. *)
Definition mapToPackageProfileResponse
    (profileResponseData : ProfileResponseData) : M (PackageData Profile) :=
  fun c =>
    match JSON_parse (serializedProfile profileResponseData) with
    | Normal parsed => (Normal (ProfileResponse parsed), c)
    | Throw e => (Throw e, c)
    end.

(** [mapToPackageVoice(encoded, index, fallbackIndex)]. *)
Definition mapToPackageVoice (encoded : Uint8Array) (index fallbackIndex : Z)
    : PackageData Profile :=
  VoiceFragment encoded (if Z.eqb index 0 then fallbackIndex else index).

(** [peerCallback(sender, room, payload, packet)]; of [packet] only the
    [sequenceId] is read. *)
Definition peerCallback (sender room : string) (payload : Uint8Array)
    (sequenceId : Z) : M unit :=
  try_catch
    (let* commsMessage := (fun c => (deserializeBinary payload, c)) in
     match data commsMessage with
     | CHAT_DATA d =>
         invoke chatHandler
           (createPackage sender commsMessage chat (mapToPackageChat d))
     | POSITION_DATA d =>
         let positionMessage := mapToPositionMessage d in
         let xyz := (p0 positionMessage, p1 positionMessage, p2 positionMessage) in
         let* _ :=
           onPeer (CallSetPeerPosition sender xyz) (setPeerPosition sender xyz) in
         invoke positionHandler
           (createPackage sender commsMessage position
              (PositionMessage positionMessage))
     | SCENE_DATA d =>
         invoke sceneMessageHandler
           (createPackage sender commsMessage chat (mapToPackageScene d))
     | PROFILE_DATA d =>
         invoke profileHandler
           (createPackage sender commsMessage profile (mapToPackageProfile d))
     | VOICE_DATA d =>
         invoke voiceHandler
           (createPackage sender commsMessage voice
              (mapToPackageVoice (encodedSamples d) (voiceIndex d) sequenceId))
     | PROFILE_REQUEST_DATA d =>
         invoke profileRequestHandler
           (createPackage sender commsMessage profileRequest
              (mapToPackageProfileRequest d))
     | PROFILE_RESPONSE_DATA d =>
         let* response := mapToPackageProfileResponse d in
         invoke profileResponseHandler
           (createPackage sender commsMessage profileResponse response)
     | DATA_NOT_SET => emit (LoggerWarn (data commsMessage))
     end)
    (fun e => emit (LoggerError e)).

End Operations.

(** ** Reading a trace *)

(** The handlers invoked, the statuses reported and the room calls made,
    in order. *)
Definition handlersInvoked {Profile : Type} (t : list (Event Profile))
    : list (Handler * Package Profile) :=
  omap (fun ev => match ev with
                  | HandlerInvoked h pkg => Some (h, pkg)
                  | _ => None
                  end) t.

Definition isRoomCall {Profile : Type} (ev : Event Profile) : bool :=
  match ev with
  | PeerCalled (CallJoinRoom _) | PeerCalled (CallLeaveRoom _) => true
  | _ => false
  end.

Definition roomCalls {Profile : Type} (t : list (Event Profile))
    : list (Event Profile) :=
  List.filter isRoomCall t.

(** What was added to the trace between [c] and [c']. *)
Definition newEvents {P Profile : Type} (c c' : Connection P Profile)
    : list (Event Profile) :=
  drop (length (trace c)) (trace c').

(** A status report carries the transport's count of the moment, or 0 when
    there was no transport. *)
Definition faithfulReport {Profile : Type} (ev : Event Profile) : Prop :=
  match ev with
  | StatusReported s transportCount =>
      connectedPeers s = match transportCount with
                         | Some n => n
                         | None => 0
                         end
  | _ => True
  end.

(** The handler slot and the envelope type that belong to each kind. *)
Definition handlerOf (d : DataCase) : option Handler :=
  match d with
  | DATA_NOT_SET => None
  | CHAT_DATA _ => Some chatHandler
  | POSITION_DATA _ => Some positionHandler
  | SCENE_DATA _ => Some sceneMessageHandler
  | PROFILE_DATA _ => Some profileHandler
  | VOICE_DATA _ => Some voiceHandler
  | PROFILE_REQUEST_DATA _ => Some profileRequestHandler
  | PROFILE_RESPONSE_DATA _ => Some profileResponseHandler
  end.

Definition kindOf (d : DataCase) : option PackageType :=
  match d with
  | DATA_NOT_SET => None
  | CHAT_DATA _ => Some chat
  | POSITION_DATA _ => Some position
  | SCENE_DATA _ => Some scene
  | PROFILE_DATA _ => Some profile
  | VOICE_DATA _ => Some voice
  | PROFILE_REQUEST_DATA _ => Some profileRequest
  | PROFILE_RESPONSE_DATA _ => Some profileResponse
  end.

(** ** Vocabulary of the properties *)

Section Vocabulary.
Context {P Profile : Type} `{CatalystPeer P} `{Helpers Profile}.

(** What the callback adds to the trace, case by case. *)
Inductive Dispatch (c : Connection P Profile) (sender : string)
    (payload : Uint8Array) (sequenceId : Z)
    : list (Event Profile) -> Prop :=
| dispatch_undecodable e :
    deserializeBinary payload = Throw e ->
    Dispatch c sender payload sequenceId [LoggerError e]
| dispatch_unknown msg :
    deserializeBinary payload = Normal msg ->
    data msg = DATA_NOT_SET ->
    Dispatch c sender payload sequenceId [LoggerWarn DATA_NOT_SET]
| dispatch_dropped msg h e evs :
    deserializeBinary payload = Normal msg ->
    handlerOf (data msg) = Some h ->
    (h = positionHandler \/ h = profileResponseHandler) ->
    handlersInvoked evs = [] ->
    Dispatch c sender payload sequenceId (evs ++ [LoggerError e])
| dispatch_delivered msg h pkg evs evs' :
    deserializeBinary payload = Normal msg ->
    handlerOf (data msg) = Some h ->
    handlersInvoked evs = [] ->
    handlersInvoked evs' = [] ->
    pkg_sender pkg = sender ->
    pkg_time pkg = time msg ->
    Some (pkg_type pkg) =
      match data msg with
      | SCENE_DATA _ => Some chat
      | d => kindOf d
      end ->
    Dispatch c sender payload sequenceId (evs ++ HandlerInvoked h pkg :: evs').

(** Every status report of the trace is faithful. *)
Definition faithful (c : Connection P Profile) : Prop :=
  Forall faithfulReport (trace c).

(** A method body that leaves a faithful trace faithful. *)
Definition keeps {A : Type} (m : M A) : Prop :=
  forall c, faithful c -> faithful (snd (m c)).

(** What the connection relies on from the transport's rooms: a join that
    resolves adds an entry for the room and nothing else, a leave that
    resolves removes the room's id and nothing else. *)
Class LawfulRooms : Prop := {
  joinRoom_adds : forall room p p',
    joinRoom room p = (Normal tt, p') ->
    exists e,
      isSameRoom room e = true /\
      forall x, In x (currentRooms p') <-> In x (currentRooms p) \/ x = e;
  leaveRoom_removes : forall room p p',
    leaveRoom room p = (Normal tt, p') ->
    forall x,
      In x (currentRooms p') <-> In x (currentRooms p) /\ x <> RoomId room
}.

Definition resolved (o : Completion JsError unit) : Prop := o = Normal tt.

(** The join of one desired room, as [syncRoomsWithPeer] writes it. *)
Definition joinStep (cur0 : list RoomEntry) (room : string)
    : @M P Profile (Completion JsError unit) :=
  if negb (existsb (fun current => isSameRoom room current) cur0)
  then settle (onPeer (CallJoinRoom room) (joinRoom room))
  else ret (Normal tt).

(** The leave of one current room. *)
Definition leaveStep (X : list string) (current : RoomEntry)
    : @M P Profile (Completion JsError unit) :=
  if negb (existsb (fun room => isSameRoom room current) X)
  then match current with
       | RoomId id => settle (onPeer (CallLeaveRoom id) (leaveRoom id))
       | RoomObject _ => ret (Normal tt)
       end
  else ret (Normal tt).

End Vocabulary.

End Lighthouse.

(** * The realm sagas of [shared/dao] *)

Module Dao.
Import Js DaoTypes.

(** ** Values *)

(** [ServerConnectionStatus] and [PingResult]; of the pinged status document
    only [result?.env.catalystVersion] is read. *)
Inductive ServerConnectionStatus : Type := OK | UNREACHABLE.

Record PingResult : Type := mkPingResult {
  ping_status : ServerConnectionStatus;
  ping_catalystVersion : option string
}.

(** [AlgorithmChainConfig]: the configured chain of named strategies. *)
Definition AlgorithmChainConfig : Type := list string.

(** How a saga ends: with its return value, with an exception, or never,
    waiting for an action that does not come. *)
Inductive Outcome (A : Type) : Type :=
| Returned (a : A)
| Threw (e : JsError)
| Blocked.
Arguments Returned {A} a.
Arguments Threw {A} e.
Arguments Blocked {A}.

(** What the sagas call and is not among the sources: the connection-string
    resolver, the ping, [semver]'s [gte] (which throws on a version it
    cannot read), the pick-realm algorithm, the parcel parser,
    [candidateToRealm], the two fetches, and how [waitForExplorerIdentity]
    and [changeRealmObject] end. *)
Class Collaborators : Type := {
  resolveCommsConnectionString : string -> list Candidate -> option Realm;
  commsStatusUrl : string -> string;
  ping : string -> PingResult;
  gte : string -> string -> Completion JsError bool;
  defaultChainConfig : AlgorithmChainConfig;
  pickCandidate :
    AlgorithmChainConfig -> list Candidate -> Z * Z -> option Candidate;
  parseParcelPosition : string -> Z * Z;
  candidateToRealm : option Candidate -> Completion JsError Realm;
  fetchCatalystRealms : option string -> Completion JsError (list Candidate);
  fetchCatalystStatuses : list string -> Completion JsError (list Candidate);
  waitForExplorerIdentity : Outcome unit;
  changeRealmObject : Realm -> Outcome unit
}.

(** The world a saga runs in: the query string, the store as the selectors
    see it (of the dao state, the candidates of the catalyst scan and those
    of the added servers), the candidate lists of the
    [SET_ADDED_CATALYST_CANDIDATES] actions that others will dispatch while
    the saga waits, the two families of entries of the persistent storage
    (by key), and the [PIN_CATALYST] and [PREVIEW] settings. *)
Record World : Type := mkWorld {
  qs_realm : option string;
  qs_position : option string;
  selectedNetwork : string;
  dao_candidates : list Candidate;
  dao_addedCandidates : list Candidate;
  incoming : list (list Candidate);
  storedRealms : gmap string Realm;
  storedCandidates : gmap string (list Candidate);
  minCatalystVersion : option string;
  pickRealmsAlgorithmConfig : option AlgorithmChainConfig;
  catalystNodesEndpoint : option string;
  addedServers : list string;
  PIN_CATALYST : option string;
  PREVIEW : bool;
  rootURLPreviewMode : string
}.

Inductive Selector : Type :=
| getSelectedNetwork | getAllCatalystCandidates | getMinCatalystVersion
| getPickRealmsAlgorithmConfig | getCatalystNodesEndpoint | getAddedServers.

Inductive Action : Type :=
| establishingComms
| catalystRealmsScanRequested
| setCatalystCandidates (candidates : list Candidate)
| setAddedCatalystCandidates (candidates : list Candidate).

Inductive Callee : Type :=
| waitForCandidates_ | getFromPersistentStorage_ (key : string)
| getConfiguredRealm_ | resolveCommsConnectionString_ (realmName : string)
| checkValidRealm_ (r : Realm) | pickCatalystRealm_
| candidateToRealm_ (picked : option Candidate)
| filterCandidatesByCatalystVersion_
| fetchCatalystRealms_ (endpoint : option string)
| fetchCatalystStatuses_ (domains : list string)
| waitForMetaConfigurationInitialization_ | initializeCatalystCandidates_
| selectRealm_ | waitForExplorerIdentity_ | changeRealmObject_ (r : Realm)
| saveToPersistentStorage_ (key : string).

(** What a saga yields or does, in order. *)
Inductive Effect : Type :=
| Select (s : Selector)
| Take_SET_ADDED_CATALYST_CANDIDATES
| Put (a : Action)
| Call (f : Callee)
| Ping (url : string)
| PickCandidate (config : AlgorithmChainConfig) (candidates : list Candidate)
    (parcel : Z * Z)
| Warn (text : string)
| ReportFatalErrorWithCatalystPayload (e : JsError)
| BringDownClientAndShowError.

Record SagaState : Type := mkSagaState {
  world : World;
  effects : list Effect
}.

Definition Saga (A : Type) : Type := SagaState -> Outcome A * SagaState.

Definition ret {A : Type} (a : A) : Saga A := fun s => (Returned a, s).

Definition bind {A B : Type} (m : Saga A) (k : A -> Saga B) : Saga B :=
  fun s =>
    match m s with
    | (Returned a, s') => k a s'
    | (Threw e, s') => (Threw e, s')
    | (Blocked, s') => (Blocked, s')
    end.

Definition throw {A : Type} (e : JsError) : Saga A := fun s => (Threw e, s).

(** [try { m } catch (e) { handler e }]. *)
Definition try_catch {A : Type} (m : Saga A) (handler : JsError -> Saga A)
    : Saga A :=
  fun s =>
    match m s with
    | (Threw e, s') => handler e s'
    | r => r
    end.

Notation "'let*' x ':=' m 'in' k" := (bind m (fun x => k))
  (at level 10, x name, m at level 100, k at level 200).

(** Something the saga does that leaves the store alone. *)
Definition effect (e : Effect) : Saga unit :=
  fun s => (Returned tt, mkSagaState (world s) (effects s ++ [e])).

Definition with_candidates (fetched added : list Candidate)
    (pending : list (list Candidate)) (w : World) : World :=
  mkWorld (qs_realm w) (qs_position w) (selectedNetwork w) fetched added pending
    (storedRealms w) (storedCandidates w) (minCatalystVersion w)
    (pickRealmsAlgorithmConfig w) (catalystNodesEndpoint w) (addedServers w)
    (PIN_CATALYST w) (PREVIEW w) (rootURLPreviewMode w).

(** Modelled from the spec: the reducer of the dao store is not among the
    sources.  "Candidates are refreshed periodically and fully replaced (no
    incremental patching)": [setCatalystCandidates] replaces the candidates
    of the catalyst scan and [setAddedCatalystCandidates] those of the added
    servers.  The other two actions change nothing the sagas read. *)
Definition reducer (a : Action) (w : World) : World :=
  match a with
  | setCatalystCandidates candidates =>
      with_candidates candidates (dao_addedCandidates w) (incoming w) w
  | setAddedCatalystCandidates candidates =>
      with_candidates (dao_candidates w) candidates (incoming w) w
  | establishingComms | catalystRealmsScanRequested => w
  end.

(** Modelled from the spec: the selector [getAllCatalystCandidates], which
    is not among the sources, gives all the candidates the store has: those
    of the catalyst scan followed by those of the added servers. *)
Definition allCatalystCandidates (w : World) : list Candidate :=
  dao_candidates w ++ dao_addedCandidates w.

(** One of the actions to come was dispatched. *)
Definition with_incoming (pending : list (list Candidate)) (w : World) : World :=
  with_candidates (dao_candidates w) (dao_addedCandidates w) pending w.

(** [yield put(action)]: the store has reduced the action when the saga
    goes on.  The watchers that [daoSaga] starts on an action run as tasks
    of their own and are no part of the run of the saga that put it. *)
Definition put (a : Action) : Saga unit :=
  fun s => (Returned tt, mkSagaState (reducer a (world s)) (effects s ++ [Put a])).

(** [yield select(selector)]. *)
Definition select {A : Type} (sel : Selector) (read : World -> A) : Saga A :=
  fun s => (Returned (read (world s)), mkSagaState (world s) (effects s ++ [Select sel])).

(** [yield call(f, ...)]: the callee runs to its end. *)
Definition call {A : Type} (f : Callee) (body : Saga A) : Saga A :=
  let* _ := effect (Call f) in body.

(** A completion of a collaborator, inside a saga. *)
Definition lift {A : Type} (r : Completion JsError A) : Saga A :=
  match r with
  | Normal a => ret a
  | Throw e => throw e
  end.

(** A callee of which only the end is known. *)
Definition ends {A : Type} (o : Outcome A) : Saga A := fun s => (o, s).

Section Sagas.
Context `{Collaborators}.

Definition getLastRealmCacheKey (network : string) : string :=
  "last_realm_" ++ network.

Definition getLastRealmCandidatesCacheKey (network : string) : string :=
  "last_realm_candidates_" ++ network.

(** [getFromPersistentStorage(key)], at the two types it is read at; an
    entry that is not there is [None]. *)
Definition getStoredRealm (key : string) : Saga (option Realm) :=
  call (getFromPersistentStorage_ key)
    (fun s => (Returned (storedRealms (world s) !! key), s)).

Definition getStoredCandidates (key : string) : Saga (option (list Candidate)) :=
  call (getFromPersistentStorage_ key)
    (fun s => (Returned (storedCandidates (world s) !! key), s)).

(** [qsRealm()]. *)
Definition qsRealm : Saga (option string) :=
  fun s => (Returned (qs_realm (world s)), s).

(** [waitForCandidates()]: each turn of the loop selects the candidates
    and, when there is none, takes the next
    [SET_ADDED_CATALYST_CANDIDATES], which the store has reduced by then. *)
Fixpoint waitLoop (pending : list (list Candidate)) (w : World)
    (acc : list Effect) : Outcome unit * World * list Effect :=
  let acc := acc ++ [Select getAllCatalystCandidates] in
  match allCatalystCandidates w with
  | _ :: _ => (Returned tt, w, acc)
  | [] =>
      let acc := acc ++ [Take_SET_ADDED_CATALYST_CANDIDATES] in
      match pending with
      | [] => (Blocked, w, acc)
      | next :: pending' =>
          waitLoop pending'
            (with_incoming pending' (reducer (setAddedCatalystCandidates next) w))
            acc
      end
  end.

Definition waitForCandidates : Saga unit :=
  fun s =>
    match waitLoop (incoming (world s)) (world s) (effects s) with
    | (o, w, acc) => (o, mkSagaState w acc)
    end.

(** [pickCatalystRealm(candidates)].  The generator yields the call to
    [candidateToRealm] and ends without a [return]: whatever realm the call
    produced, the saga's result is [undefined]. *)
Definition pickCatalystRealm (candidates : list Candidate) : Saga (option Realm) :=
  let* config := select getPickRealmsAlgorithmConfig pickRealmsAlgorithmConfig in
  let config :=
    match config with
    | None | Some [] => defaultChainConfig
    | Some (link :: links) => link :: links
    end in
  let* position := (fun s => (Returned (qs_position (world s)), s)) in
  let currentUserParcel :=
    parseParcelPosition
      (match position with
       | Some p => if truthy_string p then p else "0,0"
       | None => "0,0"
       end) in
  let* _ := effect (PickCandidate config candidates currentUserParcel) in
  let picked := pickCandidate config candidates currentUserParcel in
  let* _ := call (candidateToRealm_ picked) (lift (candidateToRealm picked)) in
  ret None.

(** [checkValidRealm(realm)]; in
    [status === OK && (!minCatalystVersion || gte(...))] the versions are
    compared only when the ping answered and a minimum is configured. *)
Definition checkValidRealm (realm : Realm) : Saga bool :=
  if String.eqb (protocol realm) "v2" then
    let realmHasValues := truthy_string (hostname realm) in
    if negb realmHasValues then ret false
    else
      let* minCatalystVersion :=
        select getMinCatalystVersion minCatalystVersion in
      let url := commsStatusUrl (hostname realm) in
      let* _ := effect (Ping url) in
      let pingResult := ping url in
      let catalystVersion :=
        match ping_catalystVersion pingResult with
        | Some v => v
        | None => "0.0.0"
        end in
      match ping_status pingResult with
      | OK =>
          match minCatalystVersion with
          | Some m =>
              if truthy_string m then lift (gte catalystVersion m)
              else ret true
          | None => ret true
          end
      | UNREACHABLE => ret false
      end
  else ret true.

(** [getConfiguredRealm(candidates)]. *)
Definition getConfiguredRealm (candidates : list Candidate) : Saga (option Realm) :=
  let* realmName := qsRealm in
  match realmName with
  | Some realmName =>
      if truthy_string realmName then
        let* realm :=
          call (resolveCommsConnectionString_ realmName)
            (ret (resolveCommsConnectionString realmName candidates)) in
        let* isValid :=
          match realm with
          | Some r => call (checkValidRealm_ r) (checkValidRealm r)
          | None => ret false
          end in
        if isValid then ret realm
        else
          let* _ := effect (Warn ("Provided realm is not valid: " ++ realmName)) in
          ret None
      else ret None
  | None => ret None
  end.

(** [[...allCandidates, ...cachedCandidates]]: spreading a value that is
    not there throws. *)
Definition spread (allCandidates : list Candidate)
    (cachedCandidates : option (list Candidate)) : Saga (list Candidate) :=
  match cachedCandidates with
  | Some cached => ret (allCandidates ++ cached)
  | None => throw (TypeError "cachedCandidates is not iterable")
  end.

(** [selectRealm()].  In
    [yield call(getFromPersistentStorage, key) ?? []] the [??] applies to
    the effect [call(...)], which is never nullish, before [yield] does:
    [cachedCandidates] is what the storage answers, with no default. *)
Definition selectRealm : Saga (option Realm) :=
  let* _ := call waitForCandidates_ waitForCandidates in
  let* network := select getSelectedNetwork selectedNetwork in
  let* allCandidates := select getAllCatalystCandidates allCatalystCandidates in
  let* cachedCandidates :=
    getStoredCandidates (getLastRealmCandidatesCacheKey network) in
  let* candidates := spread allCandidates cachedCandidates in
  let* configured := call getConfiguredRealm_ (getConfiguredRealm candidates) in
  match configured with
  | Some realm => ret (Some realm)
  | None =>
      let* cached := getStoredRealm (getLastRealmCacheKey network) in
      match cached with
      | Some realm => ret (Some realm)
      | None => call pickCatalystRealm_ (pickCatalystRealm allCandidates)
      end
  end.

(** [filterCandidatesByCatalystVersion(candidates)]. *)
Definition filterCandidatesByCatalystVersion (candidates : list Candidate)
    : Saga (list Candidate) :=
  let* minCatalystVersion := select getMinCatalystVersion minCatalystVersion in
  let* filteredCandidates :=
    match minCatalystVersion with
    | Some m =>
        if truthy_string m
        then lift (array_filter (fun c => gte (catalystVersion c) m) candidates)
        else ret candidates
    | None => ret candidates
    end in
  ret filteredCandidates.

(** [initializeCatalystCandidates()]. *)
Definition initializeCatalystCandidates : Saga unit :=
  let* _ := put catalystRealmsScanRequested in
  let* catalystsNodesEndpointURL :=
    select getCatalystNodesEndpoint catalystNodesEndpoint in
  let* candidates :=
    call (fetchCatalystRealms_ catalystsNodesEndpointURL)
      (lift (fetchCatalystRealms catalystsNodesEndpointURL)) in
  let* pin := (fun s => (Returned (PIN_CATALYST (world s)), s)) in
  let* filteredCandidates :=
    if truthy_opt_string pin then ret candidates
    else call filterCandidatesByCatalystVersion_
           (filterCandidatesByCatalystVersion candidates) in
  let* _ := put (setCatalystCandidates filteredCandidates) in
  let* added :=
    if truthy_opt_string pin then ret []
    else select getAddedServers addedServers in
  let* addedCandidates :=
    call (fetchCatalystStatuses_ added) (lift (fetchCatalystStatuses added)) in
  let* filteredAddedCandidates :=
    call filterCandidatesByCatalystVersion_
      (filterCandidatesByCatalystVersion addedCandidates) in
  put (setAddedCatalystCandidates filteredAddedCandidates).

(** [selectAndReconnectRealm()]; the meta configuration is taken to be
    there when asked for. *)
Definition noRealm : JsError :=
  mkJsError "Error" (Some "Couldn't select a suitable realm to join.") None.

(** [initLocalCatalyst()]. *)
Definition initLocalCatalyst : Saga unit :=
  let* _ := put (setCatalystCandidates []) in
  put (setAddedCatalystCandidates []).

Definition selectAndReconnectRealm : Saga unit :=
  let* _ := call waitForMetaConfigurationInitialization_ (ret tt) in
  let* _ := put establishingComms in
  let* preview := (fun s => (Returned (PREVIEW (world s)), s)) in
  if negb preview then
    let* candidates := select getAllCatalystCandidates allCatalystCandidates in
    let* _ :=
      match candidates with
      | [] => call initializeCatalystCandidates_ initializeCatalystCandidates
      | _ :: _ => ret tt
      end in
    try_catch
      (let* realm := call selectRealm_ selectRealm in
       match realm with
       | Some realm =>
           let* _ := call waitForExplorerIdentity_ (ends waitForExplorerIdentity) in
           call (changeRealmObject_ realm) (ends (changeRealmObject realm))
       | None => throw noRealm
       end)
      (fun e =>
         let* _ := effect (ReportFatalErrorWithCatalystPayload e) in
         let* _ := effect BringDownClientAndShowError in
         throw e)
  else
    let* _ := initLocalCatalyst in
    let* _ := call waitForExplorerIdentity_ (ends waitForExplorerIdentity) in
    let* url := (fun s => (Returned (rootURLPreviewMode (world s)), s)) in
    let local := mkRealm "v1" url "localhost" None in
    call (changeRealmObject_ local) (ends (changeRealmObject local)).

End Sagas.

(** The saga is started on [w] with nothing yielded yet. *)
Definition start (w : World) : SagaState := mkSagaState w [].

(** The candidate lists put into the store by [setCatalystCandidates]. *)
Definition candidatesPut (es : list Effect) : list (list Candidate) :=
  omap (fun e => match e with
                 | Put (setCatalystCandidates l) => Some l
                 | _ => None
                 end) es.

(** The candidate lists put into the store by
    [setAddedCatalystCandidates]. *)
Definition addedCandidatesPut (es : list Effect) : list (list Candidate) :=
  omap (fun e => match e with
                 | Put (setAddedCatalystCandidates l) => Some l
                 | _ => None
                 end) es.

(** Whether the algorithmic candidate scan was run. *)
Definition scanned (es : list Effect) : bool :=
  existsb (fun e => match e with
                    | Call pickCatalystRealm_ | PickCandidate _ _ _ => true
                    | _ => false
                    end) es.

(** ** Vocabulary of the properties *)

Section Vocabulary.
Context `{Collaborators}.

(** How a completion ends a saga. *)
Definition outcomeOf {A : Type} (r : Completion JsError A) : Outcome A :=
  match r with
  | Normal a => Returned a
  | Throw e => Threw e
  end.

(** [checkValidRealm] as a function of the world: its answer, or what the
    comparison of the versions threw. *)
Definition isValidRealm (w : World) (realm : Realm)
    : Completion JsError bool :=
  if String.eqb (protocol realm) "v2" then
    if truthy_string (hostname realm) then
      match ping_status (ping (commsStatusUrl (hostname realm))) with
      | OK =>
          match minCatalystVersion w with
          | Some m =>
              if truthy_string m
              then gte (match ping_catalystVersion
                                (ping (commsStatusUrl (hostname realm))) with
                        | Some v => v
                        | None => "0.0.0"
                        end) m
              else Normal true
          | None => Normal true
          end
      | UNREACHABLE => Normal false
      end
    else Normal false
  else Normal true.

(** [getConfiguredRealm] as a function of the world. *)
Definition configuredRealm (w : World) (candidates : list Candidate)
    : Completion JsError (option Realm) :=
  match qs_realm w with
  | Some realmName =>
      if truthy_string realmName then
        match resolveCommsConnectionString realmName candidates with
        | Some r =>
            match isValidRealm w r with
            | Normal true => Normal (Some r)
            | Normal false => Normal None
            | Throw e => Throw e
            end
        | None => Normal None
        end
      else Normal None
  | None => Normal None
  end.

(** The comparison with the minimum [m] answers for the candidate, and
    answers that its version is at least [m]. *)
Definition comparable (m : string) (c : Candidate) : Prop :=
  exists answer, gte (catalystVersion c) m = Normal answer.

Definition atLeast (m : string) (c : Candidate) : bool :=
  match gte (catalystVersion c) m with
  | Normal answer => answer
  | Throw _ => false
  end.

(** [filterCandidatesByCatalystVersion] as a function of the world. *)
Definition versionFilter (w : World) (candidates : list Candidate)
    : Completion JsError (list Candidate) :=
  match minCatalystVersion w with
  | Some m =>
      if truthy_string m
      then array_filter (fun c => gte (catalystVersion c) m) candidates
      else Normal candidates
  | None => Normal candidates
  end.

(** A saga that returns [a], leaves the world alone and scans no
    candidates. *)
Definition quietly {A : Type} (m : Saga A) (s : SagaState) (a : A) : Prop :=
  exists es,
    m s = (Returned a, mkSagaState (world s) (effects s ++ es)) /\
    scanned es = false.

(** The same for a saga that ends with [o]. *)
Definition quietlyEnds {A : Type} (m : Saga A) (s : SagaState) (o : Outcome A)
    : Prop :=
  exists es,
    m s = (o, mkSagaState (world s) (effects s ++ es)) /\
    scanned es = false.

(** The chain and the parcel [pickCatalystRealm] hands to the algorithm. *)
Definition chainConfig (w : World) : AlgorithmChainConfig :=
  match pickRealmsAlgorithmConfig w with
  | None | Some [] => defaultChainConfig
  | Some (link :: links) => link :: links
  end.

Definition userParcel (w : World) : Z * Z :=
  parseParcelPosition
    (match qs_position w with
     | Some p => if truthy_string p then p else "0,0"
     | None => "0,0"
     end).

(** The realm the selection algorithm would give. *)
Definition algorithmPick (w : World) : Completion JsError Realm :=
  candidateToRealm
    (pickCandidate (chainConfig w) (allCatalystCandidates w) (userParcel w)).

End Vocabulary.

End Dao.

(** * Concrete collaborators

    A small in-memory transport and codec on which the connection can be
    run: the transport keeps its rooms as ids, settles establishment and
    sends with the outcomes it was built with, and the codec reads a packet
    from its first byte. *)

Module Scenario.
Import Js DaoTypes PositionCodec Lighthouse.

Record SimplePeer : Type := mkSimplePeer {
  sp_count : nat;
  sp_rooms : list RoomEntry;
  sp_establish : Completion JsError unit;
  sp_establishedCount : nat;
  sp_send : Completion JsError unit
}.

Definition sp_join (room : string) (p : SimplePeer) : SimplePeer :=
  mkSimplePeer (sp_count p) (sp_rooms p ++ [RoomId room]) (sp_establish p)
    (sp_establishedCount p) (sp_send p).

Definition notRoomId (room : string) (e : RoomEntry) : bool :=
  match e with
  | RoomId id => negb (String.eqb id room)
  | RoomObject _ => true
  end.

Definition sp_leave (room : string) (p : SimplePeer) : SimplePeer :=
  mkSimplePeer (sp_count p) (List.filter (notRoomId room) (sp_rooms p))
    (sp_establish p) (sp_establishedCount p) (sp_send p).

Definition sp_established (p : SimplePeer) : SimplePeer :=
  mkSimplePeer
    (match sp_establish p with
     | Normal _ => sp_establishedCount p
     | Throw _ => sp_count p
     end)
    (sp_rooms p) (sp_establish p) (sp_establishedCount p) (sp_send p).

#[export] Instance SimplePeer_CatalystPeer : CatalystPeer SimplePeer := {|
  newPeer _ _ _ := mkSimplePeer 0 [] (Normal tt) 3 (Normal tt);
  connectedCount := sp_count;
  currentRooms := sp_rooms;
  awaitConnectionEstablished _ p := (sp_establish p, sp_established p);
  joinRoom room p := (Normal tt, sp_join room p);
  leaveRoom room p := (Normal tt, sp_leave room p);
  sendMessage _ _ _ p := (sp_send p, p);
  setPeerPosition _ _ p := (Normal tt, p);
  dispose p := (Normal tt, p);
  setPreferedIslandId := None
|}.

Definition SyntaxError : JsError :=
  mkJsError "SyntaxError" (Some "Unexpected token") None.

Definition sampleTime : number := S754_finite false 4503599627370496 (-42).

(** Packets: the first byte names the kind, the rest is not looked at; an
    empty packet does not decode. *)
Definition sampleMessage (kind : N) : DataCase :=
  match kind with
  | 1%N => CHAT_DATA (mkChatData "m1" "hello")
  | 2%N => POSITION_DATA (createPositionData sample_position)
  | 3%N => SCENE_DATA (mkSceneData "scene-1" "ping")
  | 4%N => PROFILE_DATA (mkProfileData "0xabc" "7" DEPLOYED)
  | 5%N => VOICE_DATA (mkVoiceData [1%N; 2%N] 0)
  | 6%N => PROFILE_REQUEST_DATA (mkProfileRequestData "0xabc" "")
  | 7%N => PROFILE_RESPONSE_DATA (mkProfileResponseData "{}")
  | 8%N => PROFILE_RESPONSE_DATA (mkProfileResponseData "<html>")
  | _ => DATA_NOT_SET
  end.

#[export] Instance SimpleHelpers : Helpers string := {|
  serializeBinary _ := [];
  deserializeBinary bytes :=
    match bytes with
    | [] => Throw (mkJsError "Error" (Some "Assertion failed") None)
    | kind :: _ => Normal (mkCommsMessage sampleTime (sampleMessage kind))
    end;
  JSON_parse text :=
    if String.eqb text "{}" then Normal text else Throw SyntaxError;
  compareVersions _ _ := 1%Z
|}.

Definition sampleRealm : Realm :=
  mkRealm "v2" "peer.example.org" "dg" (Some "1.0.0").

(** A connection whose transport is [p], configured with an island-change
    handler that returns. *)
Definition connectionOn (p : SimplePeer) : Connection SimplePeer string :=
  mkConnection (Some p) [] "0xabc" sampleRealm "https://peer.example.org/comms"
    None (Some (Normal tt)) (fun _ => NOOP) sampleTime [].

Definition roomNotJoinedError : JsError :=
  mkJsError "Error"
    (Some "cannot send a message in a room not joined (scene-1)") None.

Definition layerIsFullError : JsError :=
  mkJsError "Error" (Some "Request failed")
    (Some (mkResponseJson (Some "layer_is_full"))).

Definition timeoutError : JsError :=
  mkJsError "Error" (Some "Awaiting connection timed out") None.

(** A transport with two live peer connections, one with none whose
    establishment the server refuses for lack of room, one with none whose
    establishment times out, and one whose sends are rejected because the
    room is not joined. *)
Definition livePeer : SimplePeer :=
  mkSimplePeer 2 [RoomId "old-island"; RoomObject "lobby"] (Normal tt) 2
    (Normal tt).

Definition fullPeer : SimplePeer :=
  mkSimplePeer 0 [] (Throw layerIsFullError) 0 (Normal tt).

Definition unreachablePeer : SimplePeer :=
  mkSimplePeer 0 [] (Throw timeoutError) 0 (Normal tt).

Definition racingPeer : SimplePeer :=
  mkSimplePeer 2 [] (Normal tt) 2 (Throw roomNotJoinedError).

Definition brokenPeer : SimplePeer :=
  mkSimplePeer 2 [] (Normal tt) 2 (Throw timeoutError).

(** ** Realm selection *)

Import Dao.

Definition candidateA : Candidate :=
  mkCandidate "a.example.org" "A" "1.0.0" 10 (Some 100) 20 [].

Definition candidateB : Candidate :=
  mkCandidate "b.example.org" "B" "0.5.0" 3 (Some 100) 35 [].

Definition realmOf (c : Candidate) : Realm :=
  mkRealm "v2" (domain c) (catalystName c) None.

(** [semver]'s [gte] on the versions of the scenarios.  A version is
    [major.minor.patch], three decimal numbers without a sign or a leading
    zero, and two versions are compared number by number; a text with fewer
    or more numbers, such as [1.0], is not a version, and [gte] throws
    [TypeError: Invalid Version] on it.  The [v] prefix and the pre-release
    and build tags that [semver] also reads do not occur in the scenarios,
    and are not read here. *)
Definition isDigit (c : ascii) : bool :=
  let n := Ascii.N_of_ascii c in (48 <=? n)%N && (n <=? 57)%N.

Fixpoint digitsValue (s : string) (acc : N) : option N :=
  match s with
  | EmptyString => Some acc
  | String c rest =>
      if isDigit c
      then digitsValue rest (acc * 10 + (Ascii.N_of_ascii c - 48))%N
      else None
  end.

Definition numericIdentifier (s : string) : option N :=
  match s with
  | EmptyString => None
  | String c rest =>
      if Ascii.eqb c "0"%char
      then match rest with
           | EmptyString => Some 0%N
           | String _ _ => None
           end
      else digitsValue s 0
  end.

Fixpoint splitDots (s current : string) : list string :=
  match s with
  | EmptyString => [current]
  | String c rest =>
      if Ascii.eqb c "."%char
      then current :: splitDots rest ""
      else splitDots rest (current ++ String c "")%string
  end.

Definition parseVersion (v : string) : option (list N) :=
  match splitDots v "" with
  | [major; minor; patch] =>
      match numericIdentifier major, numericIdentifier minor,
            numericIdentifier patch with
      | Some a, Some b, Some c => Some [a; b; c]
      | _, _, _ => None
      end
  | _ => None
  end.

Fixpoint numbersGte (a b : list N) : bool :=
  match a, b with
  | x :: a', y :: b' =>
      if N.ltb y x then true
      else if N.ltb x y then false
      else numbersGte a' b'
  | _, _ => true
  end.

Definition invalidVersion (v : string) : JsError :=
  TypeError ("Invalid Version: " ++ v).

Definition semverGte (a b : string) : Completion JsError bool :=
  match parseVersion a with
  | None => Throw (invalidVersion a)
  | Some va =>
      match parseVersion b with
      | None => Throw (invalidVersion b)
      | Some vb => Normal (numbersGte va vb)
      end
  end.

#[export] Instance SimpleCollaborators : Collaborators := {|
  resolveCommsConnectionString realmName candidates :=
    option_map realmOf
      (List.find (fun c => String.eqb (catalystName c) realmName) candidates);
  commsStatusUrl host := String.append host "/comms/status";
  ping _ := mkPingResult OK (Some "1.0.0");
  gte := semverGte;
  defaultChainConfig := ["LARGE_LATENCY"; "LOAD_BALANCING"];
  pickCandidate _ candidates _ := List.head candidates;
  parseParcelPosition _ := (0%Z, 0%Z);
  candidateToRealm picked :=
    match picked with
    | Some c => Normal (realmOf c)
    | None => Throw (TypeError "Cannot read properties of undefined")
    end;
  fetchCatalystRealms _ := Normal [candidateA; candidateB];
  fetchCatalystStatuses _ := Normal [];
  waitForExplorerIdentity := Returned tt;
  changeRealmObject _ := Returned tt
|}.

(** Catalysts that report their version with two numbers only. *)
Definition shortA : Candidate :=
  mkCandidate "a.example.org" "A" "1.0" 10 (Some 100) 20 [].

Definition shortB : Candidate :=
  mkCandidate "b.example.org" "B" "0.5" 3 (Some 100) 35 [].

Definition ShortVersionCollaborators : Collaborators := {|
  resolveCommsConnectionString :=
    resolveCommsConnectionString (Collaborators := SimpleCollaborators);
  commsStatusUrl := commsStatusUrl (Collaborators := SimpleCollaborators);
  ping := ping (Collaborators := SimpleCollaborators);
  gte := semverGte;
  defaultChainConfig := ["LARGE_LATENCY"; "LOAD_BALANCING"];
  pickCandidate := pickCandidate (Collaborators := SimpleCollaborators);
  parseParcelPosition := parseParcelPosition (Collaborators := SimpleCollaborators);
  candidateToRealm := candidateToRealm (Collaborators := SimpleCollaborators);
  fetchCatalystRealms _ := Normal [shortA; shortB];
  fetchCatalystStatuses _ := Normal [];
  waitForExplorerIdentity := Returned tt;
  changeRealmObject _ := Returned tt
|}.

Definition candidatesKey : string := "last_realm_candidates_mainnet".
Definition realmKey : string := "last_realm_mainnet".

(** The query string names realm B, realm A is the cached last realm, and
    the candidate list was never cached. *)
Definition queryWithoutCandidateCache : World :=
  mkWorld (Some "B") None "mainnet" [candidateA; candidateB] [] []
    {[ realmKey := realmOf candidateA ]} ∅
    None None None [] None false "".

(** The same with the candidate list cached. *)
Definition queryWithCaches : World :=
  mkWorld (Some "B") None "mainnet" [candidateA; candidateB] [] []
    {[ realmKey := realmOf candidateA ]}
    {[ candidatesKey := [candidateA; candidateB] ]}
    None None None [] None false "".

(** No realm in the query string, realm A cached. *)
Definition cachedRealmOnly : World :=
  mkWorld None None "mainnet" [candidateA; candidateB] [] []
    {[ realmKey := realmOf candidateA ]}
    {[ candidatesKey := [candidateA; candidateB] ]}
    None None None [] None false "".

(** Neither a realm in the query string nor a cached realm: only the
    candidates. *)
Definition candidatesOnly : World :=
  mkWorld None None "mainnet" [candidateA; candidateB] [] [] ∅
    {[ candidatesKey := [candidateA; candidateB] ]}
    None None None [] None false "".

(** A start with nothing known, a minimum version of 1.0.0 and no pin; and
    the same with a pinned catalyst. *)
Definition firstStart : World :=
  mkWorld None None "mainnet" [] [] [] ∅ ∅ (Some "1.0.0") None
    (Some "https://peer.example.org/lambdas/contracts/servers") [] None false
    "".

Definition pinnedStart : World :=
  mkWorld None None "mainnet" [] [] [] ∅ ∅ (Some "1.0.0") None
    (Some "https://peer.example.org/lambdas/contracts/servers") []
    (Some "a.example.org") false "".

(** A start with nothing known, a minimum version of 1.0 and no pin. *)
Definition shortVersionStart : World :=
  mkWorld None None "mainnet" [] [] [] ∅ ∅ (Some "1.0") None
    (Some "https://peer.example.org/lambdas/contracts/servers") [] None false
    "".

End Scenario.

(** * The typed sends of the connection *)

Module LighthouseSends.
Import Js DaoTypes PositionCodec Lighthouse.

(** [UserInformation], as far as the connection reads it. *)
Record UserInformation (Identity : Type) : Type := mkUserInformation {
  ui_userId : option string;
  ui_version : option number;
  ui_identity : option Identity
}.
Arguments mkUserInformation {Identity}.
Arguments ui_userId {Identity}.
Arguments ui_version {Identity}.
Arguments ui_identity {Identity}.

(** [EncodedFrame] of the voice chat codec. *)
Record EncodedFrame : Type := mkEncodedFrame {
  encoded : Uint8Array;
  frameIndex : Z
}.

(** Truthiness of a number: [0], [-0] and [NaN] are falsy. *)
Definition truthy_number (n : number) : bool :=
  match n with
  | S754_zero _ | S754_nan => false
  | S754_infinity _ | S754_finite _ _ _ => true
  end.

(** What the sends call and is not among the sources: [positionHash], the
    peer library's [PeerMessageTypes.reliable] and [unreliable],
    [JSON.stringify] on a profile, [getProfileType] and
    [Number.prototype.toString]. *)
Class SendHelpers (Identity Profile : Type) : Type := {
  positionHash : Position -> string;
  reliable : string -> PeerMessageType;
  unreliable : string -> PeerMessageType;
  JSON_stringify : Profile -> string;
  getProfileType : option Identity -> ProfileType;
  numberToString : number -> string
}.

Section Sends.
Context {P Profile Identity : Type}
  `{CatalystPeer P} `{Helpers Profile} `{SendHelpers Identity Profile}.

(** [getProtobufProfileType(profileType)]. *)
Definition getProtobufProfileType (profileType : ProfileType) : ProfileType :=
  match profileType with
  | LOCAL => LOCAL
  | DEPLOYED => DEPLOYED
  end.

(** [createProfileData(userInfo)]. *)
Definition createProfileData (userInfo : UserInformation Identity) : ProfileData :=
  mkProfileData
    (match ui_userId userInfo with
     | Some u => if truthy_string u then u else ""
     | None => ""
     end)
    (match ui_version userInfo with
     | Some v => if truthy_number v then numberToString v else ""
     | None => ""
     end)
    (getProtobufProfileType (getProfileType (ui_identity userInfo))).

(** [sendPositionData(p, topic, typeName)]. *)
Definition sendPositionData (p : Position) (topic typeName : string)
    : @M P Profile unit :=
  let positionData := createPositionData p in
  sendData topic (MPosition positionData) (unreliable typeName).

(** [sendProfileData(userInfo, topic, typeName)]. *)
Definition sendProfileData (userInfo : UserInformation Identity)
    (topic typeName : string) : @M P Profile unit :=
  let profileData := createProfileData userInfo in
  sendData topic (MProfile profileData) (unreliable typeName).

(** [sendProfileMessage(currentPosition, userInfo)]. *)
Definition sendProfileMessage (currentPosition : Position)
    (userInfo : UserInformation Identity) : @M P Profile unit :=
  let topic := positionHash currentPosition in
  sendProfileData userInfo topic "profile".

(** [sendProfileRequest(currentPosition, userId, version)]. *)
Definition sendProfileRequest (currentPosition : Position) (userId : string)
    (version : option number) : @M P Profile unit :=
  let topic := positionHash currentPosition in
  let profileRequestData :=
    mkProfileRequestData userId
      (match version with
       | Some v => numberToString v
       | None => ""
       end) in
  sendData topic (MProfileRequest profileRequestData)
    (ProfileRequestResponseType "request").

(** [sendProfileResponse(currentPosition, profile)]. *)
Definition sendProfileResponse (currentPosition : Position) (profile : Profile)
    : @M P Profile unit :=
  let topic := positionHash currentPosition in
  let profileResponseData := mkProfileResponseData (JSON_stringify profile) in
  sendData topic (MProfileResponse profileResponseData)
    (ProfileRequestResponseType "response").

(** [sendPositionMessage(p)]. *)
Definition sendPositionMessage (p : Position) : @M P Profile unit :=
  let topic := positionHash p in
  sendPositionData p topic "position".

(** [sendParcelUpdateMessage(currentPosition, p)]. *)
Definition sendParcelUpdateMessage (currentPosition p : Position)
    : @M P Profile unit :=
  let topic := positionHash currentPosition in
  sendPositionData p topic "parcelUpdate".

(** [sendVoiceMessage(currentPosition, frame)]. *)
Definition sendVoiceMessage (currentPosition : Position) (frame : EncodedFrame)
    : @M P Profile unit :=
  let topic := positionHash currentPosition in
  let voiceData := mkVoiceData (encoded frame) (frameIndex frame) in
  sendData topic (MVoice voiceData) VoiceType.

(** [sendChatMessage(currentPosition, messageId, text)]. *)
Definition sendChatMessage (currentPosition : Position) (messageId text : string)
    : @M P Profile unit :=
  let topic := positionHash currentPosition in
  let chatMessage := mkChatData messageId text in
  sendData topic (MChat chatMessage) (reliable "chat").

(** ** Vocabulary of the properties *)

(** A receiver decodes the bytes of [m] to [m]. *)
Definition readsBack (m : CommsMessage) : Prop :=
  deserializeBinary (serializeBinary m) = Normal m.

(** The rooms to join and the room ids to leave, for desired rooms [X] and
    current rooms [cur]. *)
Definition missingRooms (X : list string) (cur : list RoomEntry) : list string :=
  List.filter
    (fun room => negb (existsb (fun current => isSameRoom room current) cur)) X.

Definition staleRoomIds (X : list string) (cur : list RoomEntry) : list string :=
  omap (fun current =>
          if negb (existsb (fun room => isSameRoom room current) X)
          then match current with
               | RoomId id => Some id
               | RoomObject _ => None
               end
          else None) cur.

(** A method body that only adds to the trace and may replace the
    transport: the desired rooms, the realm, the url, the handlers and the
    clock stay. *)
Definition settled (c c' : Connection P Profile) : Prop :=
  rooms c' = rooms c /\ peerId c' = peerId c /\ realm c' = realm c /\
  lighthouseUrl c' = lighthouseUrl c /\
  preferedIslandId c' = preferedIslandId c /\ handlers c' = handlers c /\
  clock c' = clock c /\ exists evs, trace c' = trace c ++ evs.

Definition steady {A : Type} (m : @M P Profile A) : Prop :=
  forall c, settled c (snd (m c)).

End Sends.

End LighthouseSends.

(** * A codec that tags packets

    The in-memory codec of the scenarios, with a writer: a packet is the
    one byte that names its kind, and is read back as the sample message of
    that kind. *)

Module Loopback.
Import Js DaoTypes PositionCodec Lighthouse LighthouseSends Scenario.

Definition kindByte (d : DataCase) : N :=
  match d with
  | DATA_NOT_SET => 0
  | CHAT_DATA _ => 1
  | POSITION_DATA _ => 2
  | SCENE_DATA _ => 3
  | PROFILE_DATA _ => 4
  | VOICE_DATA _ => 5
  | PROFILE_REQUEST_DATA _ => 6
  | PROFILE_RESPONSE_DATA _ => 7
  end%N.

Definition TaggingHelpers : Helpers string := {|
  serializeBinary m := [kindByte (data m)];
  deserializeBinary := deserializeBinary (Helpers := SimpleHelpers);
  JSON_parse := JSON_parse (Helpers := SimpleHelpers);
  compareVersions := compareVersions (Helpers := SimpleHelpers)
|}.

(** Identities are wallet addresses; one without an address is a guest,
    whose profile is local. *)
Definition SimpleSendHelpers : SendHelpers (option string) string := {|
  positionHash p := if p7 p then "island-1" else "island-2";
  reliable name := mkPeerMessageType name (Some 10%Z) None false None;
  unreliable name := mkPeerMessageType name (Some 10%Z) None true (Some 0%Z);
  JSON_stringify profile := profile;
  getProfileType identity :=
    match identity with
    | Some (Some _) => DEPLOYED
    | _ => LOCAL
    end;
  numberToString n :=
    match n with
    | S754_finite false 7881299347898368 (-50) => "7"
    | S754_zero _ => "0"
    | _ => "NaN"
    end
|}.

Definition seven : number := S754_finite false 7881299347898368 (-50).

Definition sampleUser : UserInformation (option string) :=
  mkUserInformation (Some "0xabc") (Some seven) (Some (Some "0xabc")).

Definition sampleFrame : EncodedFrame := mkEncodedFrame [1%N; 2%N] 0.

End Loopback.

(** * Caching the candidates of [shared/dao] *)

Module DaoCache.
Import Js DaoTypes Dao.

Definition with_storedCandidates (m : gmap string (list Candidate))
    (w : World) : World :=
  mkWorld (qs_realm w) (qs_position w) (selectedNetwork w)
    (dao_candidates w) (dao_addedCandidates w) (incoming w) (storedRealms w) m
    (minCatalystVersion w) (pickRealmsAlgorithmConfig w)
    (catalystNodesEndpoint w) (addedServers w) (PIN_CATALYST w) (PREVIEW w)
    (rootURLPreviewMode w).

(** Modelled from the spec: [saveToPersistentStorage] and
    [getFromPersistentStorage] ([atomicHelpers/persistentStorage]) are not
    among the sources.  Candidates are "cached to persistent storage keyed
    by network id": a save writes or overwrites the entry of its key, which
    is what a later read of that key gives; the save is taken to resolve.

    [yield call(saveToPersistentStorage, key, value)] at the type of a
    candidate list. *)
Definition saveCandidates (key : string) (value : list Candidate) : Saga unit :=
  call (saveToPersistentStorage_ key)
    (fun s =>
       (Returned tt,
        mkSagaState
          (with_storedCandidates (<[key := value]> (storedCandidates (world s)))
             (world s))
          (effects s))).

(** [cacheCatalystCandidates(_action)]. *)
Definition cacheCatalystCandidates : Saga unit :=
  let* allCandidates := select getAllCatalystCandidates allCatalystCandidates in
  let* network := select getSelectedNetwork selectedNetwork in
  saveCandidates (getLastRealmCandidatesCacheKey network) allCandidates.

(** The first list with a candidate among the store's and the ones to
    come. *)
Definition firstCandidates (w : World) : option (list Candidate) :=
  List.find (fun l => match l with [] => false | _ :: _ => true end)
    (allCatalystCandidates w :: incoming w).

(** The realms pinged, in order. *)
Definition pings (es : list Effect) : list string :=
  omap (fun e => match e with Ping url => Some url | _ => None end) es.

(** Whether the session was taken down. *)
Definition takenDown (es : list Effect) : bool :=
  existsb (fun e => match e with
                    | ReportFatalErrorWithCatalystPayload _
                    | BringDownClientAndShowError => true
                    | _ => false
                    end) es.

End DaoCache.

(** * What a position becomes when sent *)

Module PositionDelivery.
Import Js PositionCodec.

(** [v], with the sign of a zero dropped. *)
Definition unsignedZero (v : number) : number :=
  match v with
  | S754_zero _ => zero
  | _ => v
  end.

Definition unsignedZeros (p : Position) : Position :=
  mkPosition (unsignedZero (p0 p)) (unsignedZero (p1 p)) (unsignedZero (p2 p))
    (unsignedZero (p3 p)) (unsignedZero (p4 p)) (unsignedZero (p5 p))
    (unsignedZero (p6 p)) (p7 p).

End PositionDelivery.

(** * The parcel scene manager ([shared/world/parcelSceneManager]) *)

Module SceneManager.
Import Js.

(** ** Values *)

(** [LoadableScene] and its entity; of the entity the manager reads the
    content and [metadata.scene.parcels], and carries the pointers along. *)
Record Entity : Type := mkEntity {
  content : list (string * string);
  pointers : list string;
  parcels : list string
}.

Record LoadableScene : Type := mkLoadableScene {
  ls_entity : Entity;
  baseUrl : string;
  ls_id : string;
  parentCid : option string
}.

(** A JavaScript [Map] with string keys: its entries in insertion order. *)
Definition JsMap (V : Type) : Type := list (string * V).

Fixpoint map_get {V : Type} (k : string) (m : JsMap V) : option V :=
  match m with
  | [] => None
  | (k', v) :: m' => if String.eqb k' k then Some v else map_get k m'
  end.

Definition map_has {V : Type} (k : string) (m : JsMap V) : bool :=
  match map_get k m with
  | Some _ => true
  | None => false
  end.

Fixpoint map_set {V : Type} (k : string) (v : V) (m : JsMap V) : JsMap V :=
  match m with
  | [] => [(k, v)]
  | (k', v') :: m' =>
      if String.eqb k' k then (k', v) :: m' else (k', v') :: map_set k v m'
  end.

Definition map_delete {V : Type} (k : string) (m : JsMap V) : JsMap V :=
  List.filter (fun entry => negb (String.eqb (fst entry) k)) m.

(** A [SceneWorker] object, as far as the manager reads and writes it: the
    scene of its kernel scene, its transport, the granted permissions and
    the throttling flag of its rpc context, and whether it was disposed
    of. *)
Record SceneWorker : Type := mkSceneWorker {
  loadableScene : LoadableScene;
  transport : option string;
  permissionGranted : list string;
  useFPSThrottling : bool;
  disposed : bool
}.

(** What the manager uses and is not among the sources: the permissions and
    the throttling a [new SceneWorker] starts with, and
    [defaultParcelPermissions]. *)
Class SceneWorkers : Type := {
  initialPermissions : LoadableScene -> list string;
  initialFPSThrottling : LoadableScene -> bool;
  defaultParcelPermissions : list string
}.

(** What the manager does to the outside, in order; workers are named by
    their reference. *)
Inductive Event : Type :=
| WorkerCreated (worker : nat) (scene : LoadableScene) (transport : option string)
| WorkerDisposed (worker : nat)
| ScenesChanged
| SceneStatusNotified (sceneId : string) (status : string)
| LoadParcelScenesNotified (scenes : list LoadableScene)
| SceneEventSent (worker : nat) (eventType payload : string).

(** The module's state: every [SceneWorker] object created so far (a
    reference is its index), [loadedSceneWorkers],
    [parcelSceneLoadingState.desiredParcelScenes], whether
    [parcelSceneLoadingState.lifecycleManager] was set, the value of the
    [parcel-denylist] feature flag in the store, and the events so far. *)
Record State : Type := mkState {
  workers : list SceneWorker;
  loadedSceneWorkers : JsMap nat;
  desiredParcelScenes : JsMap LoadableScene;
  lifecycleManager : bool;
  denylist : option string;
  events : list Event
}.

(** ** Functions as state transformers *)

Definition Op (A : Type) : Type := State -> Completion JsError A * State.

Definition ret {A : Type} (a : A) : Op A := fun st => (Normal a, st).

Definition bind {A B : Type} (m : Op A) (k : A -> Op B) : Op B :=
  fun st =>
    match m st with
    | (Normal a, st') => k a st'
    | (Throw e, st') => (Throw e, st')
    end.

Definition throw {A : Type} (e : JsError) : Op A := fun st => (Throw e, st).

Notation "'let*' x ':=' m 'in' k" := (bind m (fun x => k))
  (at level 10, x name, m at level 100, k at level 200).

(** [for (const x of l) { body x }]. *)
Fixpoint forEach {A : Type} (body : A -> Op unit) (l : list A) : Op unit :=
  match l with
  | [] => ret tt
  | a :: l' => let* _ := body a in forEach body l'
  end.

Definition getState : Op State := fun st => (Normal st, st).

Definition emit (ev : Event) : Op unit :=
  fun st =>
    (Normal tt,
     mkState (workers st) (loadedSceneWorkers st) (desiredParcelScenes st)
       (lifecycleManager st) (denylist st) (events st ++ [ev])).

Definition with_workers (ws : list SceneWorker) (st : State) : State :=
  mkState ws (loadedSceneWorkers st) (desiredParcelScenes st)
    (lifecycleManager st) (denylist st) (events st).

Definition with_loaded (m : JsMap nat) (st : State) : State :=
  mkState (workers st) m (desiredParcelScenes st) (lifecycleManager st)
    (denylist st) (events st).

Definition with_desired (m : JsMap LoadableScene) (st : State) : State :=
  mkState (workers st) (loadedSceneWorkers st) m (lifecycleManager st)
    (denylist st) (events st).

Definition update (f : State -> State) : Op unit :=
  fun st => (Normal tt, f st).

(** ** The deny list *)

(** A white space or line terminator, among the characters below 256. *)
Definition isSpace (c : ascii) : bool :=
  let n := nat_of_ascii c in
  Nat.eqb n 9 || Nat.eqb n 10 || Nat.eqb n 11 || Nat.eqb n 12 ||
  Nat.eqb n 13 || Nat.eqb n 32 || Nat.eqb n 160.

(** [s.split(/[\s\r\n]+/gm)]: [s] cut at every run of spaces; [current] is
    the piece being read and [afterSpace] tells whether the last character
    was a space. *)
Fixpoint splitSpaces (s : string) (current : string) (afterSpace : bool)
    : list string :=
  match s with
  | EmptyString => [current]
  | String c rest =>
      if isSpace c
      then if afterSpace then splitSpaces rest "" true
           else current :: splitSpaces rest "" true
      else splitSpaces rest (current ++ String c "") false
  end.

Fixpoint trimStart (s : string) : string :=
  match s with
  | EmptyString => ""
  | String c rest => if isSpace c then trimStart rest else s
  end.

Fixpoint trimEnd (s : string) : string :=
  match s with
  | EmptyString => ""
  | String c rest =>
      match trimEnd rest with
      | EmptyString => if isSpace c then "" else String c ""
      | rest' => String c rest'
      end
  end.

(** [s.trim()]. *)
Definition trim (s : string) : string := trimEnd (trimStart s).

Section Manager.
Context `{SceneWorkers}.

(** [isParcelDenyListed(coordinates)]. *)
Definition isParcelDenyListed (coordinates : list string) : Op bool :=
  let* st := getState in
  let setOfCoordinates := coordinates in
  match denylist st with
  | Some denylist =>
      if truthy_string denylist
      then ret (existsb
                  (fun token =>
                     existsb (String.eqb (trim token)) setOfCoordinates)
                  (splitSpaces denylist "" false))
      else ret false
  | None => ret false
  end.

(** [generateBannedILand(entity)]. *)
Definition generateBannedILand (entity : LoadableScene) : LoadableScene :=
  mkLoadableScene
    (mkEntity [] (pointers (ls_entity entity)) (parcels (ls_entity entity)))
    (baseUrl entity) (ls_id entity) (parentCid entity).

(** [getSceneWorkerBySceneID(sceneId)]. *)
Definition getSceneWorkerBySceneID (sceneId : string) : Op (option nat) :=
  fun st => (Normal (map_get sceneId (loadedSceneWorkers st)), st).

(** [worker.dispose()], which is taken to return. *)
Definition dispose (w : SceneWorker) : SceneWorker :=
  mkSceneWorker (loadableScene w) (transport w) (permissionGranted w)
    (useFPSThrottling w) true.

Definition undefinedWorker : JsError :=
  TypeError "Cannot read properties of undefined".

(** [forceStopSceneWorker(worker)]. *)
Definition forceStopSceneWorker (worker : nat) : Op unit :=
  let* st := getState in
  match workers st !! worker with
  | None => throw undefinedWorker
  | Some w =>
      let sceneId := ls_id (loadableScene w) in
      let* _ := update (fun st => with_workers (<[worker := dispose w]> (workers st)) st) in
      let* _ := emit (WorkerDisposed worker) in
      let* _ := update (fun st => with_loaded (map_delete sceneId (loadedSceneWorkers st)) st) in
      emit ScenesChanged
  end.

(** [new SceneWorker(kernelScene, transport)]. *)
Definition newSceneWorker (kernelScene : LoadableScene)
    (transport : option string) : Op nat :=
  let* st := getState in
  let worker := length (workers st) in
  let* _ :=
    update (fun st =>
      with_workers
        (workers st ++
         [mkSceneWorker kernelScene transport (initialPermissions kernelScene)
            (initialFPSThrottling kernelScene) false]) st) in
  let* _ := emit (WorkerCreated worker kernelScene transport) in
  ret worker.

(** [setNewParcelScene(sceneId, worker)]. *)
Definition setNewParcelScene (sceneId : string) (worker : nat) : Op unit :=
  let* parcelSceneWorker := getSceneWorkerBySceneID sceneId in
  match parcelSceneWorker with
  | Some loaded =>
      if Nat.eqb worker loaded then ret tt
      else
        let* _ := forceStopSceneWorker loaded in
        update (fun st =>
          with_loaded (map_set sceneId worker (loadedSceneWorkers st)) st)
  | None =>
      update (fun st =>
        with_loaded (map_set sceneId worker (loadedSceneWorkers st)) st)
  end.

(** [loadParcelScene(kernelScene, transport)]. *)
Definition loadParcelScene (kernelScene : LoadableScene)
    (transport : option string) : Op nat :=
  let sceneId := ls_id kernelScene in
  let* parcelSceneWorker := getSceneWorkerBySceneID sceneId in
  match parcelSceneWorker with
  | Some parcelSceneWorker => ret parcelSceneWorker
  | None =>
      let* parcelSceneWorker := newSceneWorker kernelScene transport in
      let* _ := setNewParcelScene sceneId parcelSceneWorker in
      ret parcelSceneWorker
  end.

(** [getDesiredParcelScenes()]: a copy of the map. *)
Definition getDesiredParcelScenes : Op (JsMap LoadableScene) :=
  fun st => (Normal (desiredParcelScenes st), st).

(** [hasDesiredParcelScenes(sceneId)]. *)
Definition hasDesiredParcelScenes (sceneId : string) : Op bool :=
  fun st => (Normal (map_has sceneId (desiredParcelScenes st)), st).

Definition nullLifecycleManager : JsError :=
  TypeError "Cannot read properties of null".

(** [unloadParcelSceneById(sceneId)]. *)
Definition unloadParcelSceneById (sceneId : string) : Op unit :=
  let* worker := getSceneWorkerBySceneID sceneId in
  match worker with
  | None => ret tt
  | Some worker =>
      let* st := getState in
      let* _ :=
        if lifecycleManager st
        then emit (SceneStatusNotified sceneId "unloaded")
        else throw nullLifecycleManager in
      forceStopSceneWorker worker
  end.

(** [s.add(x)] on a [Set]. *)
Definition set_add (x : string) (s : list string) : list string :=
  if existsb (String.eqb x) s then s else s ++ [x].

(** The two writes to the worker's rpc context. *)
Definition grant (permissions : list string) (w : SceneWorker) : SceneWorker :=
  mkSceneWorker (loadableScene w) (transport w)
    (fold_left (fun granted p => set_add p granted) permissions
       (permissionGranted w))
    (useFPSThrottling w) (disposed w).

Definition throttle (w : SceneWorker) : SceneWorker :=
  mkSceneWorker (loadableScene w) (transport w) (permissionGranted w) true
    (disposed w).

Definition onWorker (worker : nat) (f : SceneWorker -> SceneWorker) : Op unit :=
  let* st := getState in
  match workers st !! worker with
  | None => throw undefinedWorker
  | Some w => update (fun st => with_workers (<[worker := f w]> (workers st)) st)
  end.

(** [loadParcelSceneByIdIfMissing(sceneId, entity)]. *)
Definition loadParcelSceneByIdIfMissing (sceneId : string)
    (entity : LoadableScene) : Op unit :=
  let* existing := getSceneWorkerBySceneID sceneId in
  match existing with
  | Some _ => ret tt
  | None =>
      let* denyListed := isParcelDenyListed (parcels (ls_entity entity)) in
      let usedEntity := if denyListed then generateBannedILand entity else entity in
      let kernelScene := usedEntity in
      let* worker := loadParcelScene kernelScene None in
      let* _ := onWorker worker (grant defaultParcelPermissions) in
      let* _ := onWorker worker throttle in
      let* _ := setNewParcelScene sceneId worker in
      emit (LoadParcelScenesNotified [entity])
  end.

(** [setDesiredParcelScenes(desiredParcelScenes)]. *)
Definition setDesiredParcelScenes (desired : JsMap LoadableScene) : Op unit :=
  let* st := getState in
  let previousSet := desiredParcelScenes st in
  let* _ := update (with_desired desired) in
  let newSet := desired in
  let* _ :=
    forEach
      (fun old : string * LoadableScene =>
         let oldSceneId := fst old in
         let* st := getState in
         if negb (map_has oldSceneId newSet)
            && map_has oldSceneId (loadedSceneWorkers st)
         then unloadParcelSceneById oldSceneId
         else ret tt)
      previousSet in
  forEach
    (fun new : string * LoadableScene =>
       let newSceneId := fst new in
       let entity := snd new in
       let* st := getState in
       if negb (map_has newSceneId (loadedSceneWorkers st))
       then loadParcelSceneByIdIfMissing newSceneId entity
       else ret tt)
    newSet.

(** [reloadScene(sceneId)]. *)
Definition reloadScene (sceneId : string) : Op unit :=
  let* _ := unloadParcelSceneById sceneId in
  let* desired := getDesiredParcelScenes in
  setDesiredParcelScenes desired.

(** [removeDesiredParcel(sceneId)]. *)
Definition removeDesiredParcel (sceneId : string) : Op unit :=
  let* desiredScenes := getDesiredParcelScenes in
  let* desired := hasDesiredParcelScenes sceneId in
  if negb desired then ret tt
  else
    let desiredScenes := map_delete sceneId desiredScenes in
    setDesiredParcelScenes desiredScenes.

(** [addDesiredParcel(entity)]. *)
Definition addDesiredParcel (entity : LoadableScene) : Op unit :=
  let* desiredScenes := getDesiredParcelScenes in
  let* desired := hasDesiredParcelScenes (ls_id entity) in
  if desired then ret tt
  else
    let desiredScenes := map_set (ls_id entity) entity desiredScenes in
    setDesiredParcelScenes desiredScenes.

(** [allScenesEvent(data)]. *)
Definition allScenesEvent (eventType payload : string) : Op unit :=
  let* st := getState in
  forEach (fun entry : string * nat => emit (SceneEventSent (snd entry) eventType payload))
    (loadedSceneWorkers st).

End Manager.

(** The state of the module when it is loaded. *)
Definition initial (flag : option string) : State :=
  mkState [] [] [] false flag [].

(** [enableParcelSceneLoading] sets the lifecycle manager. *)
Definition enabled (st : State) : State :=
  mkState (workers st) (loadedSceneWorkers st) (desiredParcelScenes st) true
    (denylist st) (events st).

(** What was added to the events between [st] and [st']. *)
Definition newEvents (st st' : State) : list Event :=
  drop (length (events st)) (events st').

(** ** Vocabulary of the properties *)

(** The registry holds exactly the workers that were not disposed of, each
    under the id of its scene; and every desired scene is kept under its
    own id. *)
Definition registered (st : State) : Prop :=
  forall k r,
    map_get k (loadedSceneWorkers st) = Some r ->
    exists w,
      workers st !! r = Some w /\ ls_id (loadableScene w) = k /\
      disposed w = false.

Definition noStray (st : State) : Prop :=
  forall r w,
    workers st !! r = Some w -> disposed w = false ->
    map_get (ls_id (loadableScene w)) (loadedSceneWorkers st) = Some r.

Definition keyed (m : JsMap LoadableScene) : Prop :=
  forall k e, In (k, e) m -> ls_id e = k.

Definition consistent (st : State) : Prop :=
  registered st /\ noStray st /\ keyed (desiredParcelScenes st).

(** [isParcelDenyListed] as a function of the feature flag. *)
Definition denyListed (flag : option string) (coordinates : list string)
    : bool :=
  match flag with
  | Some denylist =>
      truthy_string denylist
      && existsb
           (fun token => existsb (String.eqb (trim token)) coordinates)
           (splitSpaces denylist "" false)
  | None => false
  end.

(** The entity a parcel scene is run with, and its worker as
    [loadParcelSceneByIdIfMissing] leaves it. *)
Definition usedEntity (flag : option string) (entity : LoadableScene)
    : LoadableScene :=
  if denyListed flag (parcels (ls_entity entity))
  then generateBannedILand entity else entity.

Definition parcelWorker `{SceneWorkers} (flag : option string)
    (entity : LoadableScene) : SceneWorker :=
  mkSceneWorker (usedEntity flag entity) None
    (fold_left (fun granted p => set_add p granted) defaultParcelPermissions
       (initialPermissions (usedEntity flag entity)))
    true false.

(** Every desired scene is loaded. *)
Definition allLoaded (st : State) : Prop :=
  forall k e,
    In (k, e) (desiredParcelScenes st) ->
    map_has k (loadedSceneWorkers st) = true.

(** A deny list written as tokens separated by runs of spaces. *)
Fixpoint joinTokens (first : string) (rest : list (string * string)) : string :=
  match rest with
  | [] => first
  | (separator, token) :: rest' =>
      (first ++ separator ++ joinTokens token rest')%string
  end.

Definition spaces (s : string) : Prop :=
  s <> "" /\ Forall (fun c => isSpace c = true) (list_ascii_of_string s).

Definition spaceless (s : string) : Prop :=
  s <> "" /\ Forall (fun c => isSpace c = false) (list_ascii_of_string s).

End SceneManager.

(** * More concrete collaborators *)

Module MoreScenario.
Import Js DaoTypes PositionCodec Lighthouse LighthouseSends Dao Scenario.

(** A transport with no peer connection yet, whose establishment
    succeeds. *)
Definition idlePeer : SimplePeer := mkSimplePeer 0 [] (Normal tt) 3 (Normal tt).

(** A transport that refuses to be disposed of. *)
Record StubbornPeer : Type := mkStubbornPeer { inner : SimplePeer }.

#[export] Instance StubbornPeer_CatalystPeer : CatalystPeer StubbornPeer := {|
  newPeer url id island := mkStubbornPeer (newPeer url id island);
  connectedCount p := sp_count (inner p);
  currentRooms p := sp_rooms (inner p);
  awaitConnectionEstablished _ p :=
    (sp_establish (inner p), mkStubbornPeer (sp_established (inner p)));
  joinRoom room p := (Normal tt, mkStubbornPeer (sp_join room (inner p)));
  leaveRoom room p := (Normal tt, mkStubbornPeer (sp_leave room (inner p)));
  sendMessage _ _ _ p := (sp_send (inner p), p);
  setPeerPosition _ _ p := (Normal tt, p);
  dispose p := (Throw timeoutError, p);
  setPreferedIslandId := None
|}.

Definition stubbornConnection : Connection StubbornPeer string :=
  mkConnection (Some (mkStubbornPeer livePeer)) [] "0xabc" sampleRealm
    "https://peer.example.org/comms" None (Some (Normal tt)) (fun _ => NOOP)
    sampleTime [].

Definition otherRealm : Realm :=
  mkRealm "v2" "peer-2.example.org" "hades" (Some "1.0.0").

(** A connection configured without an island-change handler, and one
    whose island-change handler throws. *)
Definition plainConnection : Connection SimplePeer string :=
  mkConnection (Some livePeer) [] "0xabc" sampleRealm
    "https://peer.example.org/comms" None None (fun _ => NOOP) sampleTime [].

Definition islandError : JsError :=
  mkJsError "Error" (Some "island listener failed") None.

Definition refusingConnection : Connection SimplePeer string :=
  mkConnection (Some livePeer) [] "0xabc" sampleRealm
    "https://peer.example.org/comms" None (Some (Throw islandError))
    (fun _ => NOOP) sampleTime [].

(** A connection whose handlers all throw. *)
Definition throwingConnection : Connection SimplePeer string :=
  mkConnection (Some livePeer) [] "0xabc" sampleRealm
    "https://peer.example.org/comms" None (Some (Normal tt))
    (fun _ _ => Throw timeoutError) sampleTime [].

(** ** Realm selection *)

(** The query string names a realm that is not among the candidates. *)
Definition unknownQueryRealm : World :=
  mkWorld (Some "Z") None "mainnet" [candidateA; candidateB] [] []
    {[ realmKey := realmOf candidateA ]}
    {[ candidatesKey := [candidateA; candidateB] ]}
    None None None [] None false "".

Definition previewWorld : World :=
  mkWorld None None "mainnet" [] [] [] ∅ ∅ None None None [] None true
    "http://localhost:8000".

(** The candidates arrive with the second of the actions to come. *)
Definition lateCandidates : World :=
  mkWorld None None "mainnet" [] [] [[]; [candidateB]; [candidateA]] ∅ ∅
    None None None [] None false "".

Definition offlineError : JsError :=
  mkJsError "TypeError" (Some "Failed to fetch") None.

(** Collaborators whose catalyst fetch fails. *)
Definition OfflineCollaborators : Collaborators := {|
  resolveCommsConnectionString :=
    resolveCommsConnectionString (Collaborators := SimpleCollaborators);
  commsStatusUrl := commsStatusUrl (Collaborators := SimpleCollaborators);
  ping := ping (Collaborators := SimpleCollaborators);
  gte := semverGte;
  defaultChainConfig := ["LARGE_LATENCY"; "LOAD_BALANCING"];
  pickCandidate := pickCandidate (Collaborators := SimpleCollaborators);
  parseParcelPosition := parseParcelPosition (Collaborators := SimpleCollaborators);
  candidateToRealm := candidateToRealm (Collaborators := SimpleCollaborators);
  fetchCatalystRealms _ := Throw offlineError;
  fetchCatalystStatuses _ := Normal [];
  waitForExplorerIdentity := Returned tt;
  changeRealmObject _ := Returned tt
|}.

(** The query string names realm B, whose catalyst answers the ping with
    version 1.0.0: below a minimum of 2.0.0, and not comparable with a
    minimum of 1.0. *)
Definition strictQuery : World :=
  mkWorld (Some "B") None "mainnet" [candidateA; candidateB] [] []
    {[ realmKey := realmOf candidateA ]}
    {[ candidatesKey := [candidateA; candidateB] ]}
    (Some "2.0.0") None None [] None false "".

Definition shortMinimumQuery : World :=
  mkWorld (Some "B") None "mainnet" [candidateA; candidateB] [] []
    {[ realmKey := realmOf candidateA ]}
    {[ candidatesKey := [candidateA; candidateB] ]}
    (Some "1.0") None None [] None false "".

Definition candidateC : Candidate :=
  mkCandidate "c.example.org" "C" "1.2.0" 7 (Some 100) 50 [].

(** The collaborators of the scenarios with other answers of the two
    fetches and another end of [changeRealmObject]. *)
Definition collaboratorsWith
    (realms statuses : Completion JsError (list Candidate))
    (change : Outcome unit) : Collaborators := {|
  resolveCommsConnectionString :=
    resolveCommsConnectionString (Collaborators := SimpleCollaborators);
  commsStatusUrl := commsStatusUrl (Collaborators := SimpleCollaborators);
  ping := ping (Collaborators := SimpleCollaborators);
  gte := semverGte;
  defaultChainConfig := ["LARGE_LATENCY"; "LOAD_BALANCING"];
  pickCandidate := pickCandidate (Collaborators := SimpleCollaborators);
  parseParcelPosition := parseParcelPosition (Collaborators := SimpleCollaborators);
  candidateToRealm := candidateToRealm (Collaborators := SimpleCollaborators);
  fetchCatalystRealms _ := realms;
  fetchCatalystStatuses _ := statuses;
  waitForExplorerIdentity := Returned tt;
  changeRealmObject _ := change
|}.

Definition refusedError : JsError :=
  mkJsError "Error" (Some "Could not change the realm") None.

(** The change of realm is rejected. *)
Definition RefusedCollaborators : Collaborators :=
  collaboratorsWith (Normal [candidateA; candidateB]) (Normal [])
    (Threw refusedError).

(** The status fetch answers with the two catalysts it knows, whatever it
    is asked for. *)
Definition EagerStatusCollaborators : Collaborators :=
  collaboratorsWith (Normal [candidateA; candidateB])
    (Normal [candidateB; candidateC]) (Returned tt).

(** The status fetch fails. *)
Definition StatusOfflineCollaborators : Collaborators :=
  collaboratorsWith (Normal [candidateA; candidateB]) (Throw offlineError)
    (Returned tt).

End MoreScenario.

(** * Sample scenes *)

Module SceneScenario.
Import Js SceneManager.

#[export] Instance SimpleWorkers : SceneWorkers := {|
  initialPermissions _ := [];
  initialFPSThrottling _ := false;
  defaultParcelPermissions := ["USE_WEB3_API"; "OPEN_EXTERNAL_LINK"]
|}.

Definition plaza : LoadableScene :=
  mkLoadableScene
    (mkEntity [("game.js", "bafy-plaza")] ["0,0"; "0,1"] ["0,0"; "0,1"])
    "https://peer.example.org/content/contents/" "scene-plaza" None.

Definition tower : LoadableScene :=
  mkLoadableScene
    (mkEntity [("game.js", "bafy-tower")] ["10,20"] ["10,20"])
    "https://peer.example.org/content/contents/" "scene-tower" None.

(** Parcel loading enabled, with two parcels on the deny list. *)
Definition started : State := enabled (initial (Some "10,20 30,40")).

(** The plaza is desired and loaded. *)
Definition withPlaza : State :=
  Eval vm_compute in snd (addDesiredParcel plaza started).

(** A scene loaded before parcel loading was enabled. *)
Definition early : State :=
  Eval vm_compute in snd (loadParcelScene tower None (initial None)).

(** A second worker made for the plaza, not registered yet. *)
Definition withSpareWorker : State :=
  Eval vm_compute in snd (newSceneWorker plaza None withPlaza).

End SceneScenario.

(** * Properties *)

Module JsFacts.
Import Js.

Lemma strict_eq_refl (a : number) : isFinite a = true -> strict_eq a a = true.
Proof.
  destruct a as [s | s | | s m e]; simpl; try discriminate; intros _.
  - reflexivity.
  - unfold strict_eq, SFeqb, SFcompare.
    rewrite Z.compare_refl.
    assert (Hm : Pos.compare_cont Eq m m = Eq) by apply Pos.compare_refl.
    rewrite Hm. destruct s; reflexivity.
Qed.

(** A number that is [=== 0.0] is one of the two zeros. *)
Lemma strict_eq_zero (a : number) :
  strict_eq a zero = true -> exists s, a = S754_zero s.
Proof.
  destruct a as [s | s | | s m e]; simpl.
  - intros _. now exists s.
  - destruct s; discriminate.
  - discriminate.
  - destruct s; discriminate.
Qed.

End JsFacts.

Module PositionCodecFacts.
Import Js JsFacts PositionCodec.

(** A slot written by a proto3 setter and read back through the getter is
    [===] to the value that was set. *)
Lemma float_slot_roundtrip (v : number) :
  isFinite v = true -> strict_eq (floatWithDefault (proto3Float v)) v = true.
Proof.
  intros Hv. unfold proto3Float, strict_neq.
  destruct (SFeqb v zero) eqn:E; simpl.
  - destruct (strict_eq_zero v E) as [s ->]. reflexivity.
  - now apply strict_eq_refl.
Qed.

Lemma bool_slot_roundtrip (b : bool) :
  booleanWithDefault (proto3Boolean b) = b.
Proof. now destruct b. Qed.

(** Writing a slot and reading the field back restores the slot. *)
Lemma proto3Float_idem (v : number) :
  proto3Float (floatWithDefault (proto3Float v)) = proto3Float v.
Proof.
  unfold proto3Float. destruct (strict_neq v zero) eqn:E; simpl.
  - now rewrite E.
  - reflexivity.
Qed.

(** One field at a time: reading back what the writer emitted for a field
    has the effect of the field's setter, on a message whose slot for that
    field is still empty. *)
Ltac read_back x acc :=
  unfold writeDoubleField, writeBoolField, floatWithDefault,
    booleanWithDefault, proto3Float, proto3Boolean;
  destruct acc; simpl in *; subst;
  let E := fresh "E" in
  first [ destruct (strict_neq x zero) eqn:E | destruct x ];
  cbv beta iota; try rewrite E;
  try change (strict_neq zero zero) with false;
  cbv - [strict_neq zero]; try rewrite E; reflexivity.

Lemma read_positionX x acc :
  positionX acc = None ->
  fold_left readField (writeDoubleField 3 (floatWithDefault (proto3Float x))) acc
  = setPositionX x acc.
Proof. intros H. read_back x acc. Qed.

Lemma read_positionY x acc :
  positionY acc = None ->
  fold_left readField (writeDoubleField 4 (floatWithDefault (proto3Float x))) acc
  = setPositionY x acc.
Proof. intros H. read_back x acc. Qed.

Lemma read_positionZ x acc :
  positionZ acc = None ->
  fold_left readField (writeDoubleField 5 (floatWithDefault (proto3Float x))) acc
  = setPositionZ x acc.
Proof. intros H. read_back x acc. Qed.

Lemma read_rotationX x acc :
  rotationX acc = None ->
  fold_left readField (writeDoubleField 6 (floatWithDefault (proto3Float x))) acc
  = setRotationX x acc.
Proof. intros H. read_back x acc. Qed.

Lemma read_rotationY x acc :
  rotationY acc = None ->
  fold_left readField (writeDoubleField 7 (floatWithDefault (proto3Float x))) acc
  = setRotationY x acc.
Proof. intros H. read_back x acc. Qed.

Lemma read_rotationZ x acc :
  rotationZ acc = None ->
  fold_left readField (writeDoubleField 8 (floatWithDefault (proto3Float x))) acc
  = setRotationZ x acc.
Proof. intros H. read_back x acc. Qed.

Lemma read_rotationW x acc :
  rotationW acc = None ->
  fold_left readField (writeDoubleField 9 (floatWithDefault (proto3Float x))) acc
  = setRotationW x acc.
Proof. intros H. read_back x acc. Qed.

Lemma read_immediate b acc :
  immediate acc = None ->
  fold_left readField
    (writeBoolField 10 (booleanWithDefault (proto3Boolean b))) acc
  = setImmediate b acc.
Proof. intros H. read_back b acc. Qed.

(** The receiver rebuilds the very message the sender serialized. *)
Lemma wire_roundtrip (p : Position) :
  deserializeBinary (serializeBinary (createPositionData p))
  = createPositionData p.
Proof.
  destruct p as [x y z rx ry rz rw im].
  unfold deserializeBinary, serializeBinary, createPositionData.
  cbn [p0 p1 p2 p3 p4 p5 p6 p7].
  unfold getPositionX, getPositionY, getPositionZ, getRotationX, getRotationY,
    getRotationZ, getRotationW, getImmediate.
  cbn [positionX positionY positionZ rotationX rotationY rotationZ rotationW
       immediate setPositionX setPositionY setPositionZ setRotationX
       setRotationY setRotationZ setRotationW setImmediate newPositionData].
  rewrite !fold_left_app.
  rewrite read_positionX by reflexivity.
  rewrite read_positionY by reflexivity.
  rewrite read_positionZ by reflexivity.
  rewrite read_rotationX by reflexivity.
  rewrite read_rotationY by reflexivity.
  rewrite read_rotationZ by reflexivity.
  rewrite read_rotationW by reflexivity.
  rewrite read_immediate by reflexivity.
  reflexivity.
Qed.

(** C3. For every position whose seven numeric components are finite,
    decoding the encoded position gives a position equal to it, component by
    component under [===], the "immediate" flag included. *)
Theorem position_roundtrip (p : Position) :
  finite_components p = true ->
  Position_eqb (decode (encode p)) p = true.
Proof.
  intros Hfin. unfold decode, encode. rewrite wire_roundtrip.
  destruct p as [x y z rx ry rz rw im].
  unfold finite_components in Hfin; simpl in Hfin.
  repeat (apply andb_prop in Hfin; destruct Hfin as [Hfin ?]).
  unfold Position_eqb, mapToPositionMessage, createPositionData; simpl.
  unfold getPositionX, getPositionY, getPositionZ, getRotationX, getRotationY,
    getRotationZ, getRotationW, getImmediate; simpl.
  rewrite !float_slot_roundtrip by assumption.
  rewrite bool_slot_roundtrip. simpl. now destruct im.
Qed.

(** The round trip of the sample position. *)
Lemma position_roundtrip_witness :
  finite_components sample_position = true /\
  Position_eqb (decode (encode sample_position)) sample_position = true.
Proof.
  split; [reflexivity | apply (position_roundtrip sample_position); reflexivity].
Defined.

(** The finiteness premise is needed for [NaN] only, which is not [===] to
    itself; and a negative zero comes back as the default [+0], which [===]
    does not tell apart. *)
Example nan_does_not_roundtrip :
  let p := mkPosition S754_nan zero zero zero zero zero zero false in
  Position_eqb (decode (encode p)) p = false.
Proof. reflexivity. Qed.

Example negative_zero_comes_back_positive :
  p4 (decode (encode sample_position)) = S754_zero false /\
  p4 sample_position = S754_zero true.
Proof. split; reflexivity. Qed.

End PositionCodecFacts.

Module LighthouseFacts.
Import Js DaoTypes PositionCodec Lighthouse.

Section WithCollaborators.
Context {P Profile : Type} `{CatalystPeer P} `{Helpers Profile}.

Local Abbreviation keeps := (@Lighthouse.keeps P Profile _).

(** ** Sending *)

(** C4. When the transport rejects the send of the message [sendData]
    built, that is [sendMessage] on the topic, the bytes of that message and
    the type, [sendData] resolves if the error's message is a string that
    starts with the room-not-joined text, and rejects with the very same
    error otherwise. *)
Theorem sendData_swallows_room_not_joined
    (c : Connection P Profile) (p p' : P) (topic : string)
    (messageData : MessageData) (type : PeerMessageType) (e : JsError) :
  peer c = Some p ->
  (forall commsMessage,
     fst (createCommsMessage messageData c) = Normal commsMessage ->
     sendMessage topic (serializeBinary commsMessage) type p = (Throw e, p')) ->
  ((exists text,
      message e = Some text /\ startsWith text roomNotJoined = true) ->
   fst (sendData topic messageData type c) = Normal tt) /\
  ((forall text,
      message e = Some text -> startsWith text roomNotJoined = false) ->
   fst (sendData topic messageData type c) = Throw e).
Proof.
  intros Hpeer Hsend.
  specialize (Hsend _ eq_refl).
  unfold createCommsMessage, bind, get, ret in Hsend. cbn [fst] in Hsend.
  unfold sendData, try_catch, bind, createCommsMessage, get, ret, onPeer.
  simpl. rewrite Hpeer, Hsend.
  split.
  - intros (text & Hm & Hprefix). rewrite Hm, Hprefix. reflexivity.
  - intros Hother. destruct (message e) as [text|] eqn:Hm.
    + rewrite (Hother text eq_refl). reflexivity.
    + reflexivity.
Qed.

(** A send the transport accepts resolves. *)
Lemma sendData_accepted
    (c : Connection P Profile) (p p' : P) (topic : string)
    (messageData : MessageData) (type : PeerMessageType) :
  peer c = Some p ->
  (forall commsMessage,
     fst (createCommsMessage messageData c) = Normal commsMessage ->
     sendMessage topic (serializeBinary commsMessage) type p
       = (Normal tt, p')) ->
  fst (sendData topic messageData type c) = Normal tt.
Proof.
  intros Hpeer Hsend.
  specialize (Hsend _ eq_refl).
  unfold createCommsMessage, bind, get, ret in Hsend. cbn [fst] in Hsend.
  unfold sendData, try_catch, bind, createCommsMessage, get, ret, onPeer.
  simpl. now rewrite Hpeer, Hsend.
Qed.

(** ** Connecting *)

Lemma layer_is_full_spec (e : JsError) :
  layer_is_full e = true <->
  exists r, responseJson e = Some r /\ status r = Some "layer_is_full".
Proof.
  unfold layer_is_full. destruct (responseJson e) as [r|].
  - destruct (status r) as [s|] eqn:Hs.
    + destruct (String.eqb_spec s "layer_is_full") as [->|Hne].
      * split; [intros _; eauto | reflexivity].
      * split; [discriminate | intros (r' & [= <-] & Hr)]. congruence.
    + split; [discriminate | intros (r' & [= <-] & Hr)]. congruence.
  - split; [discriminate | intros (r' & [=] & _)].
Qed.

(** C7. With live peer connections [connect] reports [connected] and
    resolves to [true] without calling the transport.  With none, when
    establishment fails with [e] it reports [realm-full] exactly when
    [e.responseJson.status] is ['layer_is_full'], [error] otherwise, and
    rejects with [e]. *)
Theorem connect_outcomes (c : Connection P Profile) (p : P) :
  peer c = Some p ->
  (connectedCount p <> 0 ->
   connect c =
     (Normal true,
      with_trace
        (trace c ++
         [StatusReported (mkCommsStatus connected (connectedCount p))
            (Some (connectedCount p))]) c)) /\
  (forall e p',
     connectedCount p = 0 ->
     awaitConnectionEstablished 60000 p = (Throw e, p') ->
     exists s,
       fst (connect c) = Throw e /\
       trace (snd (connect c)) =
         trace c ++
         [PeerCalled (CallAwaitConnectionEstablished 60000);
          DefaultLoggerError e;
          StatusReported (mkCommsStatus s (connectedCount p'))
            (Some (connectedCount p'))] /\
       (s = realm_full <->
        exists r, responseJson e = Some r /\ status r = Some "layer_is_full") /\
       (s = error <->
        ~ exists r, responseJson e = Some r /\ status r = Some "layer_is_full")).
Proof.
  intros Hpeer. split.
  - intros Hlive.
    unfold connect, try_catch, bind, readPeer, connectedPeersCount,
      statusHandler, ret.
    rewrite Hpeer.
    destruct (connectedCount p) as [|n] eqn:Hn; [congruence|].
    simpl. rewrite Hpeer. simpl. rewrite Hn. reflexivity.
  - intros e p' Hzero Hawait.
    exists (if layer_is_full e then realm_full else error).
    unfold connect, try_catch, bind, readPeer, connectedPeersCount,
      statusHandler, ret, onPeer, emit, throw.
    rewrite Hpeer, Hzero. simpl. rewrite Hpeer, Hawait. simpl.
    rewrite <- !app_assoc. simpl.
    split; [reflexivity|]. split; [reflexivity|].
    pose proof (layer_is_full_spec e) as Hfull.
    destruct (layer_is_full e).
    + split; split; intros Hx; try discriminate; try tauto.
    + split; split; intros Hx; try discriminate; try reflexivity.
      * apply Hfull in Hx. discriminate.
      * intros Hy. apply Hfull in Hy. discriminate.
Qed.

(** Establishment that succeeds is reported as [connected], with the count
    the transport has once established. *)
Lemma connect_established (c : Connection P Profile) (p p' : P) :
  peer c = Some p ->
  connectedCount p = 0 ->
  awaitConnectionEstablished 60000 p = (Normal tt, p') ->
  fst (connect c) = Normal true /\
  trace (snd (connect c)) =
    trace c ++
    [PeerCalled (CallAwaitConnectionEstablished 60000);
     StatusReported (mkCommsStatus connected (connectedCount p'))
       (Some (connectedCount p'))].
Proof.
  intros Hpeer Hzero Hawait.
  unfold connect, try_catch, bind, readPeer, connectedPeersCount,
    statusHandler, ret, onPeer.
  rewrite Hpeer, Hzero. simpl. rewrite Hpeer, Hawait. simpl.
  rewrite <- !app_assoc. now split.
Qed.

(** ** Receiving *)

Lemma newEvents_app (c c' : Connection P Profile) (evs : list (Event Profile)) :
  trace c' = trace c ++ evs -> newEvents c c' = evs.
Proof. unfold newEvents. intros ->. apply drop_app_length. Qed.

(** The callback always returns, and what it did is one of the four cases
    of [Dispatch]. *)
Lemma peerCallback_dispatch (c : Connection P Profile) (sender room : string)
    (payload : Uint8Array) (sequenceId : Z) :
  fst (peerCallback sender room payload sequenceId c) = Normal tt /\
  Dispatch c sender payload sequenceId
    (newEvents c (snd (peerCallback sender room payload sequenceId c))).
Proof.
  unfold peerCallback, try_catch, bind.
  destruct (deserializeBinary payload) as [msg|e] eqn:Hdec; simpl.
  2:{ split; [reflexivity|].
      erewrite newEvents_app by reflexivity. now constructor. }
  destruct (data msg) as [|d|d|d|d|d|d|d] eqn:Hdata;
    unfold invoke, emit, onPeer, mapToPackageProfileResponse; simpl.
  - split; [reflexivity|].
    erewrite newEvents_app by reflexivity. now apply dispatch_unknown with msg.
  - destruct (handlers c chatHandler _) as [[]|e] eqn:Hh; simpl;
      (split; [reflexivity|]); unfold newEvents; simpl;
      rewrite <- ?app_assoc, drop_app_length; simpl.
    + eapply (dispatch_delivered _ _ _ _ msg chatHandler _ [] []);
        rewrite ?Hdata; eauto.
    + eapply (dispatch_delivered _ _ _ _ msg chatHandler _ [] [LoggerError e]);
        rewrite ?Hdata; eauto.
  - destruct (peer c) as [p|] eqn:Hpeer; simpl.
    2:{ split; [reflexivity|]. erewrite newEvents_app by reflexivity.
        eapply (dispatch_dropped _ _ _ _ msg positionHandler _ []);
          rewrite ?Hdata; eauto. }
    destruct (setPeerPosition _ _ p) as [[[]|e] p'] eqn:Hset; simpl.
    2:{ split; [reflexivity|]. unfold newEvents; simpl.
        rewrite <- ?app_assoc, drop_app_length; simpl.
        eapply (dispatch_dropped _ _ _ _ msg positionHandler e
                  [PeerCalled _]); rewrite ?Hdata; eauto. }
    destruct (handlers c positionHandler _) as [[]|e] eqn:Hh; simpl;
      (split; [reflexivity|]); unfold newEvents; simpl;
      rewrite <- ?app_assoc, drop_app_length; simpl.
    + eapply (dispatch_delivered _ _ _ _ msg positionHandler _
                [PeerCalled _] []); rewrite ?Hdata; eauto.
    + eapply (dispatch_delivered _ _ _ _ msg positionHandler _
                [PeerCalled _] [LoggerError e]); rewrite ?Hdata; eauto.
  - destruct (handlers c sceneMessageHandler _) as [[]|e] eqn:Hh; simpl;
      (split; [reflexivity|]); unfold newEvents; simpl;
      rewrite <- ?app_assoc, drop_app_length; simpl.
    + eapply (dispatch_delivered _ _ _ _ msg sceneMessageHandler _ [] []);
        rewrite ?Hdata; eauto.
    + eapply (dispatch_delivered _ _ _ _ msg sceneMessageHandler _ []
                [LoggerError e]); rewrite ?Hdata; eauto.
  - destruct (handlers c profileHandler _) as [[]|e] eqn:Hh; simpl;
      (split; [reflexivity|]); unfold newEvents; simpl;
      rewrite <- ?app_assoc, drop_app_length; simpl.
    + eapply (dispatch_delivered _ _ _ _ msg profileHandler _ [] []);
        rewrite ?Hdata; eauto.
    + eapply (dispatch_delivered _ _ _ _ msg profileHandler _ []
                [LoggerError e]); rewrite ?Hdata; eauto.
  - destruct (handlers c voiceHandler _) as [[]|e] eqn:Hh; simpl;
      (split; [reflexivity|]); unfold newEvents; simpl;
      rewrite <- ?app_assoc, drop_app_length; simpl.
    + eapply (dispatch_delivered _ _ _ _ msg voiceHandler _ [] []);
        rewrite ?Hdata; eauto.
    + eapply (dispatch_delivered _ _ _ _ msg voiceHandler _ []
                [LoggerError e]); rewrite ?Hdata; eauto.
  - destruct (handlers c profileRequestHandler _) as [[]|e] eqn:Hh; simpl;
      (split; [reflexivity|]); unfold newEvents; simpl;
      rewrite <- ?app_assoc, drop_app_length; simpl.
    + eapply (dispatch_delivered _ _ _ _ msg profileRequestHandler _ [] []);
        rewrite ?Hdata; eauto.
    + eapply (dispatch_delivered _ _ _ _ msg profileRequestHandler _ []
                [LoggerError e]); rewrite ?Hdata; eauto.
  - destruct (JSON_parse (serializedProfile d)) as [parsed|e] eqn:Hparse; simpl.
    2:{ split; [reflexivity|]. erewrite newEvents_app by reflexivity.
        eapply (dispatch_dropped _ _ _ _ msg profileResponseHandler _ []);
          rewrite ?Hdata; eauto. }
    destruct (handlers c profileResponseHandler _) as [[]|e] eqn:Hh; simpl;
      (split; [reflexivity|]); unfold newEvents; simpl;
      rewrite <- ?app_assoc, drop_app_length; simpl.
    + eapply (dispatch_delivered _ _ _ _ msg profileResponseHandler _ [] []);
        rewrite ?Hdata; eauto.
    + eapply (dispatch_delivered _ _ _ _ msg profileResponseHandler _ []
                [LoggerError e]); rewrite ?Hdata; eauto.
Qed.

Lemma handlersInvoked_app (t1 t2 : list (Event Profile)) :
  handlersInvoked (t1 ++ t2) = handlersInvoked t1 ++ handlersInvoked t2.
Proof. apply omap_app. Qed.

(** The callback neither drops nor disposes of the transport. *)
Lemma peerCallback_keeps_peer (c : Connection P Profile) (sender room : string)
    (payload : Uint8Array) (sequenceId : Z) :
  let c' := snd (peerCallback sender room payload sequenceId c) in
  (peer c' = None <-> peer c = None) /\
  ~ In (PeerCalled CallDispose) (newEvents c c').
Proof.
  unfold peerCallback, try_catch, bind.
  destruct (deserializeBinary payload) as [msg|e]; simpl.
  2:{ split; [reflexivity|]. erewrite newEvents_app by reflexivity.
      simpl. intros [|[]]; discriminate. }
  destruct (data msg) as [|d|d|d|d|d|d|d];
    unfold invoke, emit, onPeer, mapToPackageProfileResponse; simpl;
    repeat match goal with
      | |- context [peer c] =>
          let Hp := fresh "Hp" in destruct (peer c) eqn:Hp; simpl
      | |- context [handlers c ?h ?pkg] => destruct (handlers c h pkg); simpl
      | |- context [setPeerPosition ?a ?b ?p] =>
          destruct (setPeerPosition a b p) as [[[]|?] ?]; simpl
      | |- context [JSON_parse ?t] => destruct (JSON_parse t); simpl
      end;
    (split; [try rewrite Hp; (reflexivity || (split; discriminate)) |]);
    unfold newEvents; simpl; rewrite <- ?app_assoc, drop_app_length; simpl;
    intuition discriminate.
Qed.

(** C9. The callback always returns normally and invokes at most one
    handler, which is the one of the packet's discriminant.  A packet that
    does not decode, or whose discriminant is none of the known ones, is
    logged and dropped.  A packet of a known kind invokes the handler of
    that kind exactly once, provided mapping its body does not throw: the
    serialized profile of a profile response parses, and the transport
    accepts the peer position of a position message; when it throws, the
    packet is logged and dropped as well.  The transport object is kept and
    never disposed of. *)
Theorem peerCallback_at_most_one_handler (c : Connection P Profile)
    (sender room : string) (payload : Uint8Array) (sequenceId : Z) :
  let r := peerCallback sender room payload sequenceId c in
  let evs := newEvents c (snd r) in
  fst r = Normal tt /\
  length (handlersInvoked evs) <= 1 /\
  (forall h pkg,
     In (h, pkg) (handlersInvoked evs) ->
     exists msg,
       deserializeBinary payload = Normal msg /\ handlerOf (data msg) = Some h) /\
  (forall e, deserializeBinary payload = Throw e -> evs = [LoggerError e]) /\
  (forall msg,
     deserializeBinary payload = Normal msg ->
     data msg = DATA_NOT_SET ->
     evs = [LoggerWarn DATA_NOT_SET]) /\
  (forall msg h,
     deserializeBinary payload = Normal msg ->
     handlerOf (data msg) = Some h ->
     match data msg with
     | PROFILE_RESPONSE_DATA d =>
         exists parsed, JSON_parse (serializedProfile d) = Normal parsed
     | POSITION_DATA d =>
         exists p p',
           peer c = Some p /\
           setPeerPosition sender
             (getPositionX d, getPositionY d, getPositionZ d) p
           = (Normal tt, p')
     | _ => True
     end ->
     exists pkg, handlersInvoked evs = [(h, pkg)]) /\
  (forall msg d e,
     deserializeBinary payload = Normal msg ->
     data msg = PROFILE_RESPONSE_DATA d ->
     JSON_parse (serializedProfile d) = Throw e ->
     evs = [LoggerError e]) /\
  (forall msg d p p' e,
     deserializeBinary payload = Normal msg ->
     data msg = POSITION_DATA d ->
     peer c = Some p ->
     setPeerPosition sender (getPositionX d, getPositionY d, getPositionZ d) p
     = (Throw e, p') ->
     evs =
       [PeerCalled
          (CallSetPeerPosition sender
             (getPositionX d, getPositionY d, getPositionZ d));
        LoggerError e]) /\
  (peer (snd r) = None <-> peer c = None) /\
  ~ In (PeerCalled CallDispose) evs.
Proof.
  intros r evs.
  destruct (peerCallback_dispatch c sender room payload sequenceId)
    as [Hret Hd].
  destruct (peerCallback_keeps_peer c sender room payload sequenceId)
    as [Hkeep Hnodispose].
  fold r in Hret, Hd, Hkeep, Hnodispose. fold evs in Hd, Hnodispose.
  repeat split; try assumption; try apply Hkeep.
  - destruct Hd; rewrite ?handlersInvoked_app; simpl;
      repeat match goal with
        | Hh : handlersInvoked _ = [] |- _ => rewrite Hh; clear Hh
        end; simpl; lia.
  - intros h pkg Hin.
    destruct Hd as [e He | msg Hm Hdata | msg h' e evs0 Hm Hh _ Hevs
                   | msg h' pkg' evs0 evs1 Hm Hh Hevs0 Hevs1 _ _ _];
      rewrite ?handlersInvoked_app in Hin; simpl in Hin;
      rewrite ?Hevs, ?Hevs0, ?Hevs1 in Hin; simpl in Hin;
      try contradiction.
    destruct Hin as [[= <- <-]|[]]. eauto.
  - intros e He.
    destruct Hd as [e' He' | msg Hm _ | msg h' e' evs0 Hm _ _ _
                   | msg h' pkg' evs0 evs1 Hm _ _ _ _ _ _]; congruence.
  - intros msg Hmsg Hdata.
    destruct Hd as [e' He' | msg' Hm _ | msg' h' e' evs0 Hm Hh _ _
                   | msg' h' pkg' evs0 evs1 Hm Hh _ _ _ _ _];
      try congruence;
      assert (msg' = msg) by congruence; subst msg';
      rewrite Hdata in Hh; discriminate.
  - intros msg h Hmsg Hh Hbody.
    subst evs r. clear Hd Hret Hkeep Hnodispose.
    unfold peerCallback, try_catch, bind. rewrite Hmsg. simpl.
    destruct (data msg) as [|d|d|d|d|d|d|d] eqn:Hdata; simpl in Hh;
      try discriminate; injection Hh as <-;
      unfold invoke, emit, onPeer, mapToPackageProfileResponse; simpl.
    + destruct (handlers c chatHandler _); simpl; unfold newEvents; simpl;
        rewrite <- ?app_assoc, drop_app_length; simpl; eauto.
    + destruct Hbody as (p & p' & Hp & Hset). rewrite Hp. simpl.
      unfold mapToPositionMessage; simpl. rewrite Hset. simpl.
      destruct (handlers c positionHandler _); simpl; unfold newEvents; simpl;
        rewrite <- ?app_assoc, drop_app_length; simpl; eauto.
    + destruct (handlers c sceneMessageHandler _); simpl; unfold newEvents;
        simpl; rewrite <- ?app_assoc, drop_app_length; simpl; eauto.
    + destruct (handlers c profileHandler _); simpl; unfold newEvents; simpl;
        rewrite <- ?app_assoc, drop_app_length; simpl; eauto.
    + destruct (handlers c voiceHandler _); simpl; unfold newEvents; simpl;
        rewrite <- ?app_assoc, drop_app_length; simpl; eauto.
    + destruct (handlers c profileRequestHandler _); simpl; unfold newEvents;
        simpl; rewrite <- ?app_assoc, drop_app_length; simpl; eauto.
    + destruct Hbody as (parsed & Hparse). rewrite Hparse. simpl.
      destruct (handlers c profileResponseHandler _); simpl;
        unfold newEvents; simpl;
        rewrite <- ?app_assoc, drop_app_length; simpl; eauto.
  - intros msg d e Hmsg Hdata Hparse.
    subst evs r. unfold peerCallback, try_catch, bind.
    rewrite Hmsg. simpl. rewrite Hdata.
    unfold mapToPackageProfileResponse, emit. rewrite Hparse. simpl.
    now apply newEvents_app.
  - intros msg d p p' e Hmsg Hdata Hp Hset.
    subst evs r. unfold peerCallback, try_catch, bind.
    rewrite Hmsg. simpl. rewrite Hdata.
    unfold onPeer, emit, mapToPositionMessage. simpl. rewrite Hp, Hset. simpl.
    apply newEvents_app. simpl. now rewrite <- app_assoc.
Qed.

(** What a delivered envelope carries: the sender, the time of the message
    and, as its type, the kind of the message, except that a scene message
    is delivered with type [chat]. *)
Lemma peerCallback_envelope (c : Connection P Profile) (sender room : string)
    (payload : Uint8Array) (sequenceId : Z) (h : Handler)
    (pkg : Package Profile) :
  In (h, pkg)
    (handlersInvoked
       (newEvents c (snd (peerCallback sender room payload sequenceId c)))) ->
  exists msg,
    deserializeBinary payload = Normal msg /\
    pkg_sender pkg = sender /\
    pkg_time pkg = time msg /\
    Some (pkg_type pkg) =
      match data msg with
      | SCENE_DATA _ => Some chat
      | d => kindOf d
      end.
Proof.
  intros Hin.
  destruct (peerCallback_dispatch c sender room payload sequenceId)
    as [_ Hd].
  destruct Hd as [e He | msg Hm Hdata | msg h' e evs0 Hm Hh _ Hevs
                 | msg h' pkg' evs0 evs1 Hm Hh Hevs0 Hevs1 Hs Ht Hk];
    rewrite ?handlersInvoked_app in Hin; simpl in Hin;
    rewrite ?Hevs, ?Hevs0, ?Hevs1 in Hin; simpl in Hin;
    try contradiction.
  destruct Hin as [[= <- <-]|[]]. eauto.
Qed.

(** C8. A packet that decodes to a scene message is handed to the scene
    message handler, once, in an envelope whose type is [chat], while the
    kind of the message is [scene]. *)
Theorem scene_message_delivered_as_chat (c : Connection P Profile)
    (sender room : string) (payload : Uint8Array) (sequenceId : Z)
    (msg : CommsMessage) (d : SceneData) :
  deserializeBinary payload = Normal msg ->
  data msg = SCENE_DATA d ->
  kindOf (data msg) = Some scene /\
  handlersInvoked
    (newEvents c (snd (peerCallback sender room payload sequenceId c)))
  = [(sceneMessageHandler,
      mkPackage sender (time msg) chat (BusMessage (sceneId d) (sceneText d)))].
Proof.
  intros Hmsg Hdata. split; [now rewrite Hdata|].
  unfold peerCallback, try_catch, bind. rewrite Hmsg. simpl. rewrite Hdata.
  unfold invoke, emit, createPackage, mapToPackageScene. simpl.
  destruct (handlers c sceneMessageHandler _) as [[]|e]; simpl;
    unfold newEvents; simpl; rewrite <- ?app_assoc, drop_app_length;
    reflexivity.
Qed.

(** ** Status reports *)

Lemma keeps_ret {A : Type} (a : A) : keeps (ret a).
Proof. intros c Hc. exact Hc. Qed.

Lemma keeps_throw {A : Type} (e : JsError) : keeps (throw (A := A) e).
Proof. intros c Hc. exact Hc. Qed.

Lemma keeps_get : keeps get.
Proof. intros c Hc. exact Hc. Qed.

Lemma keeps_bind {A B : Type} (m : M A) (k : A -> M B) :
  keeps m -> (forall a, keeps (k a)) -> keeps (bind m k).
Proof.
  intros Hm Hk c Hc. unfold bind. specialize (Hm c Hc).
  destruct (m c) as [[a|e] c']; simpl in *; [now apply Hk | exact Hm].
Qed.

Lemma keeps_try_catch {A : Type} (m : M A) (handler : JsError -> M A) :
  keeps m -> (forall e, keeps (handler e)) -> keeps (try_catch m handler).
Proof.
  intros Hm Hh c Hc. unfold try_catch. specialize (Hm c Hc).
  destruct (m c) as [[a|e] c']; simpl in *; [exact Hm | now apply Hh].
Qed.

Lemma keeps_settle {A : Type} (m : M A) : keeps m -> keeps (settle m).
Proof.
  intros Hm c Hc. unfold settle. specialize (Hm c Hc).
  now destruct (m c) as [r c'].
Qed.

Lemma keeps_mapM {A B : Type} (f : A -> M B) (l : list A) :
  (forall a, keeps (f a)) -> keeps (mapM f l).
Proof.
  intros Hf. induction l as [|a l IH]; simpl.
  - apply keeps_ret.
  - apply keeps_bind; [apply Hf|]. intros b.
    apply keeps_bind; [apply IH|]. intros bs. apply keeps_ret.
Qed.

Lemma keeps_emit (ev : Event Profile) : faithfulReport ev -> keeps (emit ev).
Proof.
  intros Hev c Hc. unfold emit, faithful; simpl.
  apply Forall_app; split; [exact Hc | now constructor].
Qed.

Lemma keeps_onPeer {A : Type} (call : PeerCall)
    (f : P -> Completion JsError A * P) : keeps (onPeer call f).
Proof.
  intros c Hc. unfold onPeer. destruct (peer c) as [p|]; [|exact Hc].
  destruct (f p) as [r p']. unfold faithful; simpl.
  apply Forall_app; split; [exact Hc | now repeat constructor].
Qed.

Lemma keeps_readPeer {A : Type} (f : P -> A) : keeps (readPeer f).
Proof. intros c Hc. unfold readPeer. now destruct (peer c). Qed.

Lemma keeps_invoke (h : Handler) (pkg : Package Profile) : keeps (invoke h pkg).
Proof.
  intros c Hc. unfold invoke, faithful; simpl.
  apply Forall_app; split; [exact Hc | now repeat constructor].
Qed.

Lemma keeps_update (f : Connection P Profile -> Connection P Profile) :
  (forall c, trace (f c) = trace c) -> keeps (fun c => (Normal tt, f c)).
Proof. intros Hf c Hc. unfold faithful; simpl. now rewrite Hf. Qed.

(** The one way the code reports a status: the count is read from the
    transport in the argument of the call. *)
Lemma keeps_report {A : Type} (st : Status) (k : M A) :
  keeps k ->
  keeps (bind connectedPeersCount
           (fun n => bind (statusHandler (mkCommsStatus st n)) (fun _ => k))).
Proof.
  intros Hk c Hc. unfold bind, connectedPeersCount, statusHandler; simpl.
  apply Hk. unfold faithful; simpl.
  apply Forall_app; split; [exact Hc|].
  constructor; [|constructor]. simpl. now destruct (peer c).
Qed.

Lemma keeps_report_last (st : Status) :
  keeps (bind connectedPeersCount (fun n => statusHandler (mkCommsStatus st n))).
Proof.
  intros c Hc. unfold bind, connectedPeersCount, statusHandler; simpl.
  unfold faithful; simpl.
  apply Forall_app; split; [exact Hc|].
  constructor; [|constructor]. simpl. now destruct (peer c).
Qed.

Ltac keeps_step :=
  first
    [ apply keeps_report
    | apply keeps_report_last
    | apply keeps_ret
    | apply keeps_throw
    | apply keeps_get
    | apply keeps_onPeer
    | apply keeps_readPeer
    | apply keeps_invoke
    | apply keeps_settle
    | apply keeps_mapM; intros ?
    | apply keeps_try_catch; [| intros ?]
    | apply keeps_emit; exact I
    | apply keeps_update; intros ?; reflexivity
    | apply keeps_bind; [| intros ?]
    | match goal with
      | |- keeps (if ?b then _ else _) => destruct b
      | |- keeps (match ?x with _ => _ end) => destruct x
      end ].

Lemma keeps_connect : keeps connect.
Proof. unfold connect. repeat keeps_step. Qed.

Lemma keeps_createPeer : keeps createPeer.
Proof. unfold createPeer. repeat keeps_step. Qed.

Lemma keeps_initializePeer : keeps initializePeer.
Proof.
  unfold initializePeer. keeps_step.
  apply keeps_bind; [apply keeps_createPeer | intros p].
  repeat keeps_step.
Qed.

Lemma keeps_syncRoomsWithPeer : keeps syncRoomsWithPeer.
Proof. unfold syncRoomsWithPeer, Promise_all. repeat keeps_step. Qed.

Lemma keeps_notifyIslandChange : keeps notifyIslandChange.
Proof.
  intros c Hc. unfold notifyIslandChange.
  destruct (onIslandChange c) as [answer|]; [|exact Hc].
  unfold faithful; simpl.
  apply Forall_app; split; [exact Hc | now repeat constructor].
Qed.

Lemma keeps_changeRealm (r : Realm) (url : string) : keeps (changeRealm r url).
Proof.
  unfold changeRealm, cleanUpPeer. keeps_step.
  do 3 (apply keeps_bind; [repeat keeps_step | intros ?]).
  apply keeps_bind; [apply keeps_notifyIslandChange | intros ?].
  apply keeps_bind; [apply keeps_initializePeer | intros ?].
  apply keeps_bind; [apply keeps_connect | intros ?].
  apply keeps_syncRoomsWithPeer.
Qed.

(** C10. Every status report made by [connect] (on success and on
    failure), by [changeRealm], by [initializePeer] and by the callback
    installed in the transport carries the transport's [connectedCount()] of
    the moment of the report, or 0 when there is no transport object; so
    does the report made while the connection is constructed. *)
Theorem status_reports_carry_transport_count (c : Connection P Profile) :
  faithful c ->
  faithful (snd (connect c)) /\
  (forall r url, faithful (snd (changeRealm r url c))) /\
  faithful (snd (initializePeer c)) /\
  (forall s, faithful (snd (relayPeerStatus s c))) /\
  (forall peerId r url island handler now,
     faithful (snd (constructor peerId r url island handler now)) /\
     exists rest,
       trace (snd (constructor peerId r url island handler now)) =
       StatusReported (mkCommsStatus connecting 0) None :: rest).
Proof.
  intros Hc. repeat split.
  - now apply keeps_connect.
  - intros r url. now apply keeps_changeRealm.
  - now apply keeps_initializePeer.
  - intros s. unfold relayPeerStatus. now apply keeps_report_last.
  - apply keeps_initializePeer. constructor.
  - unfold constructor, initializePeer, bind, connectedPeersCount,
      statusHandler, createPeer, get, emit, ret, fresh, readPeer, onPeer.
    simpl.
    destruct island as [island|]; simpl; [|eauto].
    destruct setPreferedIslandId as [set|]; simpl; [|eauto].
    destruct (truthy_string island); simpl; eauto.
Qed.

(** ** Room reconciliation *)

Lemma RoomEntry_eq_dec (x y : RoomEntry) : {x = y} + {x <> y}.
Proof. decide equality; apply string_dec. Qed.

Lemma Promise_all_resolved (outs : list (Completion JsError unit))
    (c : Connection P Profile) :
  Forall resolved outs -> Promise_all outs c = (Normal tt, c).
Proof.
  intros Hall. unfold Promise_all.
  destruct (find _ outs) as [[[]|e]|] eqn:Hfind; try reflexivity.
  apply find_some in Hfind as [Hin _].
  rewrite List.Forall_forall in Hall. apply Hall in Hin. discriminate.
Qed.

Lemma Promise_all_inv (outs : list (Completion JsError unit))
    (c : Connection P Profile) :
  fst (Promise_all outs c) = Normal tt -> Forall resolved outs.
Proof.
  unfold Promise_all. intros Hok. apply List.Forall_forall. intros o Hin.
  destruct (find _ outs) as [[[]|e]|] eqn:Hfind.
  - apply find_some in Hfind as [_ Hf]. discriminate.
  - discriminate.
  - destruct o as [[]|e]; [reflexivity|].
    eapply find_none in Hfind; [|exact Hin]. discriminate.
Qed.

Lemma mapM_all_ret {A : Type} (f : A -> M (Completion JsError unit))
    (l : list A) (c : Connection P Profile) :
  (forall a, In a l -> f a c = (Normal (Normal tt), c)) ->
  mapM f l c = (Normal (map (fun _ => Normal tt) l), c).
Proof.
  induction l as [|a l IH]; intros Hf; simpl; [reflexivity|].
  unfold bind. rewrite Hf by now left.
  rewrite IH by (intros; apply Hf; now right). reflexivity.
Qed.

Lemma Forall_resolved_map {A : Type} (l : list A) :
  Forall resolved (map (fun _ : A => Normal tt) l).
Proof. induction l; simpl; constructor; [reflexivity | assumption]. Qed.

Lemma syncRoomsWithPeer_unfold (c : Connection P Profile) (p : P) :
  peer c = Some p ->
  syncRoomsWithPeer c =
    bind (mapM (joinStep (currentRooms p)) (rooms c))
      (fun joining =>
         bind (mapM (leaveStep (rooms c)) (currentRooms p))
           (fun leaving => Promise_all (joining ++ leaving))) c.
Proof.
  intros Hp. unfold syncRoomsWithPeer, bind at 1, readPeer. rewrite Hp.
  unfold bind at 1, get. reflexivity.
Qed.

Context {lawful : @LawfulRooms P _}.

(** After the joins: nothing was removed, what was added matches a desired
    room, and every desired room that was missing now has an entry. *)
Lemma joining_run (cur0 : list RoomEntry) (L : list string) :
  forall (c : Connection P Profile) (pa : P),
    peer c = Some pa ->
    exists outs c' pb,
      mapM (joinStep cur0) L c = (Normal outs, c') /\
      peer c' = Some pb /\ rooms c' = rooms c /\
      (Forall resolved outs ->
       (forall x, In x (currentRooms pa) -> In x (currentRooms pb)) /\
       (forall x, In x (currentRooms pb) ->
          In x (currentRooms pa) \/
          exists room, In room L /\ isSameRoom room x = true) /\
       (forall room, In room L ->
          existsb (fun current => isSameRoom room current) cur0 = false ->
          exists e, In e (currentRooms pb) /\ isSameRoom room e = true)).
Proof.
  induction L as [|room L IH]; intros c pa Hpa; simpl.
  - exists [], c, pa. split; [reflexivity|]. split; [exact Hpa|].
    split; [reflexivity|]. intros _. split; [auto|]. split; [auto|].
    intros ? [].
  - unfold bind at 1. unfold joinStep at 1.
    destruct (existsb (fun current => isSameRoom room current) cur0) eqn:Hex;
      simpl.
    + destruct (IH c pa Hpa) as (outs & c' & pb & Hrun & Hpb & Hrooms & Hprops).
      unfold bind at 1. rewrite Hrun. simpl.
      exists (Normal tt :: outs), c', pb.
      split; [reflexivity|]. split; [exact Hpb|]. split; [exact Hrooms|].
      intros Hall. inversion Hall as [|? ? _ Hall']; subst.
      destruct (Hprops Hall') as (Hkeep & Hnew & Hjoined).
      split; [exact Hkeep|]. split.
      * intros x Hx. destruct (Hnew x Hx) as [|(r & Hr & Hs)]; eauto.
      * intros r [ <- | Hr ] Hmiss; [congruence | eauto].
    + unfold settle, onPeer. rewrite Hpa.
      destruct (joinRoom room pa) as [o p1] eqn:Hjoin. simpl.
      set (c1 := with_peer (Some p1)
                   (with_trace (trace c ++ [PeerCalled (CallJoinRoom room)]) c)).
      destruct (IH c1 p1 eq_refl)
        as (outs & c' & pb & Hrun & Hpb & Hrooms & Hprops).
      unfold bind at 1. rewrite Hrun. simpl.
      exists (o :: outs), c', pb.
      split; [reflexivity|]. split; [exact Hpb|]. split; [exact Hrooms|].
      intros Hall. inversion Hall as [|? ? Ho Hall']; subst.
      unfold resolved in Ho; subst o.
      destruct (Hprops Hall') as (Hkeep & Hnew & Hjoined).
      destruct (joinRoom_adds _ _ _ Hjoin) as (e & He & Hadd).
      split; [|split].
      * intros x Hx. apply Hkeep, Hadd. now left.
      * intros x Hx. destruct (Hnew x Hx) as [Hx1|(r & Hr & Hs)]; [|eauto].
        apply Hadd in Hx1 as [ ? | -> ]; eauto.
      * intros r [ <- | Hr ] Hmiss; [|eauto].
        exists e. split; [|exact He]. apply Hkeep, Hadd. now right.
Qed.

(** After the leaves: nothing was added, only ids of [K] that no desired
    room matches were removed, and each of those is gone. *)
Lemma leaving_run (X : list string) (K : list RoomEntry) :
  forall (c : Connection P Profile) (pb : P),
    peer c = Some pb ->
    exists outs c' pc,
      mapM (leaveStep X) K c = (Normal outs, c') /\
      peer c' = Some pc /\ rooms c' = rooms c /\
      (Forall resolved outs ->
       (forall x, In x (currentRooms pc) -> In x (currentRooms pb)) /\
       (forall x, In x (currentRooms pb) ->
          In x (currentRooms pc) \/
          exists id, x = RoomId id /\
            existsb (fun room => isSameRoom room (RoomId id)) X = false) /\
       (forall id, In (RoomId id) K ->
          existsb (fun room => isSameRoom room (RoomId id)) X = false ->
          ~ In (RoomId id) (currentRooms pc))).
Proof.
  induction K as [|current K IH]; intros c pb Hpb; simpl.
  - exists [], c, pb. split; [reflexivity|]. split; [exact Hpb|].
    split; [reflexivity|]. intros _. split; [auto|]. split; [auto|].
    intros ? [].
  - unfold bind at 1. unfold leaveStep at 1.
    destruct (existsb (fun room => isSameRoom room current) X) eqn:Hex;
      simpl; [|destruct current as [id|id]].
    + destruct (IH c pb Hpb) as (outs & c' & pc & Hrun & Hpc & Hrooms & Hprops).
      unfold bind at 1. rewrite Hrun. simpl.
      exists (Normal tt :: outs), c', pc.
      split; [reflexivity|]. split; [exact Hpc|]. split; [exact Hrooms|].
      intros Hall. inversion Hall as [|? ? _ Hall']; subst.
      destruct (Hprops Hall') as (Hsub & Hgone & Hleft).
      split; [exact Hsub|]. split; [exact Hgone|].
      intros id [ -> | Hin ] Hmiss; [simpl in *; congruence | eauto].
    + unfold settle, onPeer. rewrite Hpb.
      destruct (leaveRoom id pb) as [o p1] eqn:Hleave. simpl.
      set (c1 := with_peer (Some p1)
                   (with_trace (trace c ++ [PeerCalled (CallLeaveRoom id)]) c)).
      destruct (IH c1 p1 eq_refl)
        as (outs & c' & pc & Hrun & Hpc & Hrooms & Hprops).
      unfold bind at 1. rewrite Hrun. simpl.
      exists (o :: outs), c', pc.
      split; [reflexivity|]. split; [exact Hpc|]. split; [exact Hrooms|].
      intros Hall. inversion Hall as [|? ? Ho Hall']; subst.
      unfold resolved in Ho; subst o.
      destruct (Hprops Hall') as (Hsub & Hgone & Hleft).
      pose proof (leaveRoom_removes _ _ _ Hleave) as Hrem.
      split; [|split].
      * intros x Hx. now apply Hrem, Hsub.
      * intros x Hx.
        destruct (RoomEntry_eq_dec x (RoomId id)) as [->|Hne]; [eauto|].
        destruct (Hgone x) as [|]; [apply Hrem; now split | auto | auto].
      * intros id' [ [= <-] | Hin ] Hmiss; [|eauto].
        intros Hin. apply Hsub, Hrem in Hin as [_ Hne]. now apply Hne.
    + simpl.
      destruct (IH c pb Hpb) as (outs & c' & pc & Hrun & Hpc & Hrooms & Hprops).
      unfold bind at 1. rewrite Hrun. simpl.
      exists (Normal tt :: outs), c', pc.
      split; [reflexivity|]. split; [exact Hpc|]. split; [exact Hrooms|].
      intros Hall. inversion Hall as [|? ? _ Hall']; subst.
      destruct (Hprops Hall') as (Hsub & Hgone & Hleft).
      split; [exact Hsub|]. split; [exact Hgone|].
      intros id' [ [=] | Hin ] Hmiss. eauto.
Qed.

Lemma with_rooms_same (c : Connection P Profile) :
  with_rooms (rooms c) c = c.
Proof. now destruct c. Qed.

Lemma setTopics_eq (X : list string) (c : Connection P Profile) :
  setTopics X c = syncRoomsWithPeer (with_rooms X c).
Proof. reflexivity. Qed.

(** C5. On a transport whose rooms follow the joins and leaves it resolves,
    a [setTopics(X)] that follows a completed [setTopics(X)] completes too
    and does nothing at all: the connection, its transport and its trace
    are unchanged, so no room is joined and no room is left. *)
Theorem setTopics_idempotent (X : list string) (c : Connection P Profile) :
  fst (setTopics X c) = Normal tt ->
  let c1 := snd (setTopics X c) in
  setTopics X c1 = (Normal tt, c1) /\
  roomCalls (newEvents c1 (snd (setTopics X c1))) = [].
Proof.
  intros Hfirst c1.
  assert (Hsecond : setTopics X c1 = (Normal tt, c1)).
  2:{ split; [exact Hsecond|]. rewrite Hsecond. simpl.
      unfold newEvents. now rewrite drop_all. }
  subst c1. revert Hfirst.
  rewrite !setTopics_eq.
  set (c0 := with_rooms X c).
  destruct (peer c0) as [p0|] eqn:Hp0.
  2:{ unfold syncRoomsWithPeer, bind at 1, readPeer. rewrite Hp0.
      discriminate. }
  assert (Hrooms0 : rooms c0 = X) by reflexivity.
  destruct (joining_run (currentRooms p0) X c0 p0 Hp0)
    as (outs1 & cb & pb & Hrun1 & Hpb & Hroomsb & Hprops1).
  destruct (leaving_run X (currentRooms p0) cb pb Hpb)
    as (outs2 & cc & pc & Hrun2 & Hpc & Hroomsc & Hprops2).
  pose proof (syncRoomsWithPeer_unfold c0 p0 Hp0) as Hunf.
  rewrite Hrooms0 in Hunf.
  unfold bind at 1 in Hunf. rewrite Hrun1 in Hunf.
  unfold bind at 1 in Hunf. rewrite Hrun2 in Hunf.
  rewrite Hunf. intros Hfirst. apply Promise_all_inv in Hfirst.
  apply Forall_app in Hfirst as [Hall1 Hall2].
  rewrite Promise_all_resolved by (apply Forall_app; now split).
  simpl.
  destruct (Hprops1 Hall1) as (Hkeep & Hnew & Hjoined).
  destruct (Hprops2 Hall2) as (Hsub & Hgone & Hleft).
  assert (Hroomscc : rooms cc = X) by congruence.
  assert (Hsame : with_rooms X cc = cc)
    by (rewrite <- Hroomscc; apply with_rooms_same).
  rewrite Hsame.
  rewrite (syncRoomsWithPeer_unfold cc pc Hpc), Hroomscc.
  (* every desired room has an entry in the rooms of the transport *)
  assert (Hpresent : forall room, In room X ->
            existsb (fun current => isSameRoom room current) (currentRooms pc)
            = true).
  { intros room Hroom. apply existsb_exists.
    assert (Hb : exists e, In e (currentRooms pb) /\ isSameRoom room e = true).
    { destruct (existsb (fun current => isSameRoom room current)
                  (currentRooms p0)) eqn:Hex.
      - apply existsb_exists in Hex as (e & He & Hs). eauto.
      - eauto. }
    destruct Hb as (e & He & Hs). exists e. split; [|exact Hs].
    destruct (Hgone e He) as [|(id & -> & Hmiss)]; [assumption|].
    exfalso.
    assert (existsb (fun r => isSameRoom r (RoomId id)) X = true)
      by (apply existsb_exists; eauto).
    congruence. }
  (* and every id among them is desired *)
  assert (Hdesired : forall id, In (RoomId id) (currentRooms pc) ->
            existsb (fun room => isSameRoom room (RoomId id)) X = true).
  { intros id Hin.
    destruct (existsb (fun room => isSameRoom room (RoomId id)) X) eqn:Hex;
      [reflexivity|]. exfalso.
    destruct (Hnew _ (Hsub _ Hin)) as [Hold|(room & Hroom & Hs)].
    - exact (Hleft id Hold Hex Hin).
    - assert (existsb (fun r => isSameRoom r (RoomId id)) X = true)
        by (apply existsb_exists; eauto).
      congruence. }
  unfold bind at 1.
  rewrite (mapM_all_ret (joinStep (currentRooms pc)) X cc).
  2:{ intros room Hroom. unfold joinStep. now rewrite Hpresent. }
  unfold bind at 1.
  rewrite (mapM_all_ret (leaveStep X) (currentRooms pc) cc).
  2:{ intros current Hin. unfold leaveStep.
      destruct current as [id|id].
      - now rewrite (Hdesired id Hin).
      - now destruct (negb _). }
  apply Promise_all_resolved, Forall_app.
  split; apply Forall_resolved_map.
Qed.

End WithCollaborators.

End LighthouseFacts.

Module DaoFacts.
Import Js DaoTypes Dao.

Section WithCollaborators.
Context `{Collaborators}.

(** ** What the first tier computes *)

Lemma scanned_app (es1 es2 : list Effect) :
  scanned (es1 ++ es2) = scanned es1 || scanned es2.
Proof. apply existsb_app. Qed.

Lemma waitLoop_ready (pending : list (list Candidate)) (w : World)
    (acc : list Effect) :
  allCatalystCandidates w <> [] ->
  waitLoop pending w acc =
    (Returned tt, w, acc ++ [Select getAllCatalystCandidates]).
Proof.
  intros Hne. destruct pending; cbn [waitLoop];
    destruct (allCatalystCandidates w); congruence.
Qed.

Lemma waitForCandidates_ready (s : SagaState) :
  allCatalystCandidates (world s) <> [] ->
  waitForCandidates s =
    (Returned tt,
     mkSagaState (world s) (effects s ++ [Select getAllCatalystCandidates])).
Proof.
  intros Hne. unfold waitForCandidates.
  now rewrite waitLoop_ready.
Qed.

Lemma checkValidRealm_ends (realm : Realm) (s : SagaState) :
  quietlyEnds (checkValidRealm realm) s
    (outcomeOf (isValidRealm (world s) realm)).
Proof.
  unfold quietlyEnds, checkValidRealm, isValidRealm.
  destruct (String.eqb (protocol realm) "v2");
    [|exists []; rewrite app_nil_r; destruct s; now split].
  destruct (truthy_string (hostname realm)); cbn [negb];
    [|exists []; rewrite app_nil_r; destruct s; now split].
  unfold bind, select, effect. cbn [world effects].
  exists [Select getMinCatalystVersion;
          Ping (commsStatusUrl (hostname realm))].
  rewrite <- app_assoc. split; [|reflexivity].
  destruct (ping_status _); [|reflexivity].
  destruct (minCatalystVersion (world s)) as [m|]; [|reflexivity].
  destruct (truthy_string m); [|reflexivity].
  unfold lift. now destruct (gte _ m).
Qed.

Lemma checkValidRealm_quiet (realm : Realm) (s : SagaState) (valid : bool) :
  isValidRealm (world s) realm = Normal valid ->
  quietly (checkValidRealm realm) s valid.
Proof.
  intros Hvalid. pose proof (checkValidRealm_ends realm s) as Hends.
  now rewrite Hvalid in Hends.
Qed.

Lemma getConfiguredRealm_ends (candidates : list Candidate) (s : SagaState) :
  quietlyEnds (getConfiguredRealm candidates) s
    (outcomeOf (configuredRealm (world s) candidates)).
Proof.
  unfold quietlyEnds, getConfiguredRealm, configuredRealm, qsRealm.
  unfold bind at 1.
  destruct (qs_realm (world s)) as [realmName|].
  2:{ exists []. rewrite app_nil_r. destruct s. now split. }
  destruct (truthy_string realmName).
  2:{ exists []. rewrite app_nil_r. destruct s. now split. }
  unfold call, bind, effect, ret. simpl.
  destruct (resolveCommsConnectionString realmName candidates) as [r|]; simpl.
  - destruct (checkValidRealm_ends r
                (mkSagaState (world s)
                   ((effects s ++ [Call (resolveCommsConnectionString_ realmName)])
                    ++ [Call (checkValidRealm_ r)])))
      as (es & Hrun & Hes).
    simpl in Hrun. rewrite Hrun.
    destruct (isValidRealm (world s) r) as [[|]|e]; simpl.
    + eexists. rewrite <- !app_assoc. split; [reflexivity|].
      simpl. exact Hes.
    + eexists. rewrite <- !app_assoc. split; [reflexivity|].
      simpl. rewrite scanned_app, Hes. reflexivity.
    + eexists. rewrite <- !app_assoc. split; [reflexivity|].
      simpl. exact Hes.
  - eexists. rewrite <- !app_assoc. split; reflexivity.
Qed.

Lemma getConfiguredRealm_quiet (candidates : list Candidate) (s : SagaState)
    (configured : option Realm) :
  configuredRealm (world s) candidates = Normal configured ->
  quietly (getConfiguredRealm candidates) s configured.
Proof.
  intros Hc. pose proof (getConfiguredRealm_ends candidates s) as Hends.
  now rewrite Hc in Hends.
Qed.

(** ** The three tiers *)

(** [selectRealm] up to the first tier, when the candidate cache is
    there. *)
Lemma selectRealm_with_cache (s : SagaState) (cached : list Candidate) :
  let w := world s in
  allCatalystCandidates w <> [] ->
  storedCandidates w !! getLastRealmCandidatesCacheKey (selectedNetwork w)
    = Some cached ->
  exists es,
    scanned es = false /\
    selectRealm s =
      match configuredRealm w (allCatalystCandidates w ++ cached) with
      | Normal (Some realm) => ret (Some realm)
      | Normal None =>
          bind (getStoredRealm (getLastRealmCacheKey (selectedNetwork w)))
            (fun cachedRealm =>
               match cachedRealm with
               | Some realm => ret (Some realm)
               | None =>
                   call pickCatalystRealm_
                     (pickCatalystRealm (allCatalystCandidates w))
               end)
      | Throw e => throw e
      end (mkSagaState w (effects s ++ es)).
Proof.
  intros w Hne Hcache. subst w. unfold selectRealm.
  unfold call at 1. unfold bind at 1 2. unfold effect at 1.
  rewrite waitForCandidates_ready by exact Hne.
  cbn [world effects].
  unfold bind at 1, select at 1. unfold bind at 1, select at 1.
  cbn [world effects].
  unfold bind at 1, getStoredCandidates, call, bind at 1, effect.
  cbn [world effects]. rewrite Hcache.
  unfold bind at 1, spread, ret at 1.
  unfold bind at 1. unfold bind at 1.
  match goal with
  | |- context [getConfiguredRealm ?cands ?st] =>
      destruct (getConfiguredRealm_ends cands st) as (es & Hrun & Hes);
      rewrite Hrun
  end.
  cbn [world effects] in *.
  eexists. split.
  2:{ destruct (configuredRealm _ _) as [[realm|]|e]; cbn [outcomeOf];
        rewrite <- ?app_assoc; reflexivity. }
  rewrite !scanned_app. rewrite Hes. reflexivity.
Qed.

(** First tier: a realm named in the query string that resolves among the
    candidates and is valid is returned; the cached realm is not read and
    the algorithm is not run. *)
Lemma selectRealm_query_parameter (w : World) (cached : list Candidate)
    (realmName : string) (realm : Realm) :
  allCatalystCandidates w <> [] ->
  storedCandidates w !! getLastRealmCandidatesCacheKey (selectedNetwork w)
    = Some cached ->
  qs_realm w = Some realmName ->
  truthy_string realmName = true ->
  resolveCommsConnectionString realmName (allCatalystCandidates w ++ cached)
    = Some realm ->
  isValidRealm w realm = Normal true ->
  fst (selectRealm (start w)) = Returned (Some realm) /\
  scanned (effects (snd (selectRealm (start w)))) = false.
Proof.
  intros Hne Hcache Hqs Htruthy Hresolve Hvalid.
  destruct (selectRealm_with_cache (start w) cached Hne Hcache)
    as (es & Hes & Hrun).
  rewrite Hrun. unfold configuredRealm. cbn [world start].
  rewrite Hqs, Htruthy, Hresolve, Hvalid. now split.
Qed.

(** Second tier: with no realm from the query string, the cached realm is
    returned as it is, and the algorithm is not run. *)
Lemma selectRealm_cached (w : World) (cached : list Candidate) (realm : Realm) :
  allCatalystCandidates w <> [] ->
  storedCandidates w !! getLastRealmCandidatesCacheKey (selectedNetwork w)
    = Some cached ->
  configuredRealm w (allCatalystCandidates w ++ cached) = Normal None ->
  storedRealms w !! getLastRealmCacheKey (selectedNetwork w) = Some realm ->
  fst (selectRealm (start w)) = Returned (Some realm) /\
  scanned (effects (snd (selectRealm (start w)))) = false.
Proof.
  intros Hne Hcache Hnone Hrealm.
  destruct (selectRealm_with_cache (start w) cached Hne Hcache)
    as (es & Hes & Hrun).
  rewrite Hrun. cbn [world start]. rewrite Hnone.
  unfold bind, getStoredRealm, call, bind, effect, ret. cbn [world effects].
  rewrite Hrealm. cbn [fst snd effects]. split; [reflexivity|].
  rewrite !scanned_app. rewrite Hes. reflexivity.
Qed.

(** C1. In a world whose query string names a realm that resolves among
    the candidates and is valid, and whose persistent storage has no cached
    candidate list, [selectRealm] throws a [TypeError] before any tier is
    looked at, where the realm of the query string was to be chosen. *)
Theorem selectRealm_throws_without_candidate_cache (w : World)
    (realmName : string) (realm : Realm) :
  allCatalystCandidates w <> [] ->
  qs_realm w = Some realmName ->
  truthy_string realmName = true ->
  resolveCommsConnectionString realmName (allCatalystCandidates w) = Some realm ->
  isValidRealm w realm = Normal true ->
  storedCandidates w !! getLastRealmCandidatesCacheKey (selectedNetwork w)
    = None ->
  fst (selectRealm (start w)) =
    Threw (TypeError "cachedCandidates is not iterable").
Proof.
  intros Hne _ _ _ _ Hcache. unfold selectRealm.
  unfold call at 1. unfold bind at 1 2. unfold effect at 1.
  rewrite waitForCandidates_ready by exact Hne.
  cbn [world effects start].
  unfold bind at 1, select at 1. unfold bind at 1, select at 1.
  cbn [world effects].
  unfold bind at 1, getStoredCandidates, call, bind at 1, effect.
  cbn [world effects]. rewrite Hcache.
  reflexivity.
Qed.

(** The third tier, from any point of a saga. *)
Lemma selectRealm_third_tier_run (s : SagaState) (cached : list Candidate)
    (realm : Realm) :
  let w := world s in
  allCatalystCandidates w <> [] ->
  storedCandidates w !! getLastRealmCandidatesCacheKey (selectedNetwork w)
    = Some cached ->
  configuredRealm w (allCatalystCandidates w ++ cached) = Normal None ->
  storedRealms w !! getLastRealmCacheKey (selectedNetwork w) = None ->
  algorithmPick w = Normal realm ->
  exists es,
    selectRealm s = (Returned None, mkSagaState w (effects s ++ es)) /\
    scanned es = true.
Proof.
  intros w Hne Hcache Hnone Hrealm Hpick.
  destruct (selectRealm_with_cache s cached Hne Hcache) as (es & Hes & Hrun).
  fold w in Hrun. rewrite Hrun, Hnone.
  unfold bind at 1, getStoredRealm, call, bind at 1, effect.
  cbn [world effects]. rewrite Hrealm.
  unfold pickCatalystRealm, call, bind, effect, select, ret, lift.
  cbn [world effects].
  unfold algorithmPick, chainConfig, userParcel in Hpick. rewrite Hpick.
  eexists. split; [rewrite <- !app_assoc; reflexivity|].
  rewrite !scanned_app. cbn. now rewrite !orb_true_r.
Qed.

(** C2. With no realm from the query string and no cached realm, the
    third tier runs the selection algorithm on the candidates and then
    returns no realm, whatever realm the algorithm gave. *)
Theorem selectRealm_third_tier_returns_no_realm (w : World)
    (cached : list Candidate) (realm : Realm) :
  allCatalystCandidates w <> [] ->
  storedCandidates w !! getLastRealmCandidatesCacheKey (selectedNetwork w)
    = Some cached ->
  configuredRealm w (allCatalystCandidates w ++ cached) = Normal None ->
  storedRealms w !! getLastRealmCacheKey (selectedNetwork w) = None ->
  algorithmPick w = Normal realm ->
  fst (selectRealm (start w)) = Returned None /\
  scanned (effects (snd (selectRealm (start w)))) = true.
Proof.
  intros Hne Hcache Hnone Hrealm Hpick.
  destruct (selectRealm_third_tier_run (start w) cached realm
              Hne Hcache Hnone Hrealm Hpick) as (es & -> & Hscan).
  now split.
Qed.

(** [selectAndReconnectRealm] outside the preview, up to the selection,
    when the store has candidates. *)
Lemma selectAndReconnectRealm_selects (w : World) :
  PREVIEW w = false ->
  allCatalystCandidates w <> [] ->
  selectAndReconnectRealm (start w) =
    try_catch
      (bind (call selectRealm_ selectRealm)
         (fun realm =>
            match realm with
            | Some realm =>
                bind (call waitForExplorerIdentity_
                        (ends waitForExplorerIdentity))
                  (fun _ =>
                     call (changeRealmObject_ realm)
                       (ends (changeRealmObject realm)))
            | None => throw noRealm
            end))
      (fun e =>
         bind (effect (ReportFatalErrorWithCatalystPayload e))
           (fun _ => bind (effect BringDownClientAndShowError)
                       (fun _ => throw e)))
      (mkSagaState w
         [Call waitForMetaConfigurationInitialization_;
          Put establishingComms;
          Select getAllCatalystCandidates]).
Proof.
  intros Hpreview Hne.
  unfold selectAndReconnectRealm.
  unfold call at 1, bind at 1 2, effect at 1, ret at 1.
  unfold bind at 1, put at 1. unfold bind at 1.
  cbn [world effects start reducer]. rewrite Hpreview. cbn [negb].
  unfold bind at 1, select at 1. cbn [world effects].
  assert (Hskip : forall (A : Type) (a b : A),
            match allCatalystCandidates w with [] => a | _ :: _ => b end = b)
    by (intros; destruct (allCatalystCandidates w); congruence).
  rewrite Hskip.
  unfold bind at 1, ret at 1. reflexivity.
Qed.

(** The caller then takes the session down, although the algorithm had a
    realm to give. *)
Lemma selectAndReconnectRealm_fatal (w : World) (cached : list Candidate)
    (realm : Realm) :
  PREVIEW w = false ->
  allCatalystCandidates w <> [] ->
  storedCandidates w !! getLastRealmCandidatesCacheKey (selectedNetwork w)
    = Some cached ->
  configuredRealm w (allCatalystCandidates w ++ cached) = Normal None ->
  storedRealms w !! getLastRealmCacheKey (selectedNetwork w) = None ->
  algorithmPick w = Normal realm ->
  fst (selectAndReconnectRealm (start w)) = Threw noRealm /\
  In BringDownClientAndShowError
    (effects (snd (selectAndReconnectRealm (start w)))).
Proof.
  intros Hpreview Hne Hcache Hnone Hrealm Hpick.
  assert (Hfull : exists es,
            selectAndReconnectRealm (start w)
              = (Threw noRealm, mkSagaState w es) /\
            In BringDownClientAndShowError es).
  { rewrite (selectAndReconnectRealm_selects w Hpreview Hne).
    unfold try_catch, call at 1, bind at 1 2, effect at 1.
    cbn [world effects].
    match goal with
    | |- context [selectRealm ?st] =>
        destruct (selectRealm_third_tier_run st cached realm
                    Hne Hcache Hnone Hrealm Hpick) as (es & Hrun & Hscan)
    end.
    cbn [world effects] in Hrun. rewrite Hrun.
    unfold throw, bind, effect. cbn [fst snd effects world].
    eexists. split; [reflexivity|].
    rewrite !in_app_iff. right. now left. }
  destruct Hfull as (es & -> & Hin). now split.
Qed.

(** ** Candidate initialization *)

Lemma array_filter_answers {A : Type} (pred : A -> Completion JsError bool)
    (l : list A) :
  Forall (fun a => exists answer, pred a = Normal answer) l ->
  array_filter pred l =
    Normal (List.filter
              (fun a => match pred a with
                        | Normal answer => answer
                        | Throw _ => false
                        end) l).
Proof.
  induction 1 as [|a l [answer Ha] _ IH]; [reflexivity|].
  cbn [array_filter List.filter]. rewrite Ha, IH. reflexivity.
Qed.

Lemma array_filter_throws {A : Type} (pred : A -> Completion JsError bool)
    (pre : list A) (a : A) (post : list A) (e : JsError) :
  Forall (fun a => exists answer, pred a = Normal answer) pre ->
  pred a = Throw e ->
  array_filter pred (pre ++ a :: post) = Throw e.
Proof.
  intros Hpre Ha. induction Hpre as [|b pre [answer Hb] _ IH].
  - cbn [app array_filter]. now rewrite Ha.
  - cbn [app array_filter]. now rewrite Hb, IH.
Qed.

Lemma filterCandidatesByCatalystVersion_run (candidates : list Candidate)
    (s : SagaState) :
  filterCandidatesByCatalystVersion candidates s =
    (outcomeOf (versionFilter (world s) candidates),
     mkSagaState (world s) (effects s ++ [Select getMinCatalystVersion])).
Proof.
  unfold filterCandidatesByCatalystVersion, versionFilter, bind, select, ret.
  cbn [world effects].
  destruct (minCatalystVersion (world s)) as [m|]; [|reflexivity].
  destruct (truthy_string m); [|reflexivity].
  unfold lift. now destruct (array_filter _ candidates).
Qed.

Lemma versionFilter_stored (w : World) (fetched added : list Candidate)
    (pending : list (list Candidate)) (l : list Candidate) :
  versionFilter (with_candidates fetched added pending w) l = versionFilter w l.
Proof. reflexivity. Qed.

(** [initializeCatalystCandidates] when the version of a fetched candidate
    cannot be compared. *)
Lemma initializeCatalystCandidates_filter_throws (w : World)
    (fetched : list Candidate) (e : JsError) :
  fetchCatalystRealms (catalystNodesEndpoint w) = Normal fetched ->
  truthy_opt_string (PIN_CATALYST w) = false ->
  versionFilter w fetched = Throw e ->
  initializeCatalystCandidates (start w) =
    (Threw e,
     mkSagaState w
       [Put catalystRealmsScanRequested;
        Select getCatalystNodesEndpoint;
        Call (fetchCatalystRealms_ (catalystNodesEndpoint w));
        Call filterCandidatesByCatalystVersion_;
        Select getMinCatalystVersion]).
Proof.
  intros Hfetch Hpin Hfilter. unfold initializeCatalystCandidates.
  unfold bind at 1, put at 1. cbn [world effects start reducer].
  unfold bind at 1, select at 1. cbn [world effects].
  unfold bind at 1, call at 1, bind at 1, effect at 1. cbn [world effects].
  rewrite Hfetch. unfold lift at 1, ret at 1.
  unfold bind at 1. cbn [world effects]. rewrite Hpin.
  unfold bind at 1, call at 1, bind at 1, effect at 1. cbn [world effects].
  rewrite filterCandidatesByCatalystVersion_run. cbn [world effects].
  rewrite Hfilter. reflexivity.
Qed.

(** [initializeCatalystCandidates] once it has the catalyst candidates to
    put: what becomes of the candidates of the added servers. *)
Lemma initializeCatalystCandidates_kept (w : World)
    (fetched kept : list Candidate) :
  fetchCatalystRealms (catalystNodesEndpoint w) = Normal fetched ->
  (if truthy_opt_string (PIN_CATALYST w) then Normal fetched
   else versionFilter w fetched) = Normal kept ->
  let pin := truthy_opt_string (PIN_CATALYST w) in
  let servers := if pin then [] else addedServers w in
  let before :=
    [Put catalystRealmsScanRequested;
     Select getCatalystNodesEndpoint;
     Call (fetchCatalystRealms_ (catalystNodesEndpoint w))] ++
    (if pin then []
     else [Call filterCandidatesByCatalystVersion_;
           Select getMinCatalystVersion]) ++
    [Put (setCatalystCandidates kept)] ++
    (if pin then [] else [Select getAddedServers]) ++
    [Call (fetchCatalystStatuses_ servers)] in
  initializeCatalystCandidates (start w) =
    match fetchCatalystStatuses servers with
    | Throw e =>
        (Threw e,
         mkSagaState
           (with_candidates kept (dao_addedCandidates w) (incoming w) w) before)
    | Normal added =>
        match versionFilter w added with
        | Throw e =>
            (Threw e,
             mkSagaState
               (with_candidates kept (dao_addedCandidates w) (incoming w) w)
               (before ++ [Call filterCandidatesByCatalystVersion_;
                           Select getMinCatalystVersion]))
        | Normal keptAdded =>
            (Returned tt,
             mkSagaState (with_candidates kept keptAdded (incoming w) w)
               (before ++ [Call filterCandidatesByCatalystVersion_;
                           Select getMinCatalystVersion;
                           Put (setAddedCatalystCandidates keptAdded)]))
        end
    end.
Proof.
  intros Hfetch Hkept pin servers before. subst before servers pin.
  unfold initializeCatalystCandidates.
  unfold bind at 1, put at 1. cbn [world effects start reducer].
  unfold bind at 1, select at 1. cbn [world effects].
  unfold bind at 1, call at 1, bind at 1, effect at 1. cbn [world effects].
  rewrite Hfetch. unfold lift at 1, ret at 1.
  unfold bind at 1. cbn [world effects].
  destruct (truthy_opt_string (PIN_CATALYST w)).
  - injection Hkept as <-.
    unfold bind at 1, ret at 1.
    unfold bind at 1, put at 1. cbn [world effects reducer].
    unfold bind at 1, ret at 1.
    unfold bind at 1, call at 1, bind at 1, effect at 1. cbn [world effects].
    destruct (fetchCatalystStatuses []) as [added|e]; [|reflexivity].
    unfold lift at 1, ret at 1.
    unfold bind at 1, call at 1, bind at 1, effect at 1. cbn [world effects].
    rewrite filterCandidatesByCatalystVersion_run. cbn [world effects].
    rewrite versionFilter_stored.
    destruct (versionFilter w added) as [keptAdded|e]; [|reflexivity].
    reflexivity.
  - unfold bind at 1, call at 1, bind at 1, effect at 1. cbn [world effects].
    rewrite filterCandidatesByCatalystVersion_run. cbn [world effects].
    rewrite Hkept. cbn [outcomeOf].
    unfold bind at 1, put at 1. cbn [world effects reducer].
    unfold bind at 1, select at 1.
    cbn [world effects addedServers with_candidates].
    unfold bind at 1, call at 1, bind at 1, effect at 1. cbn [world effects].
    destruct (fetchCatalystStatuses (addedServers w)) as [added|e];
      [|reflexivity].
    unfold lift at 1, ret at 1.
    unfold bind at 1, call at 1, bind at 1, effect at 1. cbn [world effects].
    rewrite filterCandidatesByCatalystVersion_run. cbn [world effects].
    rewrite versionFilter_stored.
    destruct (versionFilter w added) as [keptAdded|e]; [|reflexivity].
    reflexivity.
Qed.

Lemma versionFilter_answers (w : World) (m : string) (l : list Candidate) :
  minCatalystVersion w = Some m ->
  truthy_string m = true ->
  Forall (comparable m) l ->
  versionFilter w l = Normal (List.filter (atLeast m) l).
Proof.
  intros Hm Htruthy Hall. unfold versionFilter. rewrite Hm, Htruthy.
  now apply array_filter_answers.
Qed.

Lemma versionFilter_throws (w : World) (m : string)
    (pre : list Candidate) (c : Candidate) (post : list Candidate)
    (e : JsError) :
  minCatalystVersion w = Some m ->
  truthy_string m = true ->
  Forall (comparable m) pre ->
  gte (catalystVersion c) m = Throw e ->
  versionFilter w (pre ++ c :: post) = Throw e.
Proof.
  intros Hm Htruthy Hpre Hc. unfold versionFilter. rewrite Hm, Htruthy.
  now apply (array_filter_throws (fun c => gte (catalystVersion c) m)).
Qed.

Lemma atLeast_spec (m : string) (c : Candidate) :
  atLeast m c = true <-> gte (catalystVersion c) m = Normal true.
Proof.
  unfold atLeast. destruct (gte (catalystVersion c) m) as [[|]|e];
    split; congruence.
Qed.

(** C6. The candidates [initializeCatalystCandidates] puts into the store.
    With a minimum version configured and no pin: when the comparison with
    the minimum answers for every fetched candidate, those of the fetched
    candidates whose [catalystVersion] is [gte] the minimum, and only
    those, and likewise for the candidates of the added servers; when the
    comparison throws for a fetched candidate, the saga throws what it
    threw and puts no candidates at all.  With a pin, the fetched
    candidates unfiltered. *)
Theorem initializeCatalystCandidates_filters (w : World)
    (fetched : list Candidate) :
  fetchCatalystRealms (catalystNodesEndpoint w) = Normal fetched ->
  let r := initializeCatalystCandidates (start w) in
  let es := effects (snd r) in
  (truthy_opt_string (PIN_CATALYST w) = false ->
   forall m,
     minCatalystVersion w = Some m -> truthy_string m = true ->
     (Forall (comparable m) fetched ->
      candidatesPut es = [List.filter (atLeast m) fetched] /\
      (forall kept,
         In kept (candidatesPut es) ->
         forall c,
           In c kept <->
           In c fetched /\ gte (catalystVersion c) m = Normal true) /\
      (forall added,
         fetchCatalystStatuses (addedServers w) = Normal added ->
         Forall (comparable m) added ->
         fst r = Returned tt /\
         addedCandidatesPut es = [List.filter (atLeast m) added])) /\
     (forall pre c post e,
        fetched = pre ++ c :: post ->
        Forall (comparable m) pre ->
        gte (catalystVersion c) m = Throw e ->
        fst r = Threw e /\
        candidatesPut es = [] /\ addedCandidatesPut es = [])) /\
  (truthy_opt_string (PIN_CATALYST w) = true -> candidatesPut es = [fetched]).
Proof.
  intros Hfetch r es. split.
  - intros Hpin m Hm Htruthy. split.
    + intros Hall.
      pose proof (initializeCatalystCandidates_kept w fetched
                    (List.filter (atLeast m) fetched) Hfetch) as Hrun.
      rewrite Hpin in Hrun. cbv zeta in Hrun.
      specialize (Hrun (versionFilter_answers w m fetched Hm Htruthy Hall)).
      assert (Heq : candidatesPut es = [List.filter (atLeast m) fetched]).
      { subst es r. rewrite Hrun.
        destruct (fetchCatalystStatuses (addedServers w)) as [added|e];
          [destruct (versionFilter w added) as [keptAdded|e]|];
          reflexivity. }
      split; [exact Heq|]. split.
      * intros kept Hkept c. rewrite Heq in Hkept.
        destruct Hkept as [<-|[]]. rewrite filter_In, atLeast_spec.
        reflexivity.
      * intros added Hadded Hadd. subst es r. rewrite Hrun, Hadded.
        rewrite (versionFilter_answers w m added Hm Htruthy Hadd).
        now split.
    + intros pre c post e -> Hpre Hc. subst es r.
      rewrite (initializeCatalystCandidates_filter_throws w _ e Hfetch Hpin
                 (versionFilter_throws w m pre c post e Hm Htruthy Hpre Hc)).
      now split.
  - intros Hpin.
    pose proof (initializeCatalystCandidates_kept w fetched fetched Hfetch)
      as Hrun.
    rewrite Hpin in Hrun. cbv zeta in Hrun. specialize (Hrun eq_refl).
    subst es r. rewrite Hrun.
    destruct (fetchCatalystStatuses []) as [added|e];
      [destruct (versionFilter w added) as [keptAdded|e]|];
      reflexivity.
Qed.

End WithCollaborators.

End DaoFacts.

(** * The scenarios, run *)

Module ScenarioFacts.
Import Js DaoTypes PositionCodec Lighthouse Dao Scenario.
Import LighthouseFacts DaoFacts.

(** ** Realm selection *)

(** The query string names realm B, which is among the candidates and
    answers the ping, and realm A is the cached last realm; the candidate
    list has no entry in the persistent storage. *)
Lemma selectRealm_throws_without_candidate_cache_witness :
  fst (selectRealm (start queryWithoutCandidateCache)) =
    Threw (TypeError "cachedCandidates is not iterable").
Proof.
  apply (selectRealm_throws_without_candidate_cache queryWithoutCandidateCache
           "B" (realmOf candidateB));
    [discriminate | reflexivity | reflexivity | reflexivity | reflexivity
    | reflexivity].
Defined.

(** With the candidate list cached, realm B is chosen over the cached
    realm A, and the algorithm is not run. *)
Example selectRealm_query_parameter_example :
  fst (selectRealm (start queryWithCaches)) = Returned (Some (realmOf candidateB))
  /\ scanned (effects (snd (selectRealm (start queryWithCaches)))) = false.
Proof.
  apply (selectRealm_query_parameter queryWithCaches
           [candidateA; candidateB] "B" (realmOf candidateB));
    [discriminate | reflexivity | reflexivity | reflexivity | reflexivity
    | reflexivity].
Qed.

(** A realm name that resolves to no candidate is set aside with a warning
    and the cached realm A is returned. *)
Example selectRealm_unknown_query_parameter_example :
  let w :=
    mkWorld (Some "Z") None "mainnet" [candidateA; candidateB] [] []
      {[ realmKey := realmOf candidateA ]}
      {[ candidatesKey := [candidateA; candidateB] ]}
      None None None [] None false "" in
  fst (selectRealm (start w)) = Returned (Some (realmOf candidateA)) /\
  In (Warn "Provided realm is not valid: Z") (effects (snd (selectRealm (start w))))
  /\ scanned (effects (snd (selectRealm (start w)))) = false.
Proof. repeat split. vm_compute. tauto. Qed.

(** While the store has no candidate and none arrives, [selectRealm] does
    not return; it goes on when candidates arrive. *)
Example selectRealm_waits_for_candidates :
  fst (selectRealm (start firstStart)) = Blocked /\
  fst (selectRealm
         (start
            (with_candidates [] [] [[candidateA; candidateB]] cachedRealmOnly)))
  = Returned (Some (realmOf candidateA)).
Proof. split; reflexivity. Qed.

(** With no realm in the query string, the cached realm A is returned and
    the algorithm is not run. *)
Example selectRealm_cached_example :
  fst (selectRealm (start cachedRealmOnly)) = Returned (Some (realmOf candidateA))
  /\ scanned (effects (snd (selectRealm (start cachedRealmOnly)))) = false.
Proof.
  apply (selectRealm_cached cachedRealmOnly [candidateA; candidateB]);
    [discriminate | reflexivity | reflexivity | reflexivity].
Qed.

(** The caller then reports a fatal error and brings the client down. *)
Example selectAndReconnectRealm_fatal_example :
  fst (selectAndReconnectRealm (start candidatesOnly)) = Threw noRealm /\
  In BringDownClientAndShowError
    (effects (snd (selectAndReconnectRealm (start candidatesOnly)))).
Proof.
  apply (selectAndReconnectRealm_fatal candidatesOnly
           [candidateA; candidateB] (realmOf candidateA));
    [reflexivity | discriminate | reflexivity | reflexivity | reflexivity
    | reflexivity].
Qed.

(** With candidates A and B and nothing else, the algorithm has realm A to
    give and [selectRealm] returns no realm. *)
Lemma selectRealm_third_tier_witness :
  algorithmPick candidatesOnly = Normal (realmOf candidateA) /\
  fst (selectRealm (start candidatesOnly)) = Returned None /\
  scanned (effects (snd (selectRealm (start candidatesOnly)))) = true.
Proof.
  split; [reflexivity|].
  apply (selectRealm_third_tier_returns_no_realm candidatesOnly
           [candidateA; candidateB] (realmOf candidateA));
    [discriminate | reflexivity | reflexivity | reflexivity | reflexivity].
Defined.

(** Candidates A (1.0.0) and B (0.5.0) with a minimum version of 1.0.0:
    only A is put into the store, and both are when a catalyst is pinned.
    With versions 1.0 and 0.5 and a minimum of 1.0 the comparison throws
    and nothing is put. *)
Lemma initializeCatalystCandidates_filters_witness :
  candidatesPut (effects (snd (initializeCatalystCandidates (start firstStart))))
    = [[candidateA]] /\
  candidatesPut (effects (snd (initializeCatalystCandidates (start pinnedStart))))
    = [[candidateA; candidateB]] /\
  (fst (initializeCatalystCandidates (H := ShortVersionCollaborators)
          (start shortVersionStart))
     = Threw (invalidVersion "1.0") /\
   candidatesPut
     (effects
        (snd (initializeCatalystCandidates (H := ShortVersionCollaborators)
                (start shortVersionStart)))) = [] /\
   addedCandidatesPut
     (effects
        (snd (initializeCatalystCandidates (H := ShortVersionCollaborators)
                (start shortVersionStart)))) = []).
Proof.
  split; [|split].
  - destruct (initializeCatalystCandidates_filters firstStart
                [candidateA; candidateB]) as [Hfilter _]; [reflexivity|].
    destruct (Hfilter eq_refl "1.0.0") as [Hanswers _]; [reflexivity..|].
    destruct Hanswers as [Hkept _];
      [repeat constructor; eexists; reflexivity|].
    exact Hkept.
  - destruct (initializeCatalystCandidates_filters pinnedStart
                [candidateA; candidateB]) as [_ Hpinned]; [reflexivity|].
    apply Hpinned. reflexivity.
  - destruct (initializeCatalystCandidates_filters
                (H := ShortVersionCollaborators) shortVersionStart
                [shortA; shortB]) as [Hfilter _]; [reflexivity|].
    destruct (Hfilter eq_refl "1.0") as [_ Hthrows]; [reflexivity..|].
    apply (Hthrows [] shortA [shortB]); [reflexivity | constructor
                                        | reflexivity].
Defined.

(** Candidates A (1.0) and B (0.5) with a minimum version of 1.0 and no
    pin: the comparison of the versions throws on the first candidate, the
    scan throws with it and no candidate list is put, where a list with A
    and without B was to be. *)
Lemma two_number_versions_stop_the_scan :
  fetchCatalystRealms (Collaborators := ShortVersionCollaborators)
    (catalystNodesEndpoint shortVersionStart) = Normal [shortA; shortB] /\
  minCatalystVersion shortVersionStart = Some "1.0" /\
  truthy_opt_string (PIN_CATALYST shortVersionStart) = false /\
  fst (initializeCatalystCandidates (H := ShortVersionCollaborators)
         (start shortVersionStart))
    = Threw (TypeError "Invalid Version: 1.0") /\
  candidatesPut
    (effects
       (snd (initializeCatalystCandidates (H := ShortVersionCollaborators)
               (start shortVersionStart)))) = [] /\
  candidatesPut
    (effects
       (snd (initializeCatalystCandidates (H := ShortVersionCollaborators)
               (start shortVersionStart)))) <> [[shortA]].
Proof. repeat split. discriminate. Qed.

(** ** The connection *)

(** A send to a room that was just left resolves; a send that times out
    rejects with the timeout. *)
Lemma sendData_swallows_room_not_joined_witness :
  fst (sendData "scene-1" (MScene (mkSceneData "scene-1" "ping"))
         commsMessageType (connectionOn racingPeer)) = Normal tt /\
  fst (sendData "scene-1" (MScene (mkSceneData "scene-1" "ping"))
         commsMessageType (connectionOn brokenPeer)) = Throw timeoutError.
Proof.
  split.
  - destruct (sendData_swallows_room_not_joined
                (connectionOn racingPeer) racingPeer racingPeer "scene-1"
                (MScene (mkSceneData "scene-1" "ping")) commsMessageType
                roomNotJoinedError) as [Hswallow _];
      [reflexivity | intros commsMessage _; reflexivity |].
    apply Hswallow. eexists. split; reflexivity.
  - destruct (sendData_swallows_room_not_joined
                (connectionOn brokenPeer) brokenPeer brokenPeer "scene-1"
                (MScene (mkSceneData "scene-1" "ping")) commsMessageType
                timeoutError) as [_ Hrethrow];
      [reflexivity | intros commsMessage _; reflexivity |].
    apply Hrethrow. intros text [= <-]. reflexivity.
Defined.

(** [connect] with live peers, against a full realm and against a transport
    that times out. *)
Lemma connect_outcomes_witness :
  connect (connectionOn livePeer) =
    (Normal true,
     with_trace [StatusReported (mkCommsStatus connected 2) (Some 2)]
       (connectionOn livePeer)) /\
  (exists s,
     fst (connect (connectionOn fullPeer)) = Throw layerIsFullError /\
     trace (snd (connect (connectionOn fullPeer))) =
       [PeerCalled (CallAwaitConnectionEstablished 60000);
        DefaultLoggerError layerIsFullError;
        StatusReported (mkCommsStatus s 0) (Some 0)] /\
     s = realm_full) /\
  (exists s,
     fst (connect (connectionOn unreachablePeer)) = Throw timeoutError /\
     s = error).
Proof.
  split; [|split].
  - destruct (connect_outcomes (connectionOn livePeer) livePeer)
      as [Hlive _]; [reflexivity|].
    apply Hlive. discriminate.
  - destruct (connect_outcomes (connectionOn fullPeer) fullPeer)
      as [_ Hfail]; [reflexivity|].
    destruct (Hfail layerIsFullError fullPeer)
      as (s & Hthrow & Htrace & Hfull & _); [reflexivity..|].
    exists s. split; [exact Hthrow|]. split; [exact Htrace|].
    apply Hfull. eexists. split; reflexivity.
  - destruct (connect_outcomes (connectionOn unreachablePeer) unreachablePeer)
      as [_ Hfail]; [reflexivity|].
    destruct (Hfail timeoutError unreachablePeer)
      as (s & Hthrow & _ & _ & Herror); [reflexivity..|].
    exists s. split; [exact Hthrow|].
    apply Herror. intros (r & [=] & _).
Defined.

(** The in-memory transport keeps its rooms as the connection expects. *)
#[export] Instance SimplePeer_LawfulRooms : LawfulRooms (P := SimplePeer).
Proof.
  split.
  - intros room p p' [= <-]. exists (RoomId room). split.
    + simpl. apply String.eqb_refl.
    + intros x. simpl. rewrite in_app_iff. simpl. intuition congruence.
  - intros room p p' [= <-] x. simpl. rewrite filter_In.
    unfold notRoomId. destruct x as [id|id].
    + destruct (String.eqb_spec id room) as [->|Hne]; simpl.
      * intuition congruence.
      * intuition congruence.
    + intuition congruence.
Qed.

(** From rooms [old-island] and [lobby] to [lobby] and [island-1]: one join
    and one leave, and nothing the second time. *)
Lemma setTopics_idempotent_witness :
  let c1 := snd (setTopics ["lobby"; "island-1"] (connectionOn livePeer)) in
  roomCalls (trace c1) =
    [PeerCalled (CallJoinRoom "island-1"); PeerCalled (CallLeaveRoom "old-island")]
  /\ setTopics ["lobby"; "island-1"] c1 = (Normal tt, c1)
  /\ roomCalls (newEvents c1 (snd (setTopics ["lobby"; "island-1"] c1))) = [].
Proof.
  split; [reflexivity|].
  apply (setTopics_idempotent ["lobby"; "island-1"] (connectionOn livePeer)).
  reflexivity.
Defined.

(** A scene message from peer [0xdef] reaches the scene message handler
    with type [chat]. *)
Lemma scene_message_delivered_as_chat_witness :
  let packet := [3%N] in
  let c := connectionOn livePeer in
  kindOf (sampleMessage 3) = Some scene /\
  handlersInvoked (newEvents c (snd (peerCallback "0xdef" "scene-1" packet 0 c)))
  = [(sceneMessageHandler,
      mkPackage "0xdef" sampleTime chat (BusMessage "scene-1" "ping"))].
Proof.
  apply (scene_message_delivered_as_chat (connectionOn livePeer) "0xdef"
           "scene-1" [3%N] 0 (mkCommsMessage sampleTime (sampleMessage 3))
           (mkSceneData "scene-1" "ping"));
    reflexivity.
Defined.

(** A chat message is delivered with type [chat] too. *)
Example chat_message_delivered_as_chat :
  handlersInvoked
    (trace (snd (peerCallback "0xdef" "island-1" [1%N] 0 (connectionOn livePeer))))
  = [(chatHandler, mkPackage "0xdef" sampleTime chat (ChatMessage "m1" "hello"))].
Proof. reflexivity. Qed.

(** A profile response whose serialized profile is not JSON has a known
    discriminant and reaches no handler: "exactly one handler for a
    recognized kind" does not hold of every packet. *)
Lemma unparsable_profile_response_reaches_no_handler :
  ~ (forall (c : Connection SimplePeer string) (sender room : string)
       (payload : Uint8Array) (sequenceId : Z) (msg : CommsMessage)
       (h : Handler),
       deserializeBinary payload = Normal msg ->
       handlerOf (data msg) = Some h ->
       exists pkg,
         handlersInvoked
           (newEvents c (snd (peerCallback sender room payload sequenceId c)))
         = [(h, pkg)]).
Proof.
  intros Hclaim.
  destruct (Hclaim (connectionOn livePeer) "0xdef" "island-1" [8%N] 0%Z
              (mkCommsMessage sampleTime (sampleMessage 8))
              profileResponseHandler eq_refl eq_refl) as (pkg & Hpkg).
  vm_compute in Hpkg. discriminate Hpkg.
Qed.

(** A profile response that parses, a packet of no known kind and a packet
    that does not decode. *)
Lemma peerCallback_at_most_one_handler_witness :
  let c := connectionOn livePeer in
  (exists pkg,
     handlersInvoked (newEvents c (snd (peerCallback "0xdef" "island-1" [7%N] 0 c)))
     = [(profileResponseHandler, pkg)]) /\
  newEvents c (snd (peerCallback "0xdef" "island-1" [9%N] 0 c))
    = [LoggerWarn DATA_NOT_SET] /\
  fst (peerCallback "0xdef" "island-1" [] 0 c) = Normal tt.
Proof.
  intros c. split; [|split].
  - destruct (peerCallback_at_most_one_handler c "0xdef" "island-1" [7%N] 0)
      as (_ & _ & _ & _ & _ & Hone & _).
    apply (Hone (mkCommsMessage sampleTime (sampleMessage 7)));
      [reflexivity | reflexivity |].
    exists "{}". reflexivity.
  - destruct (peerCallback_at_most_one_handler c "0xdef" "island-1" [9%N] 0)
      as (_ & _ & _ & _ & Hunknown & _).
    apply (Hunknown (mkCommsMessage sampleTime (sampleMessage 9)));
      reflexivity.
  - destruct (peerCallback_at_most_one_handler c "0xdef" "island-1" [] 0)
      as (Hreturns & _).
    exact Hreturns.
Defined.

(** The reports of a realm change against a full realm and of a connect
    with live peers. *)
Lemma status_reports_carry_transport_count_witness :
  faithful (connectionOn fullPeer) /\
  faithful (snd (changeRealm sampleRealm "https://peer.example.org/comms"
                   (connectionOn fullPeer))) /\
  faithful (snd (connect (connectionOn livePeer))).
Proof.
  split; [constructor|]. split.
  - destruct (status_reports_carry_transport_count (connectionOn fullPeer))
      as (_ & Hchange & _); [constructor|].
    apply Hchange.
  - destruct (status_reports_carry_transport_count (connectionOn livePeer))
      as (Hconnect & _); [constructor|].
    exact Hconnect.
Defined.

End ScenarioFacts.

(** * More on the connection *)

Module LighthouseMore.
Import Js DaoTypes PositionCodec PositionDelivery.
Import Lighthouse LighthouseSends LighthouseFacts.

Section WithCollaborators.
Context {P Profile : Type} `{CatalystPeer P} `{Helpers Profile}.

Local Abbreviation steady := (@LighthouseSends.steady P Profile _).

(** ** What a method leaves alone *)

Lemma settled_refl (c : Connection P Profile) : settled c c.
Proof. repeat split. exists []. now rewrite app_nil_r. Qed.

Lemma settled_trans (c1 c2 c3 : Connection P Profile) :
  settled c1 c2 -> settled c2 c3 -> settled c1 c3.
Proof.
  intros (Hr & Hi & Hre & Hu & Hp & Hh & Hc & evs & Ht)
         (Hr' & Hi' & Hre' & Hu' & Hp' & Hh' & Hc' & evs' & Ht').
  repeat split; try congruence.
  exists (evs ++ evs'). rewrite Ht', Ht. now rewrite app_assoc.
Qed.

Lemma steady_ret {A : Type} (a : A) : steady (ret a).
Proof. intros c. apply settled_refl. Qed.

Lemma steady_throw {A : Type} (e : JsError) : steady (throw (A := A) e).
Proof. intros c. apply settled_refl. Qed.

Lemma steady_get : steady get.
Proof. intros c. apply settled_refl. Qed.

Lemma steady_bind {A B : Type} (m : M A) (k : A -> M B) :
  steady m -> (forall a, steady (k a)) -> steady (bind m k).
Proof.
  intros Hm Hk c. unfold bind. specialize (Hm c).
  destruct (m c) as [[a|e] c']; simpl in *; [|exact Hm].
  eapply settled_trans; [exact Hm | apply Hk].
Qed.

Lemma steady_try_catch {A : Type} (m : M A) (handler : JsError -> M A) :
  steady m -> (forall e, steady (handler e)) -> steady (try_catch m handler).
Proof.
  intros Hm Hh c. unfold try_catch. specialize (Hm c).
  destruct (m c) as [[a|e] c']; simpl in *; [exact Hm|].
  eapply settled_trans; [exact Hm | apply Hh].
Qed.

Lemma steady_settle {A : Type} (m : M A) : steady m -> steady (settle m).
Proof.
  intros Hm c. unfold settle. specialize (Hm c). now destruct (m c).
Qed.

Lemma steady_mapM {A B : Type} (f : A -> M B) (l : list A) :
  (forall a, steady (f a)) -> steady (mapM f l).
Proof.
  intros Hf. induction l as [|a l IH]; simpl.
  - apply steady_ret.
  - apply steady_bind; [apply Hf|]. intros b.
    apply steady_bind; [apply IH|]. intros bs. apply steady_ret.
Qed.

Lemma steady_emit (ev : Event Profile) : steady (emit ev).
Proof. intros c. unfold emit; simpl. repeat split. now exists [ev]. Qed.

Lemma steady_statusHandler (s : CommsStatus) : steady (statusHandler s).
Proof. intros c. unfold statusHandler; simpl. repeat split. eauto. Qed.

Lemma steady_connectedPeersCount : steady connectedPeersCount.
Proof. intros c. apply settled_refl. Qed.

Lemma steady_onPeer {A : Type} (call : PeerCall)
    (f : P -> Completion JsError A * P) : steady (onPeer call f).
Proof.
  intros c. unfold onPeer. destruct (peer c) as [p|]; [|apply settled_refl].
  destruct (f p) as [r p']. simpl. repeat split. eauto.
Qed.

Lemma steady_readPeer {A : Type} (f : P -> A) : steady (readPeer f).
Proof.
  intros c. unfold readPeer. destruct (peer c); apply settled_refl.
Qed.

Lemma steady_invoke (h : Handler) (pkg : Package Profile) : steady (invoke h pkg).
Proof. intros c. unfold invoke; simpl. repeat split. eauto. Qed.

Lemma steady_with_peer (p : option P) :
  steady (fun c => (Normal tt, with_peer p c)).
Proof. intros c. simpl. repeat split. exists []. now rewrite app_nil_r. Qed.

Lemma steady_notifyIslandChange : steady notifyIslandChange.
Proof.
  intros c. unfold notifyIslandChange.
  destruct (onIslandChange c) as [answer|]; [|apply settled_refl].
  simpl. repeat split. eauto.
Qed.

Ltac steady_step :=
  first
    [ apply steady_ret
    | apply steady_notifyIslandChange
    | apply steady_throw
    | apply steady_get
    | apply steady_emit
    | apply steady_statusHandler
    | apply steady_connectedPeersCount
    | apply steady_onPeer
    | apply steady_readPeer
    | apply steady_invoke
    | apply steady_with_peer
    | apply steady_settle
    | apply steady_mapM; intros ?
    | apply steady_try_catch; [| intros ?]
    | apply steady_bind; [| intros ?]
    | match goal with
      | |- LighthouseSends.steady (if ?b then _ else _) => destruct b
      | |- LighthouseSends.steady (match ?x with _ => _ end) => destruct x
      end ].

Lemma steady_connect : steady connect.
Proof. unfold connect. repeat steady_step. Qed.

Lemma steady_syncRoomsWithPeer : steady syncRoomsWithPeer.
Proof. unfold syncRoomsWithPeer, Promise_all. repeat steady_step. Qed.

Lemma bind_normal {A B : Type} (m : M A) (k : A -> M B)
    (c c1 : Connection P Profile) (a : A) :
  m c = (Normal a, c1) -> bind m k c = k a c1.
Proof. intros Hm. unfold bind. now rewrite Hm. Qed.

Lemma bind_assoc {A B C : Type} (m : M A) (f : A -> M B) (g : B -> M C)
    (c : Connection P Profile) :
  bind (bind m f) g c = bind m (fun a => bind (f a) g) c.
Proof. unfold bind. now destruct (m c) as [[a|e] c']. Qed.

Ltac reassoc :=
  repeat match goal with
    | |- context [bind (bind ?m ?f) ?g ?c] => rewrite (bind_assoc m f g c)
    end.

Ltac steady_all :=
  repeat first
    [ apply steady_connect
    | apply steady_syncRoomsWithPeer
    | steady_step ].

(** ** Connecting and changing realm *)

(** With no live peer connection, [connect] awaits the transport for
    60 seconds; when establishment succeeds it reports [connected] with the
    count the transport has after establishment, keeps the established
    transport and resolves to [true]. *)
Theorem connect_awaits_then_reports (c : Connection P Profile) (p p' : P) :
  peer c = Some p ->
  connectedCount p = 0 ->
  awaitConnectionEstablished 60000 p = (Normal tt, p') ->
  connect c =
    (Normal true,
     with_trace
       (trace c ++
        [PeerCalled (CallAwaitConnectionEstablished 60000);
         StatusReported (mkCommsStatus connected (connectedCount p'))
           (Some (connectedCount p'))])
       (with_peer (Some p') c)).
Proof.
  intros Hpeer Hzero Hawait.
  unfold connect, try_catch, bind, readPeer, connectedPeersCount,
    statusHandler, ret, onPeer.
  rewrite Hpeer, Hzero. simpl. rewrite Hpeer, Hawait. simpl.
  unfold with_trace, with_peer. simpl. now rewrite <- app_assoc.
Qed.

(** X1. When the teardown of the current transport is rejected,
    [changeRealm] rejects with the same error after reporting [connecting]:
    the new realm and url are not recorded and no transport is built. *)
Theorem changeRealm_aborts_when_dispose_rejects (c : Connection P Profile)
    (p p' : P) (e : JsError) (r : Realm) (url : string) :
  peer c = Some p ->
  dispose p = (Throw e, p') ->
  changeRealm r url c =
    (Throw e,
     with_peer (Some p')
       (with_trace
          (trace c ++
           [StatusReported (mkCommsStatus connecting (connectedCount p))
              (Some (connectedCount p));
            PeerCalled CallDispose]) c)).
Proof.
  intros Hpeer Hdispose.
  unfold changeRealm, bind, connectedPeersCount, statusHandler, get,
    cleanUpPeer, onPeer.
  simpl. rewrite Hpeer. simpl. rewrite Hpeer, Hdispose. simpl.
  unfold with_trace, with_peer. simpl. now rewrite <- app_assoc.
Qed.

Lemma notifyIslandChange_run {A : Type} (k : unit -> M A)
    (c : Connection P Profile) :
  bind notifyIslandChange k c =
    match onIslandChange c with
    | Some (Normal _) => k tt (with_trace (trace c ++ [IslandChangeNotified]) c)
    | Some (Throw e) =>
        (Throw e, with_trace (trace c ++ [IslandChangeNotified]) c)
    | None => k tt c
    end.
Proof.
  unfold bind, notifyIslandChange.
  now destruct (onIslandChange c) as [[[]|e]|].
Qed.

(** What [changeRealm] does once the island change was notified: a
    [connecting] report with the count of the transport still in place, then
    the construction of a transport for the recorded url. *)
Lemma changeRealm_rebuild (c0 : Connection P Profile) (p' : P) :
  peer c0 = Some p' ->
  let c' :=
    snd (bind initializePeer
           (fun _ => bind connect (fun _ => syncRoomsWithPeer)) c0) in
  realm c' = realm c0 /\ lighthouseUrl c' = lighthouseUrl c0 /\
  rooms c' = rooms c0 /\
  exists rest,
    trace c' =
      trace c0 ++
      [StatusReported (mkCommsStatus connecting (connectedCount p'))
         (Some (connectedCount p'));
       PeerCalled
         (CallNewPeer (lighthouseUrl c0)
            (if Z.eqb (compareVersions "0.1" (lighthouseVersion (realm c0)))
                      (-1)
             then None else Some (peerId c0)))] ++ rest.
Proof.
  intros Hpeer c'. subst c'.
  unfold initializePeer. reassoc.
  erewrite bind_normal by reflexivity.
  reassoc. erewrite bind_normal by reflexivity.
  unfold createPeer. reassoc.
  erewrite bind_normal by reflexivity.
  reassoc. erewrite bind_normal by reflexivity.
  reassoc. erewrite bind_normal by reflexivity.
  reassoc. erewrite bind_normal by reflexivity.
  cbn [with_realm with_peer with_trace peer rooms peerId realm lighthouseUrl
       preferedIslandId onIslandChange handlers clock trace option_map].
  rewrite Hpeer. cbn [option_map].
  match goal with
  | |- context [snd (?tail ?c2)] =>
      assert (Hsteady : steady tail) by steady_all;
      destruct (Hsteady c2) as (Hr & _ & Hre & Hu & _ & _ & _ & evs & Ht)
  end.
  cbn [rooms realm lighthouseUrl trace] in Hr, Hre, Hu, Ht.
  split; [exact Hre|]. split; [exact Hu|]. split; [exact Hr|].
  exists evs. rewrite Ht.
  cbn [trace with_peer with_trace with_realm].
  rewrite <- !app_assoc. reflexivity.
Qed.

(** X2. When the teardown resolves, [changeRealm] records the new realm
    and url and keeps the desired rooms.  Its first steps are, in order: the
    [connecting] report, the disposal of the old transport, the call of the
    [onIslandChange] handler when one is configured and none otherwise, the
    [connecting] report of [initializePeer] (still with the count of the
    disposed transport) and the construction of a transport for the new
    url, with the peer id withheld exactly when the new realm's lighthouse
    version is above 0.1.  When the handler throws, [changeRealm] rejects
    with what it threw, right after the call: the disposed transport stays
    and no transport is built. *)
Theorem changeRealm_rebuilds_transport (c : Connection P Profile)
    (p p' : P) (r : Realm) (url : string) :
  peer c = Some p ->
  dispose p = (Normal tt, p') ->
  let c' := snd (changeRealm r url c) in
  let torn :=
    [StatusReported (mkCommsStatus connecting (connectedCount p))
       (Some (connectedCount p));
     PeerCalled CallDispose] in
  let rebuilt :=
    [StatusReported (mkCommsStatus connecting (connectedCount p'))
       (Some (connectedCount p'));
     PeerCalled
       (CallNewPeer url
          (if Z.eqb (compareVersions "0.1" (lighthouseVersion r)) (-1)
           then None else Some (peerId c)))] in
  realm c' = r /\ lighthouseUrl c' = url /\ rooms c' = rooms c /\
  match onIslandChange c with
  | None =>
      exists rest, newEvents c c' = torn ++ rebuilt ++ rest
  | Some (Normal _) =>
      exists rest,
        newEvents c c' = torn ++ [IslandChangeNotified] ++ rebuilt ++ rest
  | Some (Throw e) =>
      fst (changeRealm r url c) = Throw e /\
      peer c' = Some p' /\
      newEvents c c' = torn ++ [IslandChangeNotified]
  end.
Proof.
  intros Hpeer Hdispose c' torn rebuilt.
  assert (Hrun : changeRealm r url c =
            bind notifyIslandChange
              (fun _ =>
                 bind initializePeer
                   (fun _ => bind connect (fun _ => syncRoomsWithPeer)))
              (with_realm r url
                 (with_peer (Some p') (with_trace (trace c ++ torn) c)))).
  { unfold changeRealm.
    erewrite bind_normal by reflexivity.
    erewrite bind_normal by reflexivity.
    erewrite bind_normal by reflexivity.
    cbn [peer with_trace]. rewrite Hpeer.
    erewrite bind_normal
      by (unfold cleanUpPeer, onPeer; cbn [peer with_trace];
          rewrite Hpeer, Hdispose; reflexivity).
    erewrite bind_normal by reflexivity.
    subst torn. f_equal. unfold with_realm, with_peer, with_trace.
    cbn [peer rooms peerId realm lighthouseUrl preferedIslandId
         onIslandChange handlers clock trace].
    now rewrite <- app_assoc. }
  subst c'. rewrite Hrun, notifyIslandChange_run.
  cbn [with_realm with_peer with_trace peer rooms peerId realm lighthouseUrl
       preferedIslandId onIslandChange handlers clock trace].
  destruct (onIslandChange c) as [[[]|e]|].
  - match goal with
    | |- context [snd (bind initializePeer ?k ?c0)] =>
        destruct (changeRealm_rebuild c0 p' eq_refl)
          as (Hre & Hu & Hr & rest & Ht)
    end.
    cbn [rooms realm lighthouseUrl peerId trace with_realm with_peer
         with_trace] in Hr, Hre, Hu, Ht.
    split; [exact Hre|]. split; [exact Hu|]. split; [exact Hr|].
    exists rest. apply newEvents_app. rewrite Ht.
    subst rebuilt. rewrite <- !app_assoc. reflexivity.
  - cbn [fst snd realm lighthouseUrl rooms peer].
    repeat split.
    apply newEvents_app. cbn [trace].
    rewrite <- !app_assoc. reflexivity.
  - match goal with
    | |- context [snd (bind initializePeer ?k ?c0)] =>
        destruct (changeRealm_rebuild c0 p' eq_refl)
          as (Hre & Hu & Hr & rest & Ht)
    end.
    cbn [rooms realm lighthouseUrl peerId trace with_realm with_peer
         with_trace] in Hr, Hre, Hu, Ht.
    split; [exact Hre|]. split; [exact Hu|]. split; [exact Hr|].
    exists rest. apply newEvents_app. rewrite Ht.
    subst rebuilt. rewrite <- !app_assoc. reflexivity.
Qed.

(** ** Reconciling the rooms *)

Lemma joining_calls (cur0 : list RoomEntry) (L : list string) :
  forall (c : Connection P Profile) (pa : P),
    peer c = Some pa ->
    exists outs pb,
      mapM (joinStep cur0) L c =
        (Normal outs,
         with_peer (Some pb)
           (with_trace
              (trace c ++
               map (fun room => PeerCalled (CallJoinRoom room))
                 (missingRooms L cur0)) c)).
Proof.
  induction L as [|room L IH]; intros c pa Hpa; simpl.
  - exists [], pa. unfold ret. rewrite app_nil_r. f_equal.
    destruct c; simpl in *. now subst.
  - unfold bind at 1. unfold joinStep at 1. unfold missingRooms. simpl.
    destruct (existsb (fun current => isSameRoom room current) cur0) eqn:Hex;
      simpl.
    + destruct (IH c pa Hpa) as (outs & pb & Hrun).
      unfold bind at 1. rewrite Hrun. simpl. now exists (Normal tt :: outs), pb.
    + unfold settle, onPeer. rewrite Hpa.
      destruct (joinRoom room pa) as [o p1] eqn:Hjoin. simpl.
      set (c1 := with_peer (Some p1)
                   (with_trace (trace c ++ [PeerCalled (CallJoinRoom room)]) c)).
      destruct (IH c1 p1 eq_refl) as (outs & pb & Hrun).
      unfold bind at 1. rewrite Hrun. simpl. exists (o :: outs), pb.
      unfold ret. f_equal. subst c1. unfold with_peer, with_trace. simpl.
      now rewrite <- app_assoc.
Qed.

Lemma leaving_calls (X : list string) (K : list RoomEntry) :
  forall (c : Connection P Profile) (pb : P),
    peer c = Some pb ->
    exists outs pc,
      mapM (leaveStep X) K c =
        (Normal outs,
         with_peer (Some pc)
           (with_trace
              (trace c ++
               map (fun id => PeerCalled (CallLeaveRoom id))
                 (staleRoomIds X K)) c)).
Proof.
  induction K as [|current K IH]; intros c pb Hpb; simpl.
  - exists [], pb. unfold ret. rewrite app_nil_r. f_equal.
    destruct c; simpl in *. now subst.
  - unfold bind at 1. unfold leaveStep at 1. unfold staleRoomIds. simpl.
    destruct (existsb (fun room => isSameRoom room current) X) eqn:Hex;
      simpl; [|destruct current as [id|id]].
    + destruct (IH c pb Hpb) as (outs & pc & Hrun).
      unfold bind at 1. rewrite Hrun. simpl. now exists (Normal tt :: outs), pc.
    + unfold settle, onPeer. rewrite Hpb.
      destruct (leaveRoom id pb) as [o p1] eqn:Hleave. simpl.
      set (c1 := with_peer (Some p1)
                   (with_trace (trace c ++ [PeerCalled (CallLeaveRoom id)]) c)).
      destruct (IH c1 p1 eq_refl) as (outs & pc & Hrun).
      unfold bind at 1. rewrite Hrun. simpl. exists (o :: outs), pc.
      unfold ret. f_equal. subst c1. unfold with_peer, with_trace. simpl.
      now rewrite <- app_assoc.
    + simpl. destruct (IH c pb Hpb) as (outs & pc & Hrun).
      unfold bind at 1. rewrite Hrun. simpl. now exists (Normal tt :: outs), pc.
Qed.

(** X3. [setTopics(X)] records [X] and calls the transport once for every
    desired room that has no entry among the transport's rooms as they were
    at the start, to join it, and then once for every room id among them
    that no desired room matches, to leave it: in this order, whatever the
    outcomes of the calls, and it does nothing else. *)
Theorem setTopics_room_calls (X : list string) (c : Connection P Profile)
    (p : P) :
  peer c = Some p ->
  let c' := snd (setTopics X c) in
  rooms c' = X /\
  newEvents c c' =
    map (fun room => PeerCalled (CallJoinRoom room))
      (missingRooms X (currentRooms p)) ++
    map (fun id => PeerCalled (CallLeaveRoom id))
      (staleRoomIds X (currentRooms p)).
Proof.
  intros Hpeer c'.
  set (c0 := with_rooms X c).
  assert (Hp0 : peer c0 = Some p) by exact Hpeer.
  destruct (joining_calls (currentRooms p) X c0 p Hp0) as (outs1 & pb & Hrun1).
  match type of Hrun1 with _ = (_, ?x) => set (cb := x) in * end.
  destruct (leaving_calls X (currentRooms p) cb pb eq_refl)
    as (outs2 & pc & Hrun2).
  match type of Hrun2 with _ = (_, ?x) => set (cc := x) in * end.
  assert (Hrun : c' = cc).
  { subst c'. rewrite setTopics_eq. fold c0.
    rewrite (syncRoomsWithPeer_unfold c0 p Hp0).
    change (rooms c0) with X.
    unfold bind at 1. rewrite Hrun1.
    unfold bind at 1. rewrite Hrun2.
    unfold Promise_all. now destruct (find _ _) as [[|]|]. }
  rewrite Hrun. split; [reflexivity|].
  apply newEvents_app. subst cc cb c0.
  cbn [trace with_peer with_trace with_rooms]. now rewrite <- app_assoc.
Qed.

Context {lawful : @LawfulRooms P _}.

(** What a room synchronisation that resolves leaves behind. *)
Lemma syncRoomsWithPeer_reconciles (c : Connection P Profile) (p : P) :
  peer c = Some p ->
  fst (syncRoomsWithPeer c) = Normal tt ->
  exists pc,
    peer (snd (syncRoomsWithPeer c)) = Some pc /\
    (forall room, In room (rooms c) ->
       exists e, In e (currentRooms pc) /\ isSameRoom room e = true) /\
    (forall id, In (RoomId id) (currentRooms pc) -> In id (rooms c)) /\
    (forall id, In (RoomObject id) (currentRooms p) ->
                In (RoomObject id) (currentRooms pc)).
Proof.
  intros Hp0.
  destruct (joining_run (currentRooms p) (rooms c) c p Hp0)
    as (outs1 & cb & pb & Hrun1 & Hpb & Hroomsb & Hprops1).
  destruct (leaving_run (rooms c) (currentRooms p) cb pb Hpb)
    as (outs2 & cc & pc & Hrun2 & Hpc & Hroomsc & Hprops2).
  rewrite (syncRoomsWithPeer_unfold c p Hp0).
  unfold bind at 1 3. rewrite Hrun1.
  unfold bind at 1 2. rewrite Hrun2.
  intros Hfirst. pose proof Hfirst as Hall.
  apply Promise_all_inv in Hall.
  rewrite Promise_all_resolved by exact Hall.
  apply Forall_app in Hall as [Hall1 Hall2].
  destruct (Hprops1 Hall1) as (Hkeep & Hnew & Hjoined).
  destruct (Hprops2 Hall2) as (Hsub & Hgone & Hleft).
  assert (Hmatch : forall id X, 
            existsb (fun room => isSameRoom room (RoomId id)) X = true ->
            In id X).
  { intros id X Hex. apply existsb_exists in Hex as (room & Hin & Hs).
    simpl in Hs. apply String.eqb_eq in Hs. now subst. }
  exists pc. simpl. split; [exact Hpc|]. split; [|split].
  - intros room Hroom.
    assert (Hb : exists e, In e (currentRooms pb) /\ isSameRoom room e = true).
    { destruct (existsb (fun current => isSameRoom room current)
                  (currentRooms p)) eqn:Hex.
      - apply existsb_exists in Hex as (e & He & Hs). eauto.
      - eauto. }
    destruct Hb as (e & He & Hs). exists e. split; [|exact Hs].
    destruct (Hgone e He) as [|(id & -> & Hmiss)]; [assumption|].
    exfalso.
    assert (existsb (fun r => isSameRoom r (RoomId id)) (rooms c) = true)
      by (apply existsb_exists; eauto).
    congruence.
  - intros id Hin.
    destruct (existsb (fun room => isSameRoom room (RoomId id)) (rooms c))
      eqn:Hex; [now apply Hmatch|]. exfalso.
    destruct (Hnew _ (Hsub _ Hin)) as [Hold|(room & Hroom & Hs)].
    + exact (Hleft id Hold Hex Hin).
    + assert (existsb (fun r => isSameRoom r (RoomId id)) (rooms c) = true)
        by (apply existsb_exists; eauto).
      congruence.
  - intros id Hin. destruct (Hgone _ (Hkeep _ Hin)) as [|(id' & [=] & _)].
    assumption.
Qed.

(** X4. On a transport whose rooms follow the joins and leaves it resolves,
    a [setTopics(X)] that resolves leaves the transport with an entry for
    every room of [X] and with no room id outside [X]; the [Room] objects
    it had are still there, since only ids are ever left. *)
Theorem setTopics_reconciles (X : list string) (c : Connection P Profile) :
  fst (setTopics X c) = Normal tt ->
  exists p pc,
    peer c = Some p /\ peer (snd (setTopics X c)) = Some pc /\
    (forall room, In room X ->
       exists e, In e (currentRooms pc) /\ isSameRoom room e = true) /\
    (forall id, In (RoomId id) (currentRooms pc) -> In id X) /\
    (forall id, In (RoomObject id) (currentRooms p) ->
                In (RoomObject id) (currentRooms pc)).
Proof.
  rewrite setTopics_eq. intros Hok.
  destruct (peer c) as [p|] eqn:Hpeer.
  2:{ revert Hok. unfold syncRoomsWithPeer, bind at 1, readPeer.
      change (peer (with_rooms X c)) with (peer c). rewrite Hpeer.
      discriminate. }
  destruct (syncRoomsWithPeer_reconciles (with_rooms X c) p Hpeer Hok)
    as (pc & Hpc & Hin & Hids & Hobjs).
  exists p, pc. auto.
Qed.

Lemma bind_inv {A B : Type} (m : M A) (k : A -> M B)
    (c : Connection P Profile) (b : B) :
  fst (bind m k c) = Normal b ->
  exists a c1, m c = (Normal a, c1) /\ bind m k c = k a c1.
Proof.
  unfold bind. destruct (m c) as [[a|e] c1]; [eauto | discriminate].
Qed.

Ltac rooms_kept H :=
  match type of H with
  | ?m ?c0 = (_, _) =>
      let S := fresh "S" in
      assert (S : LighthouseSends.steady m)
        by (unfold initializePeer, createPeer, cleanUpPeer; steady_all);
      specialize (S c0); rewrite H in S; apply S
  end.

(** X5. When [changeRealm] resolves, the transport it built has an entry
    for every desired room: the rooms set before the change are joined
    again on the new realm. *)
Theorem changeRealm_rejoins_rooms (r : Realm) (url : string)
    (c : Connection P Profile) :
  fst (changeRealm r url c) = Normal tt ->
  exists pc,
    peer (snd (changeRealm r url c)) = Some pc /\
    forall room, In room (rooms c) ->
      exists e, In e (currentRooms pc) /\ isSameRoom room e = true.
Proof.
  unfold changeRealm. intros Hok.
  destruct (bind_inv _ _ _ _ Hok) as (n & c1 & H1 & E1).
  rewrite E1 in Hok |- *. clear E1.
  assert (R1 : rooms c1 = rooms c) by rooms_kept H1.
  destruct (bind_inv _ _ _ _ Hok) as ([] & c2 & H2 & E2).
  rewrite E2 in Hok |- *. clear E2.
  assert (R2 : rooms c2 = rooms c1) by rooms_kept H2.
  destruct (bind_inv _ _ _ _ Hok) as (c2' & c3 & H3 & E3).
  rewrite E3 in Hok |- *. clear E3.
  assert (R3 : rooms c3 = rooms c2) by rooms_kept H3.
  destruct (bind_inv _ _ _ _ Hok) as ([] & c4 & H4 & E4).
  rewrite E4 in Hok |- *. clear E4.
  assert (R4 : rooms c4 = rooms c3) by rooms_kept H4.
  destruct (bind_inv _ _ _ _ Hok) as ([] & c5 & H5 & E5).
  rewrite E5 in Hok |- *. clear E5.
  assert (R5 : rooms c5 = rooms c4) by (injection H5 as <-; reflexivity).
  destruct (bind_inv _ _ _ _ Hok) as ([] & c6 & H6 & E6).
  rewrite E6 in Hok |- *. clear E6.
  assert (R6 : rooms c6 = rooms c5) by rooms_kept H6.
  destruct (bind_inv _ _ _ _ Hok) as (p7 & c7 & H7 & E7).
  rewrite E7 in Hok |- *. clear E7.
  assert (R7 : rooms c7 = rooms c6) by rooms_kept H7.
  destruct (bind_inv _ _ _ _ Hok) as (b & c8 & H8 & E8).
  rewrite E8 in Hok |- *. clear E8.
  assert (R8 : rooms c8 = rooms c7) by rooms_kept H8.
  destruct (peer c8) as [p8|] eqn:Hp8.
  2:{ revert Hok. unfold syncRoomsWithPeer, bind at 1, readPeer.
      rewrite Hp8. discriminate. }
  destruct (syncRoomsWithPeer_reconciles c8 p8 Hp8 Hok)
    as (pc & Hpc & Hin & _).
  exists pc. split; [exact Hpc|].
  intros room Hroom. apply Hin. congruence.
Qed.

(** ** Receiving *)

(** X6. When a handler the callback invoked throws, the callback logs the
    error as its next and last act: the exception of a handler never
    reaches the transport that delivered the packet. *)
Theorem peerCallback_logs_handler_error (c : Connection P Profile)
    (sender room : string) (payload : Uint8Array) (sequenceId : Z)
    (h : Handler) (pkg : Package Profile) (e : JsError) :
  let r := peerCallback sender room payload sequenceId c in
  In (HandlerInvoked h pkg) (newEvents c (snd r)) ->
  handlers c h pkg = Throw e ->
  fst r = Normal tt /\
  exists evs,
    newEvents c (snd r) = evs ++ [HandlerInvoked h pkg; LoggerError e].
Proof.
  intros r. subst r.
  unfold peerCallback, try_catch, bind, invoke, emit, onPeer,
    mapToPackageProfileResponse, newEvents.
  destruct (deserializeBinary payload) as [msg|e0]; simpl.
  2:{ rewrite drop_app_length. intros [[=]|[]]. }
  destruct (data msg) as [|d|d|d|d|d|d|d]; simpl.
  all: try (destruct (peer c) as [p|] eqn:Hp; simpl;
              [destruct (setPeerPosition _ _ p) as [[[]|e1] p'] eqn:Hset; simpl
              |]).
  all: try (destruct (JSON_parse _) as [parsed|e1]; simpl).
  all: repeat match goal with
         | |- context [handlers ?c0 ?h ?pkg] =>
             let E := fresh "E" in destruct (handlers c0 h pkg) eqn:E; simpl
         end.
  all: rewrite <- ?app_assoc; rewrite drop_app_length; simpl.
  all: intros Hin Hthrow.
  all: repeat match goal with
         | H : _ \/ _ |- _ => destruct H
         | H : False |- _ => destruct H
         | H : HandlerInvoked _ _ = HandlerInvoked _ _ |- _ =>
             injection H as <- <-
         end; try discriminate; try congruence.
  all: split; [reflexivity|].
  all: match goal with
       | E : handlers _ _ _ = Throw ?e1 |- _ =>
           let Heq := fresh "Heq" in
           assert (Heq : e1 = e) by congruence; rewrite Heq;
           first [ now exists [] | now eexists [_] ]
       end.
Qed.

(** Constructing a connection never fails and installs a transport:
    the one built for the lighthouse url, with the peer id unless the
    realm's lighthouse is newer than 0.1, and with the island preference
    applied when one is configured, non-empty and the transport has the
    setter. *)
Theorem constructor_installs_transport (id : string) (r : Realm)
    (url : string) (island : option string)
    (handler : option (Completion JsError unit)) (now : number) :
  let idToUse :=
    if Z.eqb (compareVersions "0.1" (lighthouseVersion r)) (-1)
    then None else Some id in
  let built := newPeer url idToUse island in
  let installed :=
    match island, setPreferedIslandId with
    | Some preferred, Some set =>
        if truthy_string preferred then set preferred built else built
    | _, _ => built
    end in
  fst (constructor (Profile := Profile) id r url island handler now) = Normal installed /\
  peer (snd (constructor (Profile := Profile) id r url island handler now))
    = Some installed /\
  In (PeerCalled (CallNewPeer url idToUse))
    (trace (snd (constructor (Profile := Profile) id r url island handler now))).
Proof.
  unfold constructor, initializePeer, bind, connectedPeersCount,
    statusHandler, createPeer, get, emit, ret, fresh, readPeer, onPeer.
  simpl.
  destruct island as [preferred|]; simpl; [|auto].
  destruct setPreferedIslandId as [set|]; simpl; [|auto].
  destruct (truthy_string preferred); simpl; auto.
Qed.

End WithCollaborators.

(** * From a send to the handler of the receiver *)

Section WithSendHelpers.
Context {P Profile Identity : Type}
  `{CatalystPeer P} `{Helpers Profile} `{SendHelpers Identity Profile}.

(** A send is one call on the transport, with the serialized message. *)
Lemma sendData_call (c : Connection P Profile) (p : P) (topic : string)
    (d : MessageData) (ty : PeerMessageType) (msg : CommsMessage) :
  peer c = Some p ->
  fst (createCommsMessage d c) = Normal msg ->
  newEvents c (snd (sendData topic d ty c)) =
    [PeerCalled (CallSendMessage topic (serializeBinary msg) ty)].
Proof.
  unfold sendData, try_catch, bind, createCommsMessage, get, ret, onPeer, throw.
  simpl. intros Hp [= <-]. rewrite Hp.
  destruct (sendMessage _ _ _ p) as [[[]|e] p']; simpl.
  - now apply newEvents_app.
  - destruct (message e) as [text|]; [destruct (startsWith text _)|];
      now apply newEvents_app.
Qed.

(** What the callback does with a packet once decoded. *)
Lemma peerCallback_invoked (c : Connection P Profile) (h : Handler)
    (pkg : Package Profile) :
  handlersInvoked
    (newEvents c
       (snd (try_catch (invoke h pkg) (fun e => emit (LoggerError e)) c)))
  = [(h, pkg)].
Proof.
  unfold try_catch, invoke, emit. destruct (handlers c h pkg); simpl.
  - now rewrite (newEvents_app c _ [HandlerInvoked h pkg]).
  - rewrite (newEvents_app c _ [HandlerInvoked h pkg; LoggerError e]);
      [reflexivity|]. simpl. now rewrite <- app_assoc.
Qed.

Lemma peerCallback_decoded (c : Connection P Profile) (sender room : string)
    (payload : Uint8Array) (sequenceId : Z) (msg : CommsMessage)
    (h : Handler) (pkg : Package Profile) :
  deserializeBinary payload = Normal msg ->
  match data msg with
  | CHAT_DATA d =>
      h = chatHandler /\
      pkg = createPackage sender msg chat (mapToPackageChat d)
  | PROFILE_DATA d =>
      h = profileHandler /\
      pkg = createPackage sender msg profile (mapToPackageProfile d)
  | VOICE_DATA d =>
      h = voiceHandler /\
      pkg = createPackage sender msg voice
              (mapToPackageVoice (encodedSamples d) (voiceIndex d) sequenceId)
  | PROFILE_REQUEST_DATA d =>
      h = profileRequestHandler /\
      pkg = createPackage sender msg profileRequest
              (mapToPackageProfileRequest d)
  | PROFILE_RESPONSE_DATA d =>
      h = profileResponseHandler /\
      exists parsed,
        JSON_parse (serializedProfile d) = Normal parsed /\
        pkg = createPackage sender msg profileResponse (ProfileResponse parsed)
  | _ => False
  end ->
  handlersInvoked
    (newEvents c (snd (peerCallback sender room payload sequenceId c)))
  = [(h, pkg)].
Proof.
  intros Hdec Hcase.
  assert (Hrun : peerCallback sender room payload sequenceId c =
                 try_catch (invoke h pkg) (fun e => emit (LoggerError e)) c).
  { unfold peerCallback, try_catch, bind. rewrite Hdec.
    destruct (data msg) as [|d|d|d|d|d|d|d]; try contradiction.
    - destruct Hcase as [-> ->]. reflexivity.
    - destruct Hcase as [-> ->]. reflexivity.
    - destruct Hcase as [-> ->]. reflexivity.
    - destruct Hcase as [-> ->]. reflexivity.
    - destruct Hcase as (-> & parsed & Hparse & ->).
      unfold mapToPackageProfileResponse. rewrite Hparse. reflexivity. }
  rewrite Hrun. apply peerCallback_invoked.
Qed.

(** X7. A chat message sent on one connection and delivered to another:
    the send is one reliable message of type [chat] on the topic of the
    sender's position, and the receiver's chat handler gets the sender's
    id, the sender's clock at the send, and the message id and text as
    sent. *)
Theorem chat_loopback (c c2 : Connection P Profile) (p : P)
    (currentPosition : Position) (id text sender room : string)
    (sequenceId : Z) :
  peer c = Some p ->
  readsBack (mkCommsMessage (clock c) (CHAT_DATA (mkChatData id text))) ->
  exists bytes,
    newEvents c (snd (sendChatMessage currentPosition id text c)) =
      [PeerCalled
         (CallSendMessage (positionHash currentPosition) bytes (reliable "chat"))]
    /\
    handlersInvoked
      (newEvents c2 (snd (peerCallback sender room bytes sequenceId c2))) =
      [(chatHandler, mkPackage sender (clock c) chat (ChatMessage id text))].
Proof.
  intros Hpeer Hcodec. eexists. split.
  - unfold sendChatMessage. now apply (sendData_call c p).
  - apply (peerCallback_decoded _ _ _ _ _ _ _ _ Hcodec). simpl. now split.
Qed.

(** X8. A voice frame sent on one connection and delivered to another
    reaches the voice handler with its samples; its index is the frame's,
    except that a frame of index 0 is delivered with the sequence id of the
    packet that carried it. *)
Theorem voice_loopback (c c2 : Connection P Profile) (p : P)
    (currentPosition : Position) (frame : EncodedFrame) (sender room : string)
    (sequenceId : Z) :
  peer c = Some p ->
  readsBack
    (mkCommsMessage (clock c)
       (VOICE_DATA (mkVoiceData (encoded frame) (frameIndex frame)))) ->
  exists bytes,
    newEvents c (snd (sendVoiceMessage currentPosition frame c)) =
      [PeerCalled
         (CallSendMessage (positionHash currentPosition) bytes VoiceType)]
    /\
    handlersInvoked
      (newEvents c2 (snd (peerCallback sender room bytes sequenceId c2))) =
      [(voiceHandler,
        mkPackage sender (clock c) voice
          (VoiceFragment (encoded frame)
             (if Z.eqb (frameIndex frame) 0 then sequenceId
              else frameIndex frame)))].
Proof.
  intros Hpeer Hcodec. eexists. split.
  - unfold sendVoiceMessage. now apply (sendData_call c p).
  - apply (peerCallback_decoded _ _ _ _ _ _ _ _ Hcodec). simpl. now split.
Qed.

(** X9. A profile request sent on one connection and delivered to
    another: a request without a version arrives without one, and a
    request for version [v] arrives with the text of [v]. *)
Theorem profile_request_loopback (c c2 : Connection P Profile) (p : P)
    (currentPosition : Position) (userId : string) (version : option number)
    (sender room : string) (sequenceId : Z) :
  peer c = Some p ->
  (forall v, version = Some v -> numberToString v <> "") ->
  readsBack
    (mkCommsMessage (clock c)
       (PROFILE_REQUEST_DATA
          (mkProfileRequestData userId
             match version with
             | Some v => numberToString v
             | None => ""
             end))) ->
  exists bytes,
    newEvents c (snd (sendProfileRequest currentPosition userId version c)) =
      [PeerCalled
         (CallSendMessage (positionHash currentPosition) bytes
            (ProfileRequestResponseType "request"))]
    /\
    handlersInvoked
      (newEvents c2 (snd (peerCallback sender room bytes sequenceId c2))) =
      [(profileRequestHandler,
        mkPackage sender (clock c) profileRequest
          (ProfileRequest userId (option_map numberToString version)))].
Proof.
  intros Hpeer Htext Hcodec. eexists. split.
  - unfold sendProfileRequest. now apply (sendData_call c p).
  - apply (peerCallback_decoded _ _ _ _ _ _ _ _ Hcodec). simpl.
    split; [reflexivity|].
    unfold createPackage, mapToPackageProfileRequest. simpl. do 2 f_equal.
    destruct version as [v|]; simpl; [|reflexivity].
    specialize (Htext v eq_refl). now destruct (numberToString v).
Qed.

(** X10. A profile response sent on one connection and delivered to
    another reaches the profile response handler with what [JSON.parse]
    makes of the [JSON.stringify] of the profile that was sent. *)
Theorem profile_response_loopback (c c2 : Connection P Profile) (p : P)
    (currentPosition : Position) (sent received : Profile)
    (sender room : string) (sequenceId : Z) :
  peer c = Some p ->
  JSON_parse (JSON_stringify sent) = Normal received ->
  readsBack
    (mkCommsMessage (clock c)
       (PROFILE_RESPONSE_DATA (mkProfileResponseData (JSON_stringify sent)))) ->
  exists bytes,
    newEvents c (snd (sendProfileResponse currentPosition sent c)) =
      [PeerCalled
         (CallSendMessage (positionHash currentPosition) bytes
            (ProfileRequestResponseType "response"))]
    /\
    handlersInvoked
      (newEvents c2 (snd (peerCallback sender room bytes sequenceId c2))) =
      [(profileResponseHandler,
        mkPackage sender (clock c) profileResponse (ProfileResponse received))].
Proof.
  intros Hpeer Hjson Hcodec. eexists. split.
  - unfold sendProfileResponse. now apply (sendData_call c p).
  - apply (peerCallback_decoded _ _ _ _ _ _ _ _ Hcodec). simpl.
    split; [reflexivity|]. exists received. now split.
Qed.

(** X11. A profile announcement sent on one connection and delivered to
    another is an unreliable message of type [profile] on the topic of the
    sender's position; the profile handler gets the user id, or the empty
    text when there is none; the text of the version, or the empty text
    when there is none or it is 0 or NaN; and the profile type of the
    identity. *)
Theorem profile_loopback (c c2 : Connection P Profile) (p : P)
    (currentPosition : Position) (userInfo : UserInformation Identity)
    (sender room : string) (sequenceId : Z) :
  peer c = Some p ->
  readsBack
    (mkCommsMessage (clock c) (PROFILE_DATA (createProfileData userInfo))) ->
  exists bytes,
    newEvents c (snd (sendProfileMessage currentPosition userInfo c)) =
      [PeerCalled
         (CallSendMessage (positionHash currentPosition) bytes
            (unreliable "profile"))]
    /\
    handlersInvoked
      (newEvents c2 (snd (peerCallback sender room bytes sequenceId c2))) =
      [(profileHandler,
        mkPackage sender (clock c) profile
          (ProfileVersion
             match ui_userId userInfo with
             | Some user => user
             | None => ""
             end
             match ui_version userInfo with
             | Some (S754_zero _) | Some S754_nan | None => ""
             | Some v => numberToString v
             end
             (getProfileType (ui_identity userInfo))))].
Proof.
  intros Hpeer Hcodec. eexists. split.
  - unfold sendProfileMessage, sendProfileData. now apply (sendData_call c p).
  - apply (peerCallback_decoded _ _ _ _ _ _ _ _ Hcodec). simpl.
    split; [reflexivity|].
    unfold createPackage, mapToPackageProfile, createProfileData. simpl.
    f_equal. f_equal.
    + destruct (ui_userId userInfo) as [[|a u]|]; reflexivity.
    + destruct (ui_version userInfo) as [[| | |]|]; reflexivity.
    + now destruct (getProfileType (ui_identity userInfo)).
Qed.

(** What the mappers make of what the setters wrote. *)
Lemma mapToPositionMessage_written (pos : Position) :
  mapToPositionMessage (createPositionData pos) = unsignedZeros pos.
Proof.
  destruct pos as [x y z rx ry rz rw im].
  unfold mapToPositionMessage, createPositionData, unsignedZeros,
    getPositionX, getPositionY, getPositionZ, getRotationX, getRotationY,
    getRotationZ, getRotationW, getImmediate.
  cbn -[proto3Float floatWithDefault unsignedZero].
  rewrite PositionCodecFacts.bool_slot_roundtrip.
  f_equal;
    match goal with
    | |- floatWithDefault (proto3Float ?v) = _ =>
        now destruct v as [[]|[]| |[] m e]
    end.
Qed.

(** X12. A position sent on one connection and delivered to another.  The
    send is an unreliable message of type [position] on the topic of the
    position itself.  When the receiver reads the bytes back as the message
    that was written and its transport accepts the position of the sender,
    the receiver first moves the sender in its transport to the first three
    components, then hands the position to the position handler: the
    position that was sent, with the sign of a zero dropped. *)
Theorem position_loopback (c c2 : Connection P Profile) (p q q' : P)
    (pos : Position) (sender room : string) (sequenceId : Z) :
  let received := unsignedZeros pos in
  peer c = Some p ->
  peer c2 = Some q ->
  readsBack
    (mkCommsMessage (clock c) (POSITION_DATA (createPositionData pos))) ->
  setPeerPosition sender (p0 received, p1 received, p2 received) q
    = (Normal tt, q') ->
  exists bytes rest,
    newEvents c (snd (sendPositionMessage pos c)) =
      [PeerCalled
         (CallSendMessage (positionHash pos) bytes (unreliable "position"))]
    /\
    newEvents c2 (snd (peerCallback sender room bytes sequenceId c2)) =
      PeerCalled
        (CallSetPeerPosition sender (p0 received, p1 received, p2 received))
      :: HandlerInvoked positionHandler
           (mkPackage sender (clock c) position (PositionMessage received))
      :: rest
    /\ handlersInvoked rest = [].
Proof.
  intros received Hpeer Hpeer2 Hcodec Hset.
  exists (serializeBinary
            (mkCommsMessage (clock c) (POSITION_DATA (createPositionData pos)))).
  set (pkg := mkPackage sender (clock c) position (PositionMessage received)).
  exists (match handlers c2 positionHandler pkg with
          | Normal _ => []
          | Throw e => [LoggerError e]
          end).
  split; [|split].
  - unfold sendPositionMessage, sendPositionData.
    now apply (sendData_call c p).
  - unfold peerCallback, try_catch, bind. rewrite Hcodec.
    cbn [data]. rewrite mapToPositionMessage_written. fold received.
    unfold onPeer. rewrite Hpeer2, Hset. simpl. unfold invoke, emit. simpl.
    unfold createPackage. simpl. fold pkg.
    destruct (handlers c2 positionHandler pkg); simpl;
      apply newEvents_app; simpl; now rewrite <- ?app_assoc.
  - now destruct (handlers c2 positionHandler pkg).
Qed.

End WithSendHelpers.

End LighthouseMore.

(** * More on the realm sagas *)

Module DaoMore.
Import Js DaoTypes Dao DaoCache DaoFacts.

Section WithCollaborators.
Context `{Collaborators}.

(** ** Waiting for candidates *)

Lemma waitLoop_find (pending : list (list Candidate)) :
  forall (w : World) (acc : list Effect),
    match
      List.find (fun l => match l with [] => false | _ :: _ => true end)
        (allCatalystCandidates w :: pending)
    with
    | Some l =>
        exists w' acc',
          waitLoop pending w acc = (Returned tt, w', acc') /\
          allCatalystCandidates w' = l
    | None =>
        exists w' acc', waitLoop pending w acc = (Blocked, w', acc')
    end.
Proof.
  induction pending as [|next pending IH]; intros w acc.
  - cbn [find waitLoop].
    destruct (allCatalystCandidates w) as [|cand rest] eqn:Hall; eauto.
  - destruct (allCatalystCandidates w) as [|cand rest] eqn:Hall.
    + cbn [find waitLoop]. rewrite Hall.
      specialize (IH (with_incoming pending
                        (reducer (setAddedCatalystCandidates next) w))
                     ((acc ++ [Select getAllCatalystCandidates])
                        ++ [Take_SET_ADDED_CATALYST_CANDIDATES])).
      assert (Hnext : allCatalystCandidates
                        (with_incoming pending
                           (reducer (setAddedCatalystCandidates next) w))
                      = next).
      { unfold allCatalystCandidates in *. cbn.
        apply app_eq_nil in Hall as [-> _]. reflexivity. }
      rewrite Hnext in IH. exact IH.
    + cbn [find]. rewrite waitLoop_ready by congruence. rewrite <- Hall. eauto.
Qed.

(** X13. [waitForCandidates] returns as soon as the store has candidates:
    at once when it has some, else after the first
    [SET_ADDED_CATALYST_CANDIDATES] that leaves some there, which are then
    the store's candidates; when none ever does, it never returns. *)
Theorem waitForCandidates_first_candidates (s : SagaState) :
  match firstCandidates (world s) with
  | Some l =>
      fst (waitForCandidates s) = Returned tt /\
      allCatalystCandidates (world (snd (waitForCandidates s))) = l
  | None => fst (waitForCandidates s) = Blocked
  end.
Proof.
  unfold firstCandidates, waitForCandidates.
  pose proof (waitLoop_find (incoming (world s)) (world s) (effects s))
    as Hloop.
  destruct (find _ _) as [l|].
  - destruct Hloop as (w' & acc' & -> & Hl). now split.
  - destruct Hloop as (w' & acc' & ->). reflexivity.
Qed.

(** ** The tiers of [selectRealm] *)

Lemma pings_app (es1 es2 : list Effect) :
  pings (es1 ++ es2) = pings es1 ++ pings es2.
Proof. apply omap_app. Qed.

(** [selectRealm] up to the call of [getConfiguredRealm], when the
    candidate cache is there. *)
Lemma selectRealm_first_tier (w : World) (cached : list Candidate) :
  allCatalystCandidates w <> [] ->
  storedCandidates w !! getLastRealmCandidatesCacheKey (selectedNetwork w)
    = Some cached ->
  selectRealm (start w) =
    bind (getConfiguredRealm (allCatalystCandidates w ++ cached))
      (fun configured =>
         match configured with
         | Some realm => ret (Some realm)
         | None =>
             bind (getStoredRealm (getLastRealmCacheKey (selectedNetwork w)))
               (fun cachedRealm =>
                  match cachedRealm with
                  | Some realm => ret (Some realm)
                  | None =>
                      call pickCatalystRealm_
                        (pickCatalystRealm (allCatalystCandidates w))
                  end)
         end)
      (mkSagaState w
         [Call waitForCandidates_;
          Select getAllCatalystCandidates;
          Select getSelectedNetwork;
          Select getAllCatalystCandidates;
          Call (getFromPersistentStorage_
                  (getLastRealmCandidatesCacheKey (selectedNetwork w)));
          Call getConfiguredRealm_]).
Proof.
  intros Hne Hcache. unfold selectRealm.
  unfold call at 1. unfold bind at 1 2. unfold effect at 1.
  rewrite waitForCandidates_ready by exact Hne.
  cbn [world effects start].
  unfold bind at 1, select at 1. unfold bind at 1, select at 1.
  cbn [world effects].
  unfold bind at 1, getStoredCandidates, call, bind at 1, effect.
  cbn [world effects]. rewrite Hcache.
  unfold bind at 1, spread, ret at 1.
  unfold bind at 2. cbn [world effects app]. reflexivity.
Qed.

(** X14. With no realm in the query string, the cached realm is returned
    as it was stored: it is not pinged and not checked against the minimum
    catalyst version, the world is left as it was and the algorithm is not
    run. *)
Theorem selectRealm_returns_cached_realm_unchecked (w : World)
    (cached : list Candidate) (realm : Realm) :
  allCatalystCandidates w <> [] ->
  storedCandidates w !! getLastRealmCandidatesCacheKey (selectedNetwork w)
    = Some cached ->
  qs_realm w = None ->
  storedRealms w !! getLastRealmCacheKey (selectedNetwork w) = Some realm ->
  selectRealm (start w) =
    (Returned (Some realm),
     mkSagaState w
       [Call waitForCandidates_;
        Select getAllCatalystCandidates;
        Select getSelectedNetwork;
        Select getAllCatalystCandidates;
        Call (getFromPersistentStorage_
                (getLastRealmCandidatesCacheKey (selectedNetwork w)));
        Call getConfiguredRealm_;
        Call (getFromPersistentStorage_
                (getLastRealmCacheKey (selectedNetwork w)))]).
Proof.
  intros Hne Hcache Hqs Hrealm.
  rewrite (selectRealm_first_tier w cached Hne Hcache).
  unfold bind, getConfiguredRealm, qsRealm, getStoredRealm, call, bind, effect.
  cbn [world effects]. rewrite Hqs. unfold ret. cbn [world effects].
  rewrite Hrealm. reflexivity.
Qed.

Ltac configured_leaf :=
  unfold Dao.ret, Dao.throw; cbn [outcomeOf world effects fst snd];
  eexists; rewrite <- ?app_assoc;
  (split; [reflexivity|]); (split; [reflexivity|]);
  (split; [cbn; intuition discriminate | repeat constructor]).

(** What [getConfiguredRealm] yields for a realm name of the query
    string: the resolution of the name, then, when it resolves, the check
    of the realm, and a warning unless the check answers that it is
    valid. *)
Lemma getConfiguredRealm_named (candidates : list Candidate) (s : SagaState)
    (realmName : string) :
  qs_realm (world s) = Some realmName ->
  truthy_string realmName = true ->
  exists es,
    getConfiguredRealm candidates s
      = (outcomeOf (configuredRealm (world s) candidates),
         mkSagaState (world s) (effects s ++ es)) /\
    pings es =
      match resolveCommsConnectionString realmName candidates with
      | Some r =>
          if String.eqb (protocol r) "v2" && truthy_string (hostname r)
          then [commsStatusUrl (hostname r)] else []
      | None => []
      end /\
    (In (Warn ("Provided realm is not valid: " ++ realmName)) es <->
     configuredRealm (world s) candidates = Normal None) /\
    Forall (fun ev => match ev with
                      | Call (getFromPersistentStorage_ _) => False
                      | _ => True
                      end) es.
Proof.
  intros Hqs Htruthy.
  unfold configuredRealm, isValidRealm. rewrite Hqs, Htruthy.
  unfold getConfiguredRealm, qsRealm, checkValidRealm.
  unfold bind at 1. rewrite Hqs, Htruthy.
  unfold call, bind, select, effect, ret, lift, throw. cbn [world effects].
  destruct (resolveCommsConnectionString realmName candidates) as [r|];
    [|configured_leaf].
  destruct (String.eqb (protocol r) "v2"); cbn [andb]; [|configured_leaf].
  destruct (truthy_string (hostname r)); cbn [negb]; [|configured_leaf].
  cbn [world effects].
  destruct (ping_status _); [|configured_leaf].
  destruct (minCatalystVersion (world s)) as [m|];
    [destruct (truthy_string m);
       [destruct (gte _ m) as [[|]|e]|]|];
    configured_leaf.
Qed.

Lemma length_append (a b : string) :
  String.length (a ++ b) = String.length a + String.length b.
Proof.
  induction a as [|x a IH]; [reflexivity|].
  change (S (String.length (a ++ b)) = S (String.length a + String.length b)).
  now rewrite IH.
Qed.

Lemma cache_keys_differ (network : string) :
  getLastRealmCandidatesCacheKey network <> getLastRealmCacheKey network.
Proof.
  unfold getLastRealmCandidatesCacheKey, getLastRealmCacheKey. intros Heq.
  apply (f_equal String.length) in Heq.
  rewrite !length_append in Heq. cbn in Heq. lia.
Qed.

(** X15. A realm named in the query string that does not resolve among the
    candidates, or that [checkValidRealm] answers is not valid, is given up
    with a warning that names it, and the cached realm is returned in its
    place.  When the version comparison of [checkValidRealm] throws,
    [selectRealm] throws what it threw: there is no warning and the cached
    realm is not read. *)
Theorem selectRealm_warns_and_falls_back (w : World) (cached : list Candidate)
    (realmName : string) (realm : Realm) :
  allCatalystCandidates w <> [] ->
  storedCandidates w !! getLastRealmCandidatesCacheKey (selectedNetwork w)
    = Some cached ->
  qs_realm w = Some realmName ->
  truthy_string realmName = true ->
  storedRealms w !! getLastRealmCacheKey (selectedNetwork w) = Some realm ->
  let r := selectRealm (start w) in
  let warning := Warn ("Provided realm is not valid: " ++ realmName) in
  let readsCachedRealm :=
    Call (getFromPersistentStorage_ (getLastRealmCacheKey (selectedNetwork w)))
  in
  (configuredRealm w (allCatalystCandidates w ++ cached) = Normal None ->
   fst r = Returned (Some realm) /\
   In warning (effects (snd r)) /\ In readsCachedRealm (effects (snd r))) /\
  (forall e,
     configuredRealm w (allCatalystCandidates w ++ cached) = Throw e ->
     fst r = Threw e /\
     ~ In warning (effects (snd r)) /\ ~ In readsCachedRealm (effects (snd r))).
Proof.
  intros Hne Hcache Hqs Htruthy Hrealm r warning readsCachedRealm.
  subst r. rewrite (selectRealm_first_tier w cached Hne Hcache).
  unfold bind at 1 3 5 7 9 11.
  match goal with
  | |- context [getConfiguredRealm ?cands ?st] =>
      destruct (getConfiguredRealm_named cands st realmName Hqs Htruthy)
        as (es & Hrun & _ & Hwarn & Hstore)
  end.
  cbn [world effects] in Hrun, Hwarn. rewrite Hrun.
  split.
  - intros Hnone. rewrite Hnone. cbn [outcomeOf].
    unfold bind, getStoredRealm, call, bind, effect, ret. cbn [world effects].
    rewrite Hrealm. cbn [fst snd effects].
    split; [reflexivity|]. split.
    + rewrite !in_app_iff. left. right. now apply Hwarn.
    + rewrite !in_app_iff. right. now left.
  - intros e He. rewrite He. cbn [outcomeOf fst snd effects].
    split; [reflexivity|].
    pose proof (cache_keys_differ (selectedNetwork w)) as Hkey.
    assert (Hfree : ~ In readsCachedRealm es).
    { intros Hin. rewrite List.Forall_forall in Hstore.
      exact (Hstore _ Hin). }
    split.
    + rewrite in_app_iff. intros [Hin|Hin].
      * cbn in Hin. intuition discriminate.
      * apply Hwarn in Hin. congruence.
    + rewrite in_app_iff. intros [Hin|Hin]; [|now apply Hfree].
      subst readsCachedRealm. cbn [In] in Hin.
      repeat destruct Hin as [Hin|Hin]; try discriminate; try contradiction.
      congruence.
Qed.

(** ** Reconnecting *)

(** X16. In preview mode the saga scans nothing and reads no cache: it
    empties both candidate lists, waits for the explorer identity and
    changes to the [v1] realm [localhost] at the preview root url.  It ends
    as the change of realm ends, or as the wait for the identity when that
    does not return; nothing is reported as fatal. *)
Theorem selectAndReconnectRealm_preview (w : World) :
  PREVIEW w = true ->
  let local := mkRealm "v1" (rootURLPreviewMode w) "localhost" None in
  let emptied := with_candidates [] [] (incoming w) w in
  let first :=
    [Call waitForMetaConfigurationInitialization_;
     Put establishingComms;
     Put (setCatalystCandidates []);
     Put (setAddedCatalystCandidates []);
     Call waitForExplorerIdentity_] in
  selectAndReconnectRealm (start w) =
    match waitForExplorerIdentity with
    | Returned _ =>
        (changeRealmObject local,
         mkSagaState emptied (first ++ [Call (changeRealmObject_ local)]))
    | Threw e => (Threw e, mkSagaState emptied first)
    | Blocked => (Blocked, mkSagaState emptied first)
    end.
Proof.
  intros Hpreview local emptied first.
  unfold selectAndReconnectRealm, initLocalCatalyst, call, bind, effect, put,
    ret, ends.
  cbn [world effects start reducer]. rewrite Hpreview. cbn [negb].
  cbn [world effects reducer with_candidates dao_candidates
       dao_addedCandidates incoming rootURLPreviewMode app].
  fold local.
  destruct waitForExplorerIdentity as [[]|e|]; reflexivity.
Qed.

(** X17. With candidates in the store, what becomes of the realm
    selection.  A realm that was selected is committed with
    [changeRealmObject] once the explorer identity is there, and the saga
    ends as the commit does when it returns or never ends.  No realm, an
    exception of the selection, of the wait for the identity or of the
    commit is reported as fatal, the client is brought down and the
    exception is thrown again.  A selection, a wait or a commit that never
    ends reports nothing. *)
Theorem selectAndReconnectRealm_outcomes (w : World) :
  PREVIEW w = false ->
  allCatalystCandidates w <> [] ->
  let s1 :=
    mkSagaState w
      [Call waitForMetaConfigurationInitialization_;
       Put establishingComms;
       Select getAllCatalystCandidates;
       Call selectRealm_] in
  let after := fun (s : SagaState) (es : list Effect) =>
    mkSagaState (world s) (effects s ++ es) in
  let fatal := fun (e : JsError) =>
    [ReportFatalErrorWithCatalystPayload e; BringDownClientAndShowError] in
  selectAndReconnectRealm (start w) =
    match selectRealm s1 with
    | (Returned (Some realm), s2) =>
        match waitForExplorerIdentity with
        | Returned _ =>
            match changeRealmObject realm with
            | Returned _ =>
                (Returned tt,
                 after s2 [Call waitForExplorerIdentity_;
                           Call (changeRealmObject_ realm)])
            | Threw e =>
                (Threw e,
                 after s2 ([Call waitForExplorerIdentity_;
                            Call (changeRealmObject_ realm)] ++ fatal e))
            | Blocked =>
                (Blocked,
                 after s2 [Call waitForExplorerIdentity_;
                           Call (changeRealmObject_ realm)])
            end
        | Threw e =>
            (Threw e, after s2 ([Call waitForExplorerIdentity_] ++ fatal e))
        | Blocked => (Blocked, after s2 [Call waitForExplorerIdentity_])
        end
    | (Returned None, s2) => (Threw noRealm, after s2 (fatal noRealm))
    | (Threw e, s2) => (Threw e, after s2 (fatal e))
    | (Blocked, s2) => (Blocked, s2)
    end.
Proof.
  intros Hpreview Hne s1 after fatal.
  rewrite (selectAndReconnectRealm_selects w Hpreview Hne).
  unfold try_catch, call at 1, bind at 1 2, effect at 1.
  cbn [world effects app].
  match goal with
  | |- context [selectRealm ?st] => change st with s1
  end.
  subst after fatal.
  destruct (selectRealm s1) as [[[realm|]|e|] s2]; try reflexivity.
  - unfold call, bind, effect, ends. cbn [world effects].
    destruct waitForExplorerIdentity as [[]|e|].
    + destruct (changeRealmObject realm) as [[]|e|];
        unfold throw; cbn [world effects]; rewrite <- ?app_assoc; reflexivity.
    + unfold throw. cbn [world effects]. rewrite <- ?app_assoc. reflexivity.
    + reflexivity.
  - unfold throw, bind, effect. cbn [world effects]. now rewrite <- app_assoc.
  - unfold throw, bind, effect. cbn [world effects]. now rewrite <- app_assoc.
Qed.

(** X18. With no candidates in the store, a catalyst fetch that fails makes
    the saga throw the fetch's error as it is: the scan runs before the
    [try], so the failure is not reported as fatal and the client is not
    brought down. *)
Theorem selectAndReconnectRealm_fetch_failure_escapes (w : World) (e : JsError) :
  PREVIEW w = false ->
  allCatalystCandidates w = [] ->
  fetchCatalystRealms (catalystNodesEndpoint w) = Throw e ->
  selectAndReconnectRealm (start w) =
    (Threw e,
     mkSagaState w
       [Call waitForMetaConfigurationInitialization_;
        Put establishingComms;
        Select getAllCatalystCandidates;
        Call initializeCatalystCandidates_;
        Put catalystRealmsScanRequested;
        Select getCatalystNodesEndpoint;
        Call (fetchCatalystRealms_ (catalystNodesEndpoint w))]) /\
  takenDown (effects (snd (selectAndReconnectRealm (start w)))) = false.
Proof.
  intros Hpreview Hempty Hfetch.
  assert (Hrun : selectAndReconnectRealm (start w) =
    (Threw e,
     mkSagaState w
       [Call waitForMetaConfigurationInitialization_;
        Put establishingComms;
        Select getAllCatalystCandidates;
        Call initializeCatalystCandidates_;
        Put catalystRealmsScanRequested;
        Select getCatalystNodesEndpoint;
        Call (fetchCatalystRealms_ (catalystNodesEndpoint w))])).
  { unfold selectAndReconnectRealm, initializeCatalystCandidates.
    unfold call, bind, effect, put, ret, select, lift.
    cbn [world effects start reducer]. rewrite Hpreview.
    cbn [negb world effects reducer].
    rewrite Hempty. cbn [world effects reducer]. rewrite Hfetch. reflexivity. }
  rewrite Hrun. now split.
Qed.

(** ** Candidate initialization *)

(** X19. With a pinned catalyst the added servers are not read: the
    fetched candidates are put unfiltered, the statuses are fetched for no
    server at all, and what that fetch answers is still filtered by the
    minimum version before it is put; when the comparison of a version
    throws there, the saga throws with it and puts no added candidates. *)
Theorem initializeCatalystCandidates_pin_skips_added_servers (w : World)
    (fetched added : list Candidate) :
  truthy_opt_string (PIN_CATALYST w) = true ->
  fetchCatalystRealms (catalystNodesEndpoint w) = Normal fetched ->
  fetchCatalystStatuses [] = Normal added ->
  let r := initializeCatalystCandidates (start w) in
  ~ In (Select getAddedServers) (effects (snd r)) /\
  In (Call (fetchCatalystStatuses_ [])) (effects (snd r)) /\
  candidatesPut (effects (snd r)) = [fetched] /\
  match versionFilter w added with
  | Normal keptAdded =>
      fst r = Returned tt /\ addedCandidatesPut (effects (snd r)) = [keptAdded]
  | Throw e =>
      fst r = Threw e /\ addedCandidatesPut (effects (snd r)) = []
  end /\
  (forall m,
     minCatalystVersion w = Some m -> truthy_string m = true ->
     Forall (comparable m) added ->
     addedCandidatesPut (effects (snd r)) = [List.filter (atLeast m) added]).
Proof.
  intros Hpin Hfetch Hadded r.
  pose proof (initializeCatalystCandidates_kept w fetched fetched Hfetch)
    as Hrun.
  rewrite Hpin in Hrun. cbv beta iota zeta in Hrun. specialize (Hrun eq_refl).
  rewrite Hadded in Hrun.
  assert (Hmain :
    ~ In (Select getAddedServers) (effects (snd r)) /\
    In (Call (fetchCatalystStatuses_ [])) (effects (snd r)) /\
    candidatesPut (effects (snd r)) = [fetched] /\
    match versionFilter w added with
    | Normal keptAdded =>
        fst r = Returned tt /\
        addedCandidatesPut (effects (snd r)) = [keptAdded]
    | Throw e =>
        fst r = Threw e /\ addedCandidatesPut (effects (snd r)) = []
    end).
  { subst r. rewrite Hrun.
    destruct (versionFilter w added) as [keptAdded|e];
      cbn [fst snd effects app]; repeat split;
      try (cbn; intuition discriminate); cbn; auto 10. }
  destruct Hmain as (Hno & Hcall & Hput & Hadd).
  repeat split; try assumption.
  intros m Hm Htruthy Hall.
  rewrite (versionFilter_answers w m added Hm Htruthy Hall) in Hadd.
  apply Hadd.
Qed.

(** X20. A scan whose first fetch fails puts no candidates at all; a scan
    whose second fetch fails has put the catalyst candidates it kept, which
    are in the store, and not the added ones.  In both cases the error of
    the fetch is thrown. *)
Theorem initializeCatalystCandidates_failures (w : World) (e : JsError) :
  let r := initializeCatalystCandidates (start w) in
  (fetchCatalystRealms (catalystNodesEndpoint w) = Throw e ->
   fst r = Threw e /\
   candidatesPut (effects (snd r)) = [] /\
   addedCandidatesPut (effects (snd r)) = []) /\
  (forall fetched kept,
     fetchCatalystRealms (catalystNodesEndpoint w) = Normal fetched ->
     (if truthy_opt_string (PIN_CATALYST w) then Normal fetched
      else versionFilter w fetched) = Normal kept ->
     fetchCatalystStatuses
       (if truthy_opt_string (PIN_CATALYST w) then [] else addedServers w)
       = Throw e ->
     fst r = Threw e /\
     candidatesPut (effects (snd r)) = [kept] /\
     addedCandidatesPut (effects (snd r)) = [] /\
     dao_candidates (world (snd r)) = kept).
Proof.
  intros r. subst r. split.
  - intros Hfetch.
    unfold initializeCatalystCandidates, call, bind, effect, put, select, lift,
      start.
    cbn [world effects reducer]. rewrite Hfetch. now split.
  - intros fetched kept Hfetch Hkept Hadded.
    pose proof (initializeCatalystCandidates_kept w fetched kept Hfetch Hkept)
      as Hrun.
    cbv zeta in Hrun. rewrite Hadded in Hrun. rewrite Hrun.
    destruct (truthy_opt_string (PIN_CATALYST w)); now repeat split.
Qed.

(** ** The candidate cache *)

(** X21. Once [cacheCatalystCandidates] has run, the entry of the network
    holds the store's candidates, and [selectRealm] reads them back: a
    realm of the query string that resolves among the candidates and is
    valid is selected. *)
Theorem cacheCatalystCandidates_then_selectRealm (w : World)
    (realmName : string) (realm : Realm) :
  allCatalystCandidates w <> [] ->
  qs_realm w = Some realmName ->
  truthy_string realmName = true ->
  resolveCommsConnectionString realmName
    (allCatalystCandidates w ++ allCatalystCandidates w) = Some realm ->
  isValidRealm w realm = Normal true ->
  let s := snd (cacheCatalystCandidates (start w)) in
  effects s =
    [Select getAllCatalystCandidates;
     Select getSelectedNetwork;
     Call (saveToPersistentStorage_
             (getLastRealmCandidatesCacheKey (selectedNetwork w)))] /\
  storedCandidates (world s)
    !! getLastRealmCandidatesCacheKey (selectedNetwork w)
    = Some (allCatalystCandidates w) /\
  fst (selectRealm s) = Returned (Some realm).
Proof.
  intros Hne Hqs Htruthy Hresolve Hvalid s.
  split; [reflexivity|].
  assert (Hcache : storedCandidates (world s)
                     !! getLastRealmCandidatesCacheKey (selectedNetwork w)
                   = Some (allCatalystCandidates w))
    by apply lookup_insert_eq.
  split; [exact Hcache|].
  destruct (selectRealm_with_cache s (allCatalystCandidates w) Hne Hcache)
    as (es & _ & Hrun).
  rewrite Hrun. unfold configuredRealm. cbn [world s].
  change (qs_realm (world s)) with (qs_realm w).
  change (allCatalystCandidates (world s)) with (allCatalystCandidates w).
  rewrite Hqs, Htruthy, Hresolve.
  change (isValidRealm (world s) realm) with (isValidRealm w realm).
  now rewrite Hvalid.
Qed.

End WithCollaborators.

End DaoMore.

(** * More on the position codec *)

Module PositionCodecMore.
Import Js PositionCodec PositionDelivery PositionCodecFacts.

Lemma float_slot_exact (v : number) :
  floatWithDefault (proto3Float v) = unsignedZero v.
Proof. now destruct v as [[]|[]| |[] m e]. Qed.

(** X22. Writing a position into a [PositionData] and mapping it back, as
    the sender and the receiver do, gives the position itself, except that
    a component that is a negative zero comes back as a positive zero:
    every other component, an infinity or a NaN included, and the
    "immediate" flag come back as they were. *)
Theorem position_mapping_exact (p : Position) :
  mapToPositionMessage (createPositionData p) = unsignedZeros p.
Proof.
  destruct p as [x y z rx ry rz rw im].
  unfold mapToPositionMessage, createPositionData, unsignedZeros,
    getPositionX, getPositionY, getPositionZ, getRotationX, getRotationY,
    getRotationZ, getRotationW, getImmediate.
  cbn -[proto3Float floatWithDefault unsignedZero].
  rewrite !float_slot_exact, bool_slot_roundtrip. reflexivity.
Qed.

End PositionCodecMore.

(** * The parcel scene manager, verified *)

Module SceneManagerFacts.
Import Js SceneManager.

(** ** Maps *)

Lemma map_get_set_eq {V : Type} (k : string) (v : V) (m : JsMap V) :
  map_get k (map_set k v m) = Some v.
Proof.
  induction m as [|[k' v'] m IH]; simpl.
  - now rewrite String.eqb_refl.
  - destruct (String.eqb k' k) eqn:E; simpl; rewrite E; auto.
Qed.

Lemma map_get_set_ne {V : Type} (k k' : string) (v : V) (m : JsMap V) :
  k <> k' -> map_get k' (map_set k v m) = map_get k' m.
Proof.
  intros Hne. induction m as [|[k0 v0] m IH]; simpl.
  - destruct (String.eqb_spec k k'); congruence.
  - destruct (String.eqb_spec k0 k) as [->|Hk]; simpl.
    + destruct (String.eqb_spec k k'); congruence.
    + now rewrite IH.
Qed.

Lemma map_get_delete_eq {V : Type} (k : string) (m : JsMap V) :
  map_get k (map_delete k m) = None.
Proof.
  induction m as [|[k' v'] m IH]; simpl; [reflexivity|].
  destruct (String.eqb k' k) eqn:E; simpl; [exact IH|]. now rewrite E.
Qed.

Lemma map_get_delete_ne {V : Type} (k k' : string) (m : JsMap V) :
  k <> k' -> map_get k' (map_delete k m) = map_get k' m.
Proof.
  intros Hne. induction m as [|[k0 v0] m IH]; simpl; [reflexivity|].
  destruct (String.eqb_spec k0 k) as [->|Hk]; simpl.
  - destruct (String.eqb_spec k k'); congruence.
  - now rewrite IH.
Qed.

Lemma map_delete_absent {V : Type} (k : string) (m : JsMap V) :
  map_get k m = None -> map_delete k m = m.
Proof.
  induction m as [|[k' v'] m IH]; simpl; [reflexivity|].
  destruct (String.eqb k' k) eqn:E; [discriminate|].
  intros Hm. simpl. now rewrite (IH Hm).
Qed.

Lemma map_set_absent {V : Type} (k : string) (v : V) (m : JsMap V) :
  map_get k m = None -> map_set k v m = m ++ [(k, v)].
Proof.
  induction m as [|[k' v'] m IH]; simpl; [reflexivity|].
  destruct (String.eqb k' k) eqn:E; [discriminate|].
  intros Hm. now rewrite (IH Hm).
Qed.

Lemma map_delete_app {V : Type} (k : string) (m1 m2 : JsMap V) :
  map_delete k (m1 ++ m2) = map_delete k m1 ++ map_delete k m2.
Proof. apply List.filter_app. Qed.

Lemma map_delete_added {V : Type} (k : string) (v : V) (m : JsMap V) :
  map_get k m = None -> map_delete k (m ++ [(k, v)]) = m.
Proof.
  intros Hm. rewrite map_delete_app, (map_delete_absent k m Hm). simpl.
  rewrite String.eqb_refl. simpl. apply app_nil_r.
Qed.

Lemma map_get_In {V : Type} (k : string) (v : V) (m : JsMap V) :
  map_get k m = Some v -> In (k, v) m.
Proof.
  induction m as [|[k' v'] m IH]; simpl; [discriminate|].
  destruct (String.eqb_spec k' k) as [->|Hk].
  - intros [= ->]. now left.
  - intros Hm. right. now apply IH.
Qed.

Lemma map_has_In {V : Type} (k : string) (v : V) (m : JsMap V) :
  In (k, v) m -> map_has k m = true.
Proof.
  unfold map_has. induction m as [|[k' v'] m IH]; simpl; [intros []|].
  intros [[= -> ->]|Hin].
  - now rewrite String.eqb_refl.
  - destruct (String.eqb k' k); [reflexivity | now apply IH].
Qed.

Lemma map_get_app {V : Type} (k : string) (m1 m2 : JsMap V) :
  map_get k (m1 ++ m2) =
    match map_get k m1 with
    | Some v => Some v
    | None => map_get k m2
    end.
Proof.
  induction m1 as [|[k' v'] m1 IH]; simpl; [reflexivity|].
  now destruct (String.eqb k' k).
Qed.

Lemma map_get_split {V : Type} (k : string) (v : V) (m : JsMap V) :
  map_get k m = Some v ->
  exists m1 m2, m = m1 ++ (k, v) :: m2 /\ map_get k m1 = None.
Proof.
  induction m as [|[k' v'] m IH]; simpl; [discriminate|].
  destruct (String.eqb_spec k' k) as [->|Hk].
  - intros [= ->]. now exists [], m.
  - intros Hm. destruct (IH Hm) as (m1 & m2 & -> & Hnone).
    exists ((k', v') :: m1), m2. split; [reflexivity|]. simpl.
    destruct (String.eqb_spec k' k); congruence.
Qed.

(** ** The heap of workers *)

Lemma lookup_last {A : Type} (l : list A) (x : A) :
  (l ++ [x]) !! length l = Some x.
Proof. induction l; simpl; auto. Qed.

Lemma lookup_before {A : Type} (l : list A) (x : A) (i : nat) (y : A) :
  l !! i = Some y -> (l ++ [x]) !! i = Some y.
Proof.
  revert i. induction l as [|a l IH]; intros [|i]; simpl; try discriminate; auto.
Qed.

Lemma lookup_app_inv {A : Type} (l : list A) (x : A) (i : nat) (y : A) :
  (l ++ [x]) !! i = Some y ->
  (i = length l /\ y = x) \/ l !! i = Some y.
Proof.
  revert i. induction l as [|a l IH]; intros [|i]; simpl.
  - intros [= ->]. now left.
  - discriminate.
  - intros [= ->]. now right.
  - intros Hi. destruct (IH i Hi) as [[-> ->]|Hl]; auto.
Qed.

Lemma insert_last {A : Type} (l : list A) (x y : A) :
  <[length l := y]> (l ++ [x]) = l ++ [y].
Proof. induction l as [|a l IH]; simpl; [reflexivity | now rewrite IH]. Qed.

Lemma lookup_insert_same {A : Type} (l : list A) (i : nat) (x y : A) :
  l !! i = Some x -> <[i := y]> l !! i = Some y.
Proof.
  revert i. induction l as [|a l IH]; intros [|i]; simpl; try discriminate; auto.
Qed.

Lemma lookup_insert_other {A : Type} (l : list A) (i j : nat) (y : A) :
  i <> j -> <[i := y]> l !! j = l !! j.
Proof.
  revert i j. induction l as [|a l IH]; intros [|i] [|j] Hne; simpl; auto;
    try congruence.
Qed.

Section WithWorkers.
Context `{SceneWorkers}.

(** ** Loops *)

Lemma forEach_app {A : Type} (body : A -> Op unit) (l1 l2 : list A)
    (st : State) :
  forEach body (l1 ++ l2) st =
    bind (forEach body l1) (fun _ => forEach body l2) st.
Proof.
  revert st. induction l1 as [|a l1 IH]; intros st; simpl.
  - reflexivity.
  - unfold bind in *. destruct (body a st) as [[[]|e] st']; [|reflexivity].
    apply IH.
Qed.

Lemma forEach_skip {A : Type} (body : A -> Op unit) (l : list A) (st : State) :
  (forall a, In a l -> body a st = (Normal tt, st)) ->
  forEach body l st = (Normal tt, st).
Proof.
  induction l as [|a l IH]; intros Hskip; simpl; [reflexivity|].
  unfold bind. rewrite Hskip by now left.
  apply IH. intros b Hb. apply Hskip. now right.
Qed.

(** A loop keeps what each of its turns keeps. *)
Lemma forEach_keeps {A : Type} (I : State -> Prop) (body : A -> Op unit)
    (l : list A) :
  (forall a st, In a l -> I st -> I (snd (body a st))) ->
  forall st, I st -> I (snd (forEach body l st)).
Proof.
  induction l as [|a l IH]; intros Hbody st Hst; simpl; [exact Hst|].
  unfold bind. pose proof (Hbody a st (or_introl eq_refl) Hst) as Hstep.
  destruct (body a st) as [[[]|e] st']; simpl in *; [|exact Hstep].
  apply IH; [|exact Hstep]. intros b st0 Hb. apply Hbody. now right.
Qed.

(** ** Runs *)

Lemma forceStopSceneWorker_run (st : State) (r : nat) (w : SceneWorker) :
  workers st !! r = Some w ->
  forceStopSceneWorker r st =
    (Normal tt,
     mkState (<[r := dispose w]> (workers st))
       (map_delete (ls_id (loadableScene w)) (loadedSceneWorkers st))
       (desiredParcelScenes st) (lifecycleManager st) (denylist st)
       (events st ++ [WorkerDisposed r; ScenesChanged])).
Proof.
  intros Hw. unfold forceStopSceneWorker, bind, getState. rewrite Hw.
  unfold update, emit, with_workers, with_loaded. simpl.
  now rewrite <- app_assoc.
Qed.

Lemma unloadParcelSceneById_run (st : State) (sceneId : string) (r : nat)
    (w : SceneWorker) :
  map_get sceneId (loadedSceneWorkers st) = Some r ->
  workers st !! r = Some w ->
  lifecycleManager st = true ->
  unloadParcelSceneById sceneId st =
    (Normal tt,
     mkState (<[r := dispose w]> (workers st))
       (map_delete (ls_id (loadableScene w)) (loadedSceneWorkers st))
       (desiredParcelScenes st) true (denylist st)
       (events st ++
        [SceneStatusNotified sceneId "unloaded"; WorkerDisposed r;
         ScenesChanged])).
Proof.
  intros Hr Hw Hlm.
  unfold unloadParcelSceneById, bind at 1, getSceneWorkerBySceneID.
  rewrite Hr. unfold bind at 1, getState. rewrite Hlm.
  unfold bind at 1, emit.
  rewrite (forceStopSceneWorker_run _ r w) by exact Hw.
  simpl. now rewrite Hlm, <- app_assoc.
Qed.

Lemma unloadParcelSceneById_absent (st : State) (sceneId : string) :
  map_get sceneId (loadedSceneWorkers st) = None ->
  unloadParcelSceneById sceneId st = (Normal tt, st).
Proof.
  intros Hr. unfold unloadParcelSceneById, bind, getSceneWorkerBySceneID.
  now rewrite Hr.
Qed.

(** The entity a worker is made for, and the worker made. *)
Lemma isParcelDenyListed_pure (coordinates : list string) (st : State) :
  isParcelDenyListed coordinates st =
    (Normal (denyListed (denylist st) coordinates), st).
Proof.
  unfold isParcelDenyListed, denyListed, bind, getState.
  destruct (denylist st) as [d|]; [destruct (truthy_string d)|]; reflexivity.
Qed.

Lemma usedEntity_id (flag : option string) (entity : LoadableScene) :
  ls_id (usedEntity flag entity) = ls_id entity.
Proof. unfold usedEntity. now destruct (denyListed _ _). Qed.

Lemma loadParcelSceneByIdIfMissing_run (st : State) (entity : LoadableScene) :
  map_get (ls_id entity) (loadedSceneWorkers st) = None ->
  loadParcelSceneByIdIfMissing (ls_id entity) entity st =
    (Normal tt,
     mkState
       (workers st ++ [parcelWorker (denylist st) entity])
       (loadedSceneWorkers st ++ [(ls_id entity, length (workers st))])
       (desiredParcelScenes st) (lifecycleManager st) (denylist st)
       (events st ++
        [WorkerCreated (length (workers st)) (usedEntity (denylist st) entity)
           None;
         LoadParcelScenesNotified [entity]])).
Proof.
  intros Hfresh.
  pose proof (isParcelDenyListed_pure (parcels (ls_entity entity)) st) as Hdeny.
  unfold parcelWorker.
  pose proof (usedEntity_id (denylist st) entity) as Hid.
  unfold usedEntity in *.
  set (denied := denyListed (denylist st) (parcels (ls_entity entity))) in *.
  set (used := if denied then generateBannedILand entity else entity) in *.
  unfold loadParcelSceneByIdIfMissing, bind at 1, getSceneWorkerBySceneID.
  rewrite Hfresh. unfold bind at 1. rewrite Hdeny. fold used.
  unfold bind at 1, loadParcelScene, bind at 1, getSceneWorkerBySceneID.
  rewrite Hid, Hfresh.
  unfold bind at 1, newSceneWorker, bind at 1, getState.
  unfold bind at 1, update. unfold bind at 1, emit. unfold ret at 1.
  unfold bind at 1, setNewParcelScene, bind at 1, getSceneWorkerBySceneID.
  cbn [loadedSceneWorkers with_workers]. rewrite Hfresh.
  unfold update at 1, ret at 1.
  unfold bind at 1, onWorker at 1, bind at 1, getState.
  cbn [workers with_workers with_loaded]. rewrite lookup_last.
  unfold update at 1.
  unfold bind at 1, onWorker at 1, bind at 1, getState.
  cbn [workers with_workers with_loaded]. rewrite insert_last, lookup_last.
  unfold update at 1.
  unfold bind at 1, bind at 1.
  cbn [loadedSceneWorkers with_workers with_loaded].
  rewrite map_get_set_eq, Nat.eqb_refl. unfold ret, emit.
  cbn [workers loadedSceneWorkers desiredParcelScenes lifecycleManager
       denylist events with_workers with_loaded].
  rewrite insert_last, (map_set_absent _ _ _ Hfresh), <- app_assoc.
  reflexivity.
Qed.

(** ** The registry stays consistent *)

Lemma consistent_stop (st : State) (r : nat) (w : SceneWorker)
    (lm : bool) (evs : list Event) :
  consistent st ->
  workers st !! r = Some w ->
  disposed w = false ->
  consistent
    (mkState (<[r := dispose w]> (workers st))
       (map_delete (ls_id (loadableScene w)) (loadedSceneWorkers st))
       (desiredParcelScenes st) lm (denylist st) evs).
Proof.
  intros (Hreg & Hstray & Hkeyed) Hw Hlive.
  split; [|split]; [| |exact Hkeyed]; unfold registered, noStray; simpl.
  - intros k r' Hget.
    destruct (String.eqb_spec (ls_id (loadableScene w)) k) as [<-|Hk].
    + now rewrite map_get_delete_eq in Hget.
    + rewrite map_get_delete_ne in Hget by exact Hk.
      destruct (Hreg k r' Hget) as (w' & Hw' & Hid & Hl').
      exists w'. split; [|now split].
      rewrite lookup_insert_other; [exact Hw'|].
      intros ->. congruence.
  - intros r' w' Hw' Hl'.
    destruct (Nat.eq_dec r r') as [<-|Hr].
    + rewrite (lookup_insert_same _ _ _ _ Hw) in Hw'.
      injection Hw' as <-. discriminate.
    + rewrite lookup_insert_other in Hw' by exact Hr.
      pose proof (Hstray r' w' Hw' Hl') as Hget'.
      rewrite map_get_delete_ne; [exact Hget'|].
      intros Hid. rewrite <- Hid in Hget'.
      pose proof (Hstray r w Hw Hlive). congruence.
Qed.

Lemma consistent_add (st : State) (used : LoadableScene)
    (t : option string) (perms : list string) (thr lm : bool)
    (evs : list Event) :
  consistent st ->
  map_get (ls_id used) (loadedSceneWorkers st) = None ->
  consistent
    (mkState (workers st ++ [mkSceneWorker used t perms thr false])
       (loadedSceneWorkers st ++ [(ls_id used, length (workers st))])
       (desiredParcelScenes st) lm (denylist st) evs).
Proof.
  intros (Hreg & Hstray & Hkeyed) Hfresh.
  split; [|split]; [| |exact Hkeyed]; unfold registered, noStray; simpl.
  - intros k r Hget. rewrite map_get_app in Hget.
    destruct (map_get k (loadedSceneWorkers st)) as [r0|] eqn:Hold.
    + injection Hget as <-.
      destruct (Hreg k r0 Hold) as (w & Hw & Hid & Hl).
      exists w. split; [|now split]. now apply lookup_before.
    + simpl in Hget.
      destruct (String.eqb_spec (ls_id used) k) as [<-|]; [|discriminate].
      injection Hget as <-. eexists. split; [apply lookup_last|]. now split.
  - intros r w Hw Hl. rewrite map_get_app.
    apply lookup_app_inv in Hw as [[-> ->]|Hw].
    + simpl. rewrite Hfresh. simpl. now rewrite String.eqb_refl.
    + now rewrite (Hstray r w Hw Hl).
Qed.

Lemma consistent_forceStop (st : State) (r : nat) (w : SceneWorker) :
  consistent st ->
  workers st !! r = Some w ->
  disposed w = false ->
  consistent (snd (forceStopSceneWorker r st)).
Proof.
  intros Hst Hw Hl. rewrite (forceStopSceneWorker_run st r w Hw).
  now apply consistent_stop.
Qed.

Lemma consistent_unload (st : State) (sceneId : string) :
  consistent st -> consistent (snd (unloadParcelSceneById sceneId st)).
Proof.
  intros Hst.
  destruct (map_get sceneId (loadedSceneWorkers st)) as [r|] eqn:Hr.
  2:{ now rewrite unloadParcelSceneById_absent. }
  destruct (proj1 Hst sceneId r Hr) as (w & Hw & Hid & Hl).
  destruct (lifecycleManager st) eqn:Hlm.
  - rewrite (unloadParcelSceneById_run st sceneId r w Hr Hw Hlm).
    now apply consistent_stop.
  - unfold unloadParcelSceneById, bind, getSceneWorkerBySceneID, getState.
    rewrite Hr, Hlm. exact Hst.
Qed.

Lemma consistent_loadMissing (st : State) (entity : LoadableScene) :
  consistent st ->
  map_get (ls_id entity) (loadedSceneWorkers st) = None ->
  consistent (snd (loadParcelSceneByIdIfMissing (ls_id entity) entity st)).
Proof.
  intros Hst Hfresh.
  rewrite (loadParcelSceneByIdIfMissing_run st entity Hfresh).
  pose proof (usedEntity_id (denylist st) entity) as Hid.
  rewrite <- Hid. apply consistent_add; [exact Hst | now rewrite Hid].
Qed.

Lemma loadParcelScene_run (st : State) (kernelScene : LoadableScene)
    (t : option string) :
  map_get (ls_id kernelScene) (loadedSceneWorkers st) = None ->
  loadParcelScene kernelScene t st =
    (Normal (length (workers st)),
     mkState
       (workers st ++
        [mkSceneWorker kernelScene t (initialPermissions kernelScene)
           (initialFPSThrottling kernelScene) false])
       (loadedSceneWorkers st ++ [(ls_id kernelScene, length (workers st))])
       (desiredParcelScenes st) (lifecycleManager st) (denylist st)
       (events st ++ [WorkerCreated (length (workers st)) kernelScene t])).
Proof.
  intros Hfresh.
  unfold loadParcelScene, bind at 1, getSceneWorkerBySceneID. rewrite Hfresh.
  unfold bind at 1, newSceneWorker, bind at 1, getState.
  unfold bind at 1, update. unfold bind at 1, emit. unfold ret at 1.
  unfold bind at 1, setNewParcelScene, bind at 1, getSceneWorkerBySceneID.
  cbn [loadedSceneWorkers with_workers]. rewrite Hfresh.
  unfold update at 1, ret.
  cbn [workers loadedSceneWorkers desiredParcelScenes lifecycleManager
       denylist events with_workers with_loaded].
  now rewrite (map_set_absent _ _ _ Hfresh).
Qed.

Lemma loadParcelScene_loaded (st : State) (kernelScene : LoadableScene)
    (t : option string) (r : nat) :
  map_get (ls_id kernelScene) (loadedSceneWorkers st) = Some r ->
  loadParcelScene kernelScene t st = (Normal r, st).
Proof.
  intros Hr. unfold loadParcelScene, bind, getSceneWorkerBySceneID.
  now rewrite Hr.
Qed.

Lemma consistent_loadParcelScene (st : State) (kernelScene : LoadableScene)
    (t : option string) :
  consistent st -> consistent (snd (loadParcelScene kernelScene t st)).
Proof.
  intros Hst.
  destruct (map_get (ls_id kernelScene) (loadedSceneWorkers st)) as [r|] eqn:Hr.
  - now rewrite (loadParcelScene_loaded st kernelScene t r Hr).
  - rewrite (loadParcelScene_run st kernelScene t Hr).
    now apply consistent_add.
Qed.

(** What the turns of the two loops keep. *)
Lemma unloading_keeps (newSet : JsMap LoadableScene)
    (old : string * LoadableScene) (st : State) :
  consistent st ->
  consistent
    (snd ((let* st := getState in
           if negb (map_has (fst old) newSet)
              && map_has (fst old) (loadedSceneWorkers st)
           then unloadParcelSceneById (fst old)
           else ret tt) st)).
Proof.
  intros Hst. unfold bind, getState.
  destruct (negb _ && _); [now apply consistent_unload | exact Hst].
Qed.

Lemma loading_keeps (new : string * LoadableScene) (st : State) :
  ls_id (snd new) = fst new ->
  consistent st ->
  consistent
    (snd ((let* st := getState in
           if negb (map_has (fst new) (loadedSceneWorkers st))
           then loadParcelSceneByIdIfMissing (fst new) (snd new)
           else ret tt) st)).
Proof.
  intros Hid Hst. unfold bind, getState, map_has.
  destruct (map_get (fst new) (loadedSceneWorkers st)) eqn:Hget; simpl;
    [exact Hst|].
  rewrite <- Hid in *. now apply consistent_loadMissing.
Qed.

Lemma consistent_setDesired (st : State) (desired : JsMap LoadableScene) :
  consistent st -> keyed desired ->
  consistent (snd (setDesiredParcelScenes desired st)).
Proof.
  intros Hst Hkeyed. unfold setDesiredParcelScenes.
  unfold bind at 1, getState. unfold bind at 1, update.
  set (st1 := with_desired desired st).
  assert (Hst1 : consistent st1).
  { destruct Hst as (Hreg & Hstray & _). now split; [|split]. }
  unfold bind.
  match goal with
  | |- context [forEach ?body (desiredParcelScenes st) st1] =>
      pose proof (forEach_keeps consistent body (desiredParcelScenes st)
                    (fun old st0 _ H0 => unloading_keeps desired old st0 H0)
                    st1 Hst1) as Hloop1;
      destruct (forEach body (desiredParcelScenes st) st1) as [[[]|e] st2]
  end; [|exact Hloop1].
  apply (forEach_keeps consistent); [|exact Hloop1].
  intros [k e] st0 Hin H0. apply loading_keeps; [|exact H0].
  simpl. now apply Hkeyed.
Qed.

Lemma keyed_set (m : JsMap LoadableScene) (e : LoadableScene) :
  keyed m -> keyed (map_set (ls_id e) e m).
Proof.
  intros Hm. induction m as [|[k0 e0] m IH]; simpl.
  - intros k x [[= <- <-]|[]]. reflexivity.
  - assert (Hm' : keyed m) by (intros k x Hin; apply Hm; now right).
    destruct (String.eqb_spec k0 (ls_id e)) as [->|Hk].
    + intros k x [[= <- <-]|Hin]; [reflexivity | apply Hm; now right].
    + intros k x [[= <- <-]|Hin]; [apply Hm; now left | now apply IH].
Qed.

Lemma keyed_delete (m : JsMap LoadableScene) (k : string) :
  keyed m -> keyed (map_delete k m).
Proof.
  intros Hm k' e Hin. apply filter_In in Hin as [Hin _]. now apply Hm.
Qed.

(** X23. The registry of loaded workers stays consistent: it holds
    exactly the workers that were not disposed of, each under the id of its
    own scene, and the desired scenes stay keyed by their ids.  Loading a
    scene, unloading or reloading one by id, adding and removing a desired
    scene all keep it so; stopping a worker keeps it so when the worker had
    not been stopped before. *)
Theorem registry_stays_consistent (st : State) :
  consistent st ->
  (forall kernelScene t, consistent (snd (loadParcelScene kernelScene t st))) /\
  (forall sceneId, consistent (snd (unloadParcelSceneById sceneId st))) /\
  (forall sceneId, consistent (snd (reloadScene sceneId st))) /\
  (forall entity, consistent (snd (addDesiredParcel entity st))) /\
  (forall sceneId, consistent (snd (removeDesiredParcel sceneId st))) /\
  (forall r w,
     workers st !! r = Some w -> disposed w = false ->
     consistent (snd (forceStopSceneWorker r st))).
Proof.
  intros Hst.
  split; [|split; [|split; [|split; [|split]]]].
  - intros kernelScene t. now apply consistent_loadParcelScene.
  - intros sceneId. now apply consistent_unload.
  - intros sceneId. unfold reloadScene, bind.
    pose proof (consistent_unload st sceneId Hst) as Hun.
    destruct (unloadParcelSceneById sceneId st) as [[[]|e] st1]; [|exact Hun].
    unfold getDesiredParcelScenes.
    apply consistent_setDesired; [exact Hun | apply Hun].
  - intros entity. unfold addDesiredParcel, bind, getDesiredParcelScenes,
      hasDesiredParcelScenes.
    destruct (map_has _ _); [exact Hst|].
    apply consistent_setDesired; [exact Hst|]. apply keyed_set, Hst.
  - intros sceneId. unfold removeDesiredParcel, bind, getDesiredParcelScenes,
      hasDesiredParcelScenes.
    destruct (map_has _ _); simpl; [|exact Hst].
    apply consistent_setDesired; [exact Hst|]. apply keyed_delete, Hst.
  - intros r w Hw Hl. now apply (consistent_forceStop st r w).
Qed.

(** ** Setting the desired scenes *)

Lemma map_has_cons {V : Type} (k k0 : string) (v : V) (m : JsMap V) :
  map_has k ((k0, v) :: m) = String.eqb k0 k || map_has k m.
Proof. unfold map_has. simpl. now destruct (String.eqb k0 k). Qed.

Lemma forEach_cons {A : Type} (body : A -> Op unit) (a : A) (l : list A)
    (st st1 : State) :
  body a st = (Normal tt, st1) ->
  forEach body (a :: l) st = forEach body l st1.
Proof. intros Hbody. simpl. unfold bind. now rewrite Hbody. Qed.

Lemma unloading_run (newSet : JsMap LoadableScene)
    (previousSet : JsMap LoadableScene) :
  forall st,
    consistent st -> lifecycleManager st = true ->
    let body := fun old : string * LoadableScene =>
      let* st := getState in
      if negb (map_has (fst old) newSet)
         && map_has (fst old) (loadedSceneWorkers st)
      then unloadParcelSceneById (fst old)
      else ret tt in
    let st' := snd (forEach body previousSet st) in
    fst (forEach body previousSet st) = Normal tt /\
    consistent st' /\ lifecycleManager st' = true /\
    desiredParcelScenes st' = desiredParcelScenes st /\
    forall k,
      map_get k (loadedSceneWorkers st') =
        if map_has k previousSet && negb (map_has k newSet)
        then None else map_get k (loadedSceneWorkers st).
Proof.
  induction previousSet as [|[k0 e0] L IH]; intros st Hst Hlm body st'.
  - subst st'. simpl. split; [reflexivity|]. split; [exact Hst|]. now split.
  - subst st'.
    destruct (negb (map_has k0 newSet) && map_has k0 (loadedSceneWorkers st))
      eqn:Hcond.
    + apply andb_prop in Hcond as [Hnew Hloaded].
      unfold map_has in Hloaded.
      destruct (map_get k0 (loadedSceneWorkers st)) as [r|] eqn:Hr;
        [|discriminate].
      destruct (proj1 Hst k0 r Hr) as (w & Hw & Hid & Hl).
      pose proof (unloadParcelSceneById_run st k0 r w Hr Hw Hlm) as Hrun.
      match type of Hrun with _ = (_, ?s1) => set (st1 := s1) in * end.
      assert (Hbody : body (k0, e0) st = (Normal tt, st1)).
      { subst body. cbn [fst]. unfold bind at 1, getState.
        unfold map_has at 2. now rewrite Hnew, Hr. }
      rewrite (forEach_cons body _ L st st1 Hbody).
      assert (Hst1 : consistent st1) by now apply consistent_stop.
      destruct (IH st1 Hst1 eq_refl) as (Hok & Hc & Hlm' & Hd & Hget).
      split; [exact Hok|]. split; [exact Hc|]. split; [exact Hlm'|].
      split; [exact Hd|].
      intros k. rewrite Hget, map_has_cons. subst st1. cbn [loadedSceneWorkers].
      rewrite Hid.
      destruct (String.eqb_spec k0 k) as [<-|Hk]; simpl.
      * rewrite Hnew, map_get_delete_eq. now destruct (map_has k0 L).
      * now rewrite map_get_delete_ne.
    + assert (Hbody : body (k0, e0) st = (Normal tt, st)).
      { subst body. cbn [fst]. unfold bind at 1, getState. now rewrite Hcond. }
      rewrite (forEach_cons body _ L st st Hbody).
      destruct (IH st Hst Hlm) as (Hok & Hc & Hlm' & Hd & Hget).
      split; [exact Hok|]. split; [exact Hc|]. split; [exact Hlm'|].
      split; [exact Hd|].
      intros k. rewrite Hget, map_has_cons.
      destruct (String.eqb_spec k0 k) as [<-|Hk]; simpl; [|reflexivity].
      destruct (negb (map_has k0 newSet)); simpl in *;
        [|now rewrite andb_false_r].
      unfold map_has in Hcond.
      destruct (map_get k0 (loadedSceneWorkers st)); [discriminate|].
      now destruct (map_has k0 L).
Qed.

Lemma loading_run (newSet : JsMap LoadableScene) :
  keyed newSet ->
  forall st,
    consistent st ->
    let body := fun new : string * LoadableScene =>
      let* st := getState in
      if negb (map_has (fst new) (loadedSceneWorkers st))
      then loadParcelSceneByIdIfMissing (fst new) (snd new)
      else ret tt in
    let st' := snd (forEach body newSet st) in
    fst (forEach body newSet st) = Normal tt /\
    consistent st' /\
    desiredParcelScenes st' = desiredParcelScenes st /\
    (forall k,
       map_has k (loadedSceneWorkers st') =
         map_has k newSet || map_has k (loadedSceneWorkers st)) /\
    (forall k,
       map_has k newSet = false ->
       map_get k (loadedSceneWorkers st') = map_get k (loadedSceneWorkers st)).
Proof.
  induction newSet as [|[k0 e0] L IH]; intros Hkeyed st Hst body st'.
  - subst st'. simpl. split; [reflexivity|]. split; [exact Hst|]. now split.
  - assert (HkeyedL : keyed L) by (intros k e Hin; apply Hkeyed; now right).
    assert (Hid : ls_id e0 = k0) by (apply Hkeyed; now left).
    subst st'.
    destruct (map_get k0 (loadedSceneWorkers st)) as [r|] eqn:Hr.
    + assert (Hbody : body (k0, e0) st = (Normal tt, st)).
      { subst body. cbn [fst]. unfold bind at 1, getState, map_has.
        now rewrite Hr. }
      rewrite (forEach_cons body _ L st st Hbody).
      destruct (IH HkeyedL st Hst) as (Hok & Hc & Hd & Hhas & Hget).
      split; [exact Hok|]. split; [exact Hc|]. split; [exact Hd|]. split.
      * intros k. rewrite Hhas, map_has_cons.
        destruct (String.eqb_spec k0 k) as [<-|Hk]; simpl; [|reflexivity].
        unfold map_has at 2. rewrite Hr. apply orb_true_r.
      * intros k Hk. rewrite map_has_cons in Hk.
        apply orb_false_elim in Hk as [_ Hk]. now apply Hget.
    + rewrite <- Hid in Hr.
      pose proof (loadParcelSceneByIdIfMissing_run st e0 Hr) as Hrun.
      match type of Hrun with _ = (_, ?s1) => set (st1 := s1) in * end.
      assert (Hbody : body (k0, e0) st = (Normal tt, st1)).
      { subst body. cbn [fst snd]. unfold bind at 1, getState, map_has.
        rewrite <- Hid. now rewrite Hr. }
      rewrite (forEach_cons body _ L st st1 Hbody).
      pose proof (usedEntity_id (denylist st) e0) as Huid.
      assert (Hst1 : consistent st1).
      { subst st1. rewrite <- Huid. apply consistent_add; [exact Hst|].
        now rewrite Huid. }
      destruct (IH HkeyedL st1 Hst1) as (Hok & Hc & Hd & Hhas & Hget).
      split; [exact Hok|]. split; [exact Hc|]. split; [exact Hd|]. split.
      * intros k. rewrite Hhas, map_has_cons. subst st1.
        cbn [loadedSceneWorkers]. unfold map_has.
        rewrite map_get_app. simpl. rewrite Hid.
        destruct (String.eqb_spec k0 k) as [<-|Hk]; simpl.
        -- rewrite <- Hid, Hr. apply orb_true_r.
        -- now destruct (map_get k (loadedSceneWorkers st)).
      * intros k Hk. rewrite map_has_cons in Hk.
        apply orb_false_elim in Hk as [Hk0 Hk].
        etransitivity; [exact (Hget k Hk)|]. subst st1.
        cbn [loadedSceneWorkers].
        rewrite map_get_app. simpl. rewrite Hid, Hk0.
        now destruct (map_get k (loadedSceneWorkers st)).
Qed.

(** X24. With the lifecycle manager in place and a consistent registry,
    [setDesiredParcelScenes] resolves and records the desired scenes; all
    of them are loaded afterwards; every scene that was desired before and
    is not any more is not loaded; and the workers of scenes that were not
    desired before and are not now are left as they were. *)
Theorem setDesiredParcelScenes_reconciles (st : State)
    (desired : JsMap LoadableScene) :
  consistent st -> keyed desired -> lifecycleManager st = true ->
  let r := setDesiredParcelScenes desired st in
  fst r = Normal tt /\
  desiredParcelScenes (snd r) = desired /\
  allLoaded (snd r) /\
  (forall k,
     map_has k (desiredParcelScenes st) = true -> map_has k desired = false ->
     map_has k (loadedSceneWorkers (snd r)) = false) /\
  (forall k,
     map_has k (desiredParcelScenes st) = false -> map_has k desired = false ->
     map_get k (loadedSceneWorkers (snd r)) = map_get k (loadedSceneWorkers st)).
Proof.
  intros Hst Hkeyed Hlm r.
  set (st1 := with_desired desired st).
  assert (Hst1 : consistent st1).
  { destruct Hst as (Hreg & Hstray & _). now split; [|split]. }
  destruct (unloading_run desired (desiredParcelScenes st) st1 Hst1 Hlm)
    as (Hok1 & Hc1 & Hlm1 & Hd1 & Hget1).
  match type of Hok1 with
  | fst (forEach ?body _ _) = _ => set (body1 := body) in *
  end.
  destruct (forEach body1 (desiredParcelScenes st) st1) as [o1 st2] eqn:Hloop1.
  cbn [fst snd] in *. subst o1.
  destruct (loading_run desired Hkeyed st2 Hc1)
    as (Hok2 & Hc2 & Hd2 & Hhas2 & Hget2).
  match type of Hok2 with
  | fst (forEach ?body _ _) = _ => set (body2 := body) in *
  end.
  assert (Hrun : r = forEach body2 desired st2).
  { subst r. unfold setDesiredParcelScenes.
    unfold bind at 1, getState. unfold bind at 1, update. unfold bind at 1.
    change (match forEach body1 (desiredParcelScenes st) st1 with
            | (Normal _, s) => forEach body2 desired s
            | (Throw e, s) => (Throw e, s)
            end = forEach body2 desired st2).
    now rewrite Hloop1. }
  rewrite Hrun.
  split; [exact Hok2|]. split; [now rewrite Hd2, Hd1|]. split; [|split].
  - intros k e Hin. rewrite Hd2, Hd1 in Hin. cbn [st1 with_desired
      desiredParcelScenes] in Hin.
    rewrite Hhas2, (map_has_In k e desired Hin). reflexivity.
  - intros k Hold Hnew. rewrite Hhas2, Hnew. simpl.
    unfold map_has. rewrite Hget1, Hold, Hnew. reflexivity.
  - intros k Hold Hnew. rewrite (Hget2 k Hnew), Hget1, Hold. reflexivity.
Qed.

(** ** Adding, removing and reloading a scene *)

Local Abbreviation unloadingTurn newSet :=
  (fun old : string * LoadableScene =>
     let* st := getState in
     if negb (map_has (fst old) newSet)
        && map_has (fst old) (loadedSceneWorkers st)
     then unloadParcelSceneById (fst old)
     else ret tt).

Local Abbreviation loadingTurn :=
  (fun new : string * LoadableScene =>
     let* st := getState in
     if negb (map_has (fst new) (loadedSceneWorkers st))
     then loadParcelSceneByIdIfMissing (fst new) (snd new)
     else ret tt).

Lemma setDesiredParcelScenes_unfold (desired : JsMap LoadableScene)
    (st : State) :
  setDesiredParcelScenes desired st =
    bind (forEach (unloadingTurn desired) (desiredParcelScenes st))
      (fun _ => forEach loadingTurn desired) (with_desired desired st).
Proof. reflexivity. Qed.

Lemma unloading_skips (newSet previousSet : JsMap LoadableScene) (st : State) :
  (forall k e, In (k, e) previousSet ->
     map_has k newSet = true \/ map_has k (loadedSceneWorkers st) = false) ->
  forEach (unloadingTurn newSet) previousSet st = (Normal tt, st).
Proof.
  intros Hskip. apply forEach_skip. intros [k e] Hin.
  unfold bind, getState. cbn [fst].
  destruct (Hskip k e Hin) as [-> | ->]; [reflexivity|].
  now rewrite andb_false_r.
Qed.

Lemma loading_skips (newSet : JsMap LoadableScene) (st : State) :
  (forall k e, In (k, e) newSet ->
     map_has k (loadedSceneWorkers st) = true) ->
  forEach loadingTurn newSet st = (Normal tt, st).
Proof.
  intros Hskip. apply forEach_skip. intros [k e] Hin.
  unfold bind, getState. cbn [fst]. now rewrite (Hskip k e Hin).
Qed.

Lemma map_has_app {V : Type} (k : string) (m1 m2 : JsMap V) :
  map_has k (m1 ++ m2) = map_has k m1 || map_has k m2.
Proof.
  unfold map_has. rewrite map_get_app. now destruct (map_get k m1).
Qed.

Lemma map_has_false {V : Type} (k : string) (m : JsMap V) :
  map_has k m = false -> map_get k m = None.
Proof. unfold map_has. now destruct (map_get k m). Qed.

(** Adding a scene that is neither desired nor loaded, when all the
    desired scenes are loaded. *)
Lemma addDesiredParcel_run (st : State) (entity : LoadableScene) :
  allLoaded st ->
  map_has (ls_id entity) (desiredParcelScenes st) = false ->
  map_get (ls_id entity) (loadedSceneWorkers st) = None ->
  addDesiredParcel entity st =
    (Normal tt,
     mkState
       (workers st ++ [parcelWorker (denylist st) entity])
       (loadedSceneWorkers st ++ [(ls_id entity, length (workers st))])
       (desiredParcelScenes st ++ [(ls_id entity, entity)])
       (lifecycleManager st) (denylist st)
       (events st ++
        [WorkerCreated (length (workers st)) (usedEntity (denylist st) entity)
           None;
         LoadParcelScenesNotified [entity]])).
Proof.
  intros Hall Hnew Hfresh.
  unfold addDesiredParcel, bind at 1, getDesiredParcelScenes.
  unfold bind at 1, hasDesiredParcelScenes. rewrite Hnew.
  rewrite (map_set_absent _ _ _ (map_has_false _ _ Hnew)).
  rewrite setDesiredParcelScenes_unfold. unfold bind at 1.
  set (desired := desiredParcelScenes st ++ [(ls_id entity, entity)]).
  set (st1 := with_desired desired st).
  rewrite (unloading_skips desired (desiredParcelScenes st) st1).
  2:{ intros k e Hin. left. subst desired. rewrite map_has_app.
      now rewrite (map_has_In k e _ Hin). }
  subst desired. rewrite forEach_app. unfold bind at 1.
  rewrite (loading_skips (desiredParcelScenes st) st1)
    by (intros k e Hin; exact (Hall k e Hin)).
  cbn [forEach]. unfold bind at 1, bind at 1, getState. cbn [fst snd].
  unfold map_has. change (loadedSceneWorkers st1) with (loadedSceneWorkers st).
  rewrite Hfresh. cbn [negb].
  rewrite (loadParcelSceneByIdIfMissing_run st1 entity Hfresh).
  reflexivity.
Qed.

(** X25. Adding a desired scene and removing it again.  From a state where
    every desired scene is loaded, a scene that is neither desired nor
    loaded is loaded by [addDesiredParcel] under its id, by a worker made
    for it; [removeDesiredParcel] of its id then notifies the lifecycle
    manager that the scene is unloaded, disposes of that worker and leaves
    the desired scenes and the registry exactly as they were at the
    start. *)
Theorem addDesiredParcel_then_removeDesiredParcel (st : State)
    (entity : LoadableScene) :
  lifecycleManager st = true ->
  allLoaded st ->
  map_has (ls_id entity) (desiredParcelScenes st) = false ->
  map_get (ls_id entity) (loadedSceneWorkers st) = None ->
  let r := length (workers st) in
  let st1 := snd (addDesiredParcel entity st) in
  let st2 := snd (removeDesiredParcel (ls_id entity) st1) in
  fst (addDesiredParcel entity st) = Normal tt /\
  map_get (ls_id entity) (loadedSceneWorkers st1) = Some r /\
  fst (removeDesiredParcel (ls_id entity) st1) = Normal tt /\
  desiredParcelScenes st2 = desiredParcelScenes st /\
  loadedSceneWorkers st2 = loadedSceneWorkers st /\
  workers st2 = workers st ++ [dispose (parcelWorker (denylist st) entity)] /\
  newEvents st st2 =
    [WorkerCreated r (usedEntity (denylist st) entity) None;
     LoadParcelScenesNotified [entity];
     SceneStatusNotified (ls_id entity) "unloaded";
     WorkerDisposed r;
     ScenesChanged].
Proof.
  intros Hlm Hall Hnew Hfresh r st1 st2.
  pose proof (addDesiredParcel_run st entity Hall Hnew Hfresh) as Hadd.
  match type of Hadd with _ = (_, ?s) => set (stA := s) in * end.
  assert (Hst1 : st1 = stA) by (subst st1; now rewrite Hadd).
  assert (Hremove :
    removeDesiredParcel (ls_id entity) stA =
      (Normal tt,
       mkState
         (workers st ++ [dispose (parcelWorker (denylist st) entity)])
         (loadedSceneWorkers st) (desiredParcelScenes st) true (denylist st)
         (events stA ++
          [SceneStatusNotified (ls_id entity) "unloaded";
           WorkerDisposed r; ScenesChanged]))).
  { unfold removeDesiredParcel, bind at 1, getDesiredParcelScenes.
    unfold bind at 1, hasDesiredParcelScenes.
    change (desiredParcelScenes stA)
      with (desiredParcelScenes st ++ [(ls_id entity, entity)]).
    rewrite map_has_app, orb_comm. unfold map_has at 1. cbn [map_get].
    rewrite String.eqb_refl. cbn [orb negb].
    rewrite (map_delete_added _ _ _ (map_has_false _ _ Hnew)).
    rewrite setDesiredParcelScenes_unfold. unfold bind at 1.
    set (stB := with_desired (desiredParcelScenes st) stA).
    change (desiredParcelScenes stA)
      with (desiredParcelScenes st ++ [(ls_id entity, entity)]).
    rewrite forEach_app. unfold bind at 1.
    rewrite (unloading_skips (desiredParcelScenes st) (desiredParcelScenes st)
               stB)
      by (intros k e Hin; left; exact (map_has_In k e _ Hin)).
    assert (Hr : map_get (ls_id entity) (loadedSceneWorkers stB) = Some r).
    { cbn. rewrite map_get_app, Hfresh. simpl. now rewrite String.eqb_refl. }
    assert (Hw : workers stB !! r = Some (parcelWorker (denylist st) entity))
      by apply lookup_last.
    cbn [forEach]. unfold bind at 1, bind at 1, getState. cbn [fst].
    rewrite Hnew. unfold map_has at 1. rewrite Hr. cbn [negb andb].
    rewrite (unloadParcelSceneById_run stB (ls_id entity) r _ Hr Hw Hlm).
    unfold ret at 1.
    cbn [workers loadedSceneWorkers desiredParcelScenes lifecycleManager
         denylist events stB stA with_desired parcelWorker loadableScene].
    rewrite usedEntity_id.
    rewrite (map_delete_added _ _ _ Hfresh).
    fold (parcelWorker (denylist st) entity). subst r. rewrite insert_last.
    rewrite loading_skips; [reflexivity|].
    intros k e Hin. exact (Hall k e Hin). }
  subst st2. rewrite Hst1, Hremove, Hadd. cbn [fst snd].
  split; [reflexivity|]. split.
  { cbn. rewrite map_get_app, Hfresh. simpl. now rewrite String.eqb_refl. }
  split; [reflexivity|]. split; [reflexivity|]. split; [reflexivity|].
  split; [reflexivity|].
  unfold newEvents. cbn [events stA]. rewrite <- app_assoc.
  apply drop_app_length.
Qed.

(** X26. Reloading a scene that is desired and loaded, when all the
    desired scenes are loaded: the lifecycle manager is told that the scene
    is unloaded, its worker is disposed of and taken out of the registry,
    and a worker made anew for the desired entity is registered in its
    place; nothing else changes. *)
Theorem reloadScene_replaces_worker (st : State) (sceneId : string)
    (entity : LoadableScene) (r : nat) (w : SceneWorker) :
  lifecycleManager st = true ->
  allLoaded st ->
  map_get sceneId (desiredParcelScenes st) = Some entity ->
  ls_id entity = sceneId ->
  map_get sceneId (loadedSceneWorkers st) = Some r ->
  workers st !! r = Some w ->
  ls_id (loadableScene w) = sceneId ->
  reloadScene sceneId st =
    (Normal tt,
     mkState
       (<[r := dispose w]> (workers st) ++ [parcelWorker (denylist st) entity])
       (map_delete sceneId (loadedSceneWorkers st)
        ++ [(sceneId, length (workers st))])
       (desiredParcelScenes st) true (denylist st)
       (events st ++
        [SceneStatusNotified sceneId "unloaded";
         WorkerDisposed r;
         ScenesChanged;
         WorkerCreated (length (workers st))
           (usedEntity (denylist st) entity) None;
         LoadParcelScenesNotified [entity]])).
Proof.
  intros Hlm Hall Hdesired Hid Hr Hw Hwid. subst sceneId.
  unfold reloadScene, bind at 1.
  rewrite (unloadParcelSceneById_run st (ls_id entity) r w Hr Hw Hlm). rewrite Hwid.
  match goal with |- context [bind getDesiredParcelScenes _ ?s] =>
    set (st1 := s) end.
  unfold bind at 1, getDesiredParcelScenes.
  rewrite setDesiredParcelScenes_unfold. unfold bind at 1.
  assert (Hsame : with_desired (desiredParcelScenes st1) st1 = st1)
    by reflexivity.
  rewrite Hsame.
  change (desiredParcelScenes st1) with (desiredParcelScenes st).
  rewrite (unloading_skips (desiredParcelScenes st) (desiredParcelScenes st)
             st1)
    by (intros k e Hin; left; exact (map_has_In k e _ Hin)).
  destruct (map_get_split _ _ _ Hdesired) as (D1 & D2 & HD & Hnone).
  assert (Hall1 : forall k e, In (k, e) D1 ->
            map_has k (loadedSceneWorkers st1) = true).
  { intros k e Hin.
    assert (Hk : (ls_id entity) <> k).
    { intros <-. pose proof (map_has_In _ _ _ Hin) as Hhas.
      unfold map_has in Hhas. now rewrite Hnone in Hhas. }
    cbn. unfold map_has. rewrite (map_get_delete_ne _ _ _ Hk).
    apply (Hall k e). rewrite HD. apply in_or_app. now left. }
  assert (Hfresh : map_get (ls_id entity) (loadedSceneWorkers st1) = None)
    by apply map_get_delete_eq.
  replace (forEach loadingTurn (desiredParcelScenes st) st1)
    with (forEach loadingTurn (D1 ++ ((ls_id entity), entity) :: D2) st1)
    by now rewrite HD.
  rewrite forEach_app. unfold bind at 1.
  rewrite (loading_skips D1 st1 Hall1).
  cbn [forEach]. unfold bind at 1, bind at 1, getState. cbn [fst snd].
  unfold map_has at 1. rewrite Hfresh. cbn [negb].
  rewrite (loadParcelSceneByIdIfMissing_run st1 entity Hfresh).
  rewrite loading_skips.
  - cbn [workers loadedSceneWorkers desiredParcelScenes lifecycleManager
         denylist events st1].
    rewrite length_insert, <- app_assoc. reflexivity.
  - intros k e Hin. cbn. unfold map_has. rewrite map_get_app.
    destruct (String.eqb_spec (ls_id entity) k) as [<-|Hk].
    + rewrite map_get_delete_eq. simpl. now rewrite String.eqb_refl.
    + rewrite (map_get_delete_ne _ _ _ Hk).
      assert (Hh : map_has k (loadedSceneWorkers st) = true).
      { apply (Hall k e). rewrite HD. apply in_or_app. right. now right. }
      unfold map_has in Hh.
      now destruct (map_get k (loadedSceneWorkers st)).
Qed.

(** X27. Before [enableParcelSceneLoading] has set the lifecycle manager,
    unloading or reloading a loaded scene throws a [TypeError] at the
    notification and changes nothing: the worker is not disposed of and
    stays registered. *)
Theorem unloading_before_enabled_throws (st : State) (sceneId : string)
    (r : nat) :
  lifecycleManager st = false ->
  map_get sceneId (loadedSceneWorkers st) = Some r ->
  unloadParcelSceneById sceneId st = (Throw nullLifecycleManager, st) /\
  reloadScene sceneId st = (Throw nullLifecycleManager, st).
Proof.
  intros Hlm Hr.
  assert (Hun : unloadParcelSceneById sceneId st
                = (Throw nullLifecycleManager, st)).
  { unfold unloadParcelSceneById, bind, getSceneWorkerBySceneID, getState.
    now rewrite Hr, Hlm. }
  split; [exact Hun|]. unfold reloadScene, bind. now rewrite Hun.
Qed.

(** X28. [setNewParcelScene] is idempotent: once it has returned, the
    worker is the one registered under the id, and a second call with the
    same id and worker changes nothing. *)
Theorem setNewParcelScene_idempotent (st : State) (sceneId : string)
    (worker : nat) :
  fst (setNewParcelScene sceneId worker st) = Normal tt ->
  let st' := snd (setNewParcelScene sceneId worker st) in
  map_get sceneId (loadedSceneWorkers st') = Some worker /\
  setNewParcelScene sceneId worker st' = (Normal tt, st').
Proof.
  intros Hok st'.
  assert (Hget : map_get sceneId (loadedSceneWorkers st') = Some worker).
  { subst st'. revert Hok.
    unfold setNewParcelScene, bind at 1 3, getSceneWorkerBySceneID.
    destruct (map_get sceneId (loadedSceneWorkers st)) as [loaded|] eqn:Hl.
    - destruct (Nat.eqb_spec worker loaded) as [->|Hne].
      + intros _. exact Hl.
      + unfold bind, forceStopSceneWorker, bind, getState.
        destruct (workers st !! loaded) as [w|]; [|discriminate].
        intros _. cbn. apply map_get_set_eq.
    - intros _. cbn. apply map_get_set_eq. }
  split; [exact Hget|].
  unfold setNewParcelScene, bind, getSceneWorkerBySceneID.
  now rewrite Hget, Nat.eqb_refl.
Qed.

(** ** Deny-listed parcels *)

Lemma set_add_keeps (x p : string) (granted : list string) :
  In x granted -> In x (set_add p granted).
Proof.
  unfold set_add. destruct (existsb _ granted); [auto|].
  intros Hin. apply in_or_app. now left.
Qed.

Lemma set_add_adds (p : string) (granted : list string) :
  In p (set_add p granted).
Proof.
  unfold set_add. destruct (existsb (String.eqb p) granted) eqn:Hex.
  - apply existsb_exists in Hex as (y & Hy & Heq).
    apply String.eqb_eq in Heq. now subst.
  - apply in_or_app. right. now left.
Qed.

Lemma granted_all (permissions granted : list string) (p : string) :
  In p permissions \/ In p granted ->
  In p (fold_left (fun granted p => set_add p granted) permissions granted).
Proof.
  revert granted. induction permissions as [|q permissions IH];
    intros granted [Hin|Hin]; simpl; try contradiction; auto.
  - apply IH. destruct Hin as [->|Hin]; [right; apply set_add_adds | now left].
  - apply IH. right. now apply set_add_keeps.
Qed.

(** X29. A scene with a deny-listed parcel is loaded all the same, but
    its worker runs an entity without content: the scene keeps its id, base
    url, pointers and parcels, is granted the default parcel permissions
    and is throttled like any parcel scene, while the observers of loaded
    scenes are handed the entity as it came, content included. *)
Theorem deny_listed_scene_loads_without_content (st : State)
    (entity : LoadableScene) :
  map_get (ls_id entity) (loadedSceneWorkers st) = None ->
  denyListed (denylist st) (parcels (ls_entity entity)) = true ->
  let st' := snd (loadParcelSceneByIdIfMissing (ls_id entity) entity st) in
  exists r w,
    map_get (ls_id entity) (loadedSceneWorkers st') = Some r /\
    workers st' !! r = Some w /\
    loadableScene w =
      mkLoadableScene
        (mkEntity [] (pointers (ls_entity entity)) (parcels (ls_entity entity)))
        (baseUrl entity) (ls_id entity) (parentCid entity) /\
    useFPSThrottling w = true /\
    (forall p, In p defaultParcelPermissions -> In p (permissionGranted w)) /\
    newEvents st st' =
      [WorkerCreated r (loadableScene w) None;
       LoadParcelScenesNotified [entity]].
Proof.
  intros Hfresh Hdenied st'. subst st'.
  rewrite (loadParcelSceneByIdIfMissing_run st entity Hfresh). cbn [snd].
  exists (length (workers st)), (parcelWorker (denylist st) entity).
  cbn [workers loadedSceneWorkers events].
  split; [|split; [|split; [|split; [|split]]]].
  - rewrite map_get_app, Hfresh. simpl. now rewrite String.eqb_refl.
  - apply lookup_last.
  - unfold parcelWorker, usedEntity. cbn [loadableScene]. now rewrite Hdenied.
  - reflexivity.
  - intros p Hp. unfold parcelWorker. cbn [permissionGranted].
    apply granted_all. now left.
  - unfold newEvents. cbn [events]. rewrite drop_app_length. reflexivity.
Qed.

Lemma append_cons (x : ascii) (a b : string) :
  (String x a ++ b)%string = String x (a ++ b).
Proof. reflexivity. Qed.

Lemma append_nil (b : string) : ("" ++ b)%string = b.
Proof. reflexivity. Qed.

Lemma append_assoc (a b c : string) :
  ((a ++ b) ++ c)%string = (a ++ b ++ c)%string.
Proof.
  induction a as [|x a IH]; [reflexivity|].
  rewrite !append_cons. f_equal. exact IH.
Qed.

Lemma append_empty (a : string) : (a ++ "")%string = a.
Proof.
  induction a as [|x a IH]; [reflexivity|].
  rewrite append_cons. f_equal. exact IH.
Qed.

Lemma splitSpaces_token (token s current : string) (afterSpace : bool) :
  Forall (fun c => isSpace c = false) (list_ascii_of_string token) ->
  splitSpaces (token ++ s) current afterSpace =
    splitSpaces s (current ++ token)
      match token with
      | EmptyString => afterSpace
      | String _ _ => false
      end.
Proof.
  revert current afterSpace.
  induction token as [|c token IH]; intros current afterSpace Hall.
  - now rewrite append_nil, append_empty.
  - cbn [list_ascii_of_string] in Hall.
    inversion Hall as [|? ? Hc Hrest]; subst.
    rewrite append_cons. cbn [splitSpaces]. rewrite Hc.
    rewrite (IH _ _ Hrest), append_assoc, append_cons, append_nil.
    now destruct token.
Qed.

Lemma splitSpaces_run (separator s : string) :
  Forall (fun c => isSpace c = true) (list_ascii_of_string separator) ->
  splitSpaces (separator ++ s) "" true = splitSpaces s "" true.
Proof.
  induction separator as [|c separator IH]; intros Hall; [reflexivity|].
  cbn [list_ascii_of_string] in Hall.
  inversion Hall as [|? ? Hc Hrest]; subst.
  rewrite append_cons. cbn [splitSpaces]. rewrite Hc. now apply IH.
Qed.

Lemma splitSpaces_separator (separator s current : string) :
  spaces separator ->
  splitSpaces (separator ++ s) current false =
    current :: splitSpaces s "" true.
Proof.
  intros [Hne Hall]. destruct separator as [|c separator]; [congruence|].
  cbn [list_ascii_of_string] in Hall.
  inversion Hall as [|? ? Hc Hrest]; subst.
  rewrite append_cons. cbn [splitSpaces]. rewrite Hc.
  now rewrite splitSpaces_run.
Qed.

Lemma splitSpaces_joinTokens (rest : list (string * string)) :
  forall (first current : string) (afterSpace : bool),
    spaceless first ->
    Forall (fun entry => spaces (fst entry) /\ spaceless (snd entry)) rest ->
    splitSpaces (joinTokens first rest) current afterSpace =
      (current ++ first)%string :: map snd rest.
Proof.
  induction rest as [|[separator token] rest IH];
    intros first current afterSpace [Hne Hfirst] Hrest; cbn [joinTokens map].
  - rewrite <- (append_empty first) at 1.
    rewrite (splitSpaces_token first "" current afterSpace Hfirst).
    reflexivity.
  - inversion Hrest as [|? ? [Hsep Htoken] Hrest']; subst. cbn [fst snd] in *.
    rewrite (splitSpaces_token first _ current afterSpace Hfirst).
    destruct first as [|c first]; [congruence|].
    rewrite (splitSpaces_separator separator _ _ Hsep).
    now rewrite (IH token "" true Htoken Hrest').
Qed.

Lemma trim_spaceless (token : string) : spaceless token -> trim token = token.
Proof.
  intros [Hne Hall]. unfold trim.
  assert (Hstart : trimStart token = token).
  { destruct token as [|c token]; [reflexivity|]. cbn [trimStart].
    cbn [list_ascii_of_string] in Hall.
    inversion Hall as [|? ? Hc Hrest]; subst. now rewrite Hc. }
  rewrite Hstart. clear Hne Hstart.
  induction token as [|c token IH]; [reflexivity|].
  cbn [list_ascii_of_string] in Hall.
  inversion Hall as [|? ? Hc Hrest]; subst.
  cbn [trimEnd]. rewrite (IH Hrest), Hc. now destruct token.
Qed.

(** X30. A deny list written as coordinates, each without a space,
    separated by runs of spaces, tabs or line breaks denies exactly the
    scenes one of whose parcels is one of these coordinates. *)
Theorem isParcelDenyListed_tokens (st : State) (first : string)
    (rest : list (string * string)) (coordinates : list string) :
  spaceless first ->
  Forall (fun entry => spaces (fst entry) /\ spaceless (snd entry)) rest ->
  denylist st = Some (joinTokens first rest) ->
  isParcelDenyListed coordinates st =
    (Normal
       (existsb (fun token => existsb (String.eqb token) coordinates)
          (first :: map snd rest)),
     st).
Proof.
  intros Hfirst Hrest Hflag.
  rewrite isParcelDenyListed_pure, Hflag. unfold denyListed.
  assert (Htruthy : truthy_string (joinTokens first rest) = true).
  { destruct Hfirst as [Hne _].
    destruct first as [|c first]; [congruence|]. now destruct rest as [|[]]. }
  rewrite Htruthy, (splitSpaces_joinTokens rest first "" false Hfirst Hrest).
  cbn [andb]. rewrite append_nil. do 2 f_equal.
  assert (Htokens : Forall spaceless (first :: map snd rest)).
  { constructor; [exact Hfirst|]. apply List.Forall_map.
    eapply List.Forall_impl; [|exact Hrest]. now intros entry [_ Htoken]. }
  set (tokens := first :: map snd rest) in *. clearbody tokens.
  induction Htokens as [|token tokens Htoken _ IH]; [reflexivity|].
  simpl. now rewrite (trim_spaceless token Htoken), IH.
Qed.

End WithWorkers.

End SceneManagerFacts.

(** * More scenarios, run *)

Module MoreScenarioFacts.
Import Js DaoTypes PositionCodec Lighthouse LighthouseSends Dao DaoCache.
Import Scenario Loopback MoreScenario.
Import LighthouseFacts ScenarioFacts LighthouseMore DaoMore.

#[local] Existing Instance TaggingHelpers.
#[local] Existing Instance SimpleSendHelpers.

(** ** Connecting and changing realm *)

(** An idle transport is awaited and then reported with its three peers. *)
Lemma connect_awaits_then_reports_witness :
  connect (connectionOn idlePeer) =
    (Normal true,
     with_trace
       [PeerCalled (CallAwaitConnectionEstablished 60000);
        StatusReported (mkCommsStatus connected 3) (Some 3)]
       (with_peer (Some (sp_established idlePeer)) (connectionOn idlePeer))).
Proof.
  refine (connect_awaits_then_reports (connectionOn idlePeer) idlePeer
            (sp_established idlePeer) _ _ _); reflexivity.
Defined.

(** A transport that cannot be disposed of keeps its realm. *)
Lemma changeRealm_aborts_when_dispose_rejects_witness :
  fst (changeRealm otherRealm "https://peer-2.example.org/comms"
         stubbornConnection) = Throw timeoutError /\
  realm (snd (changeRealm otherRealm "https://peer-2.example.org/comms"
                stubbornConnection)) = sampleRealm.
Proof.
  rewrite (changeRealm_aborts_when_dispose_rejects stubbornConnection
             (mkStubbornPeer livePeer) (mkStubbornPeer livePeer) timeoutError
             otherRealm "https://peer-2.example.org/comms");
    [split; reflexivity | reflexivity | reflexivity].
Defined.

(** The live transport is disposed of and a new one is built for the other
    realm, with the peer id: after the island-change handler was called,
    and with no such call when none is configured.  A handler that throws
    stops the change before a transport is built. *)
Lemma changeRealm_rebuilds_transport_witness :
  (let c' := snd (changeRealm otherRealm "https://peer-2.example.org/comms"
                    (connectionOn livePeer)) in
   realm c' = otherRealm /\
   lighthouseUrl c' = "https://peer-2.example.org/comms" /\
   rooms c' = [] /\
   exists rest,
     newEvents (connectionOn livePeer) c' =
       [StatusReported (mkCommsStatus connecting 2) (Some 2);
        PeerCalled CallDispose] ++
       [IslandChangeNotified] ++
       [StatusReported (mkCommsStatus connecting 2) (Some 2);
        PeerCalled
          (CallNewPeer "https://peer-2.example.org/comms" (Some "0xabc"))]
       ++ rest) /\
  (let c' := snd (changeRealm otherRealm "https://peer-2.example.org/comms"
                    plainConnection) in
   realm c' = otherRealm /\
   lighthouseUrl c' = "https://peer-2.example.org/comms" /\
   rooms c' = [] /\
   exists rest,
     newEvents plainConnection c' =
       [StatusReported (mkCommsStatus connecting 2) (Some 2);
        PeerCalled CallDispose] ++
       [StatusReported (mkCommsStatus connecting 2) (Some 2);
        PeerCalled
          (CallNewPeer "https://peer-2.example.org/comms" (Some "0xabc"))]
       ++ rest) /\
  (let c' := snd (changeRealm otherRealm "https://peer-2.example.org/comms"
                    refusingConnection) in
   realm c' = otherRealm /\
   lighthouseUrl c' = "https://peer-2.example.org/comms" /\
   rooms c' = [] /\
   fst (changeRealm otherRealm "https://peer-2.example.org/comms"
          refusingConnection) = Throw islandError /\
   peer c' = Some livePeer /\
   newEvents refusingConnection c' =
     [StatusReported (mkCommsStatus connecting 2) (Some 2);
      PeerCalled CallDispose] ++ [IslandChangeNotified]).
Proof.
  split; [|split].
  - refine (changeRealm_rebuilds_transport (connectionOn livePeer) livePeer
              livePeer otherRealm "https://peer-2.example.org/comms" _ _);
      reflexivity.
  - refine (changeRealm_rebuilds_transport plainConnection livePeer
              livePeer otherRealm "https://peer-2.example.org/comms" _ _);
      reflexivity.
  - refine (changeRealm_rebuilds_transport refusingConnection livePeer
              livePeer otherRealm "https://peer-2.example.org/comms" _ _);
      reflexivity.
Defined.

(** ** Rooms *)

(** From rooms [old-island] and [lobby] to [lobby] and [island-1]. *)
Lemma setTopics_room_calls_witness :
  let c' := snd (setTopics ["lobby"; "island-1"] (connectionOn livePeer)) in
  rooms c' = ["lobby"; "island-1"] /\
  newEvents (connectionOn livePeer) c' =
    [PeerCalled (CallJoinRoom "island-1");
     PeerCalled (CallLeaveRoom "old-island")].
Proof.
  refine (setTopics_room_calls ["lobby"; "island-1"] (connectionOn livePeer)
           livePeer _).
  reflexivity.
Defined.

Lemma setTopics_reconciles_witness :
  exists p pc,
    peer (connectionOn livePeer) = Some p /\
    peer (snd (setTopics ["lobby"; "island-1"] (connectionOn livePeer)))
      = Some pc /\
    (forall room, In room ["lobby"; "island-1"] ->
       exists e, In e (currentRooms pc) /\ isSameRoom room e = true) /\
    (forall id, In (RoomId id) (currentRooms pc) ->
       In id ["lobby"; "island-1"]) /\
    (forall id, In (RoomObject id) (currentRooms p) ->
       In (RoomObject id) (currentRooms pc)).
Proof.
  refine (setTopics_reconciles ["lobby"; "island-1"] (connectionOn livePeer) _).
  reflexivity.
Defined.

(** The rooms set before the realm changes are joined again after it. *)
Lemma changeRealm_rejoins_rooms_witness :
  let c := snd (setTopics ["lobby"; "island-1"] (connectionOn livePeer)) in
  exists pc,
    peer (snd (changeRealm otherRealm "https://peer-2.example.org/comms" c))
      = Some pc /\
    forall room, In room (rooms c) ->
      exists e, In e (currentRooms pc) /\ isSameRoom room e = true.
Proof.
  refine (changeRealm_rejoins_rooms otherRealm
            "https://peer-2.example.org/comms"
            (snd (setTopics ["lobby"; "island-1"] (connectionOn livePeer))) _).
  reflexivity.
Defined.

(** ** Receiving *)

(** A chat packet whose handler throws. *)
Lemma peerCallback_logs_handler_error_witness :
  fst (peerCallback "0xdef" "island-1" [1%N] 9 throwingConnection) = Normal tt /\
  exists evs,
    newEvents throwingConnection
      (snd (peerCallback "0xdef" "island-1" [1%N] 9 throwingConnection)) =
    evs ++
    [HandlerInvoked chatHandler
       (mkPackage "0xdef" sampleTime chat (ChatMessage "m1" "hello"));
     LoggerError timeoutError].
Proof.
  refine (peerCallback_logs_handler_error throwingConnection "0xdef" "island-1"
           [1%N] 9 chatHandler
           (mkPackage "0xdef" sampleTime chat (ChatMessage "m1" "hello"))
           timeoutError _ _).
  - left. reflexivity.
  - reflexivity.
Defined.

(** ** From a send to the handler *)

Lemma chat_loopback_witness :
  exists bytes,
    newEvents (connectionOn livePeer)
      (snd (sendChatMessage sample_position "m1" "hello" (connectionOn livePeer)))
    = [PeerCalled (CallSendMessage "island-1" bytes (reliable "chat"))] /\
    handlersInvoked
      (newEvents (connectionOn idlePeer)
         (snd (peerCallback "0xabc" "island-1" bytes 9 (connectionOn idlePeer))))
    = [(chatHandler,
        mkPackage "0xabc" sampleTime chat (ChatMessage "m1" "hello"))].
Proof.
  refine (chat_loopback (connectionOn livePeer) (connectionOn idlePeer) livePeer
           sample_position "m1" "hello" "0xabc" "island-1" 9 _ _);
    reflexivity.
Defined.

(** A frame of index 0 arrives with the sequence id of its packet. *)
Lemma voice_loopback_witness :
  exists bytes,
    newEvents (connectionOn livePeer)
      (snd (sendVoiceMessage sample_position sampleFrame (connectionOn livePeer)))
    = [PeerCalled (CallSendMessage "island-1" bytes VoiceType)] /\
    handlersInvoked
      (newEvents (connectionOn idlePeer)
         (snd (peerCallback "0xabc" "island-1" bytes 9 (connectionOn idlePeer))))
    = [(voiceHandler,
        mkPackage "0xabc" sampleTime voice (VoiceFragment [1%N; 2%N] 9))].
Proof.
  refine (voice_loopback (connectionOn livePeer) (connectionOn idlePeer) livePeer
           sample_position sampleFrame "0xabc" "island-1" 9 _ _);
    reflexivity.
Defined.

Lemma profile_request_loopback_witness :
  exists bytes,
    newEvents (connectionOn livePeer)
      (snd (sendProfileRequest sample_position "0xabc" None
              (connectionOn livePeer)))
    = [PeerCalled
         (CallSendMessage "island-1" bytes
            (ProfileRequestResponseType "request"))] /\
    handlersInvoked
      (newEvents (connectionOn idlePeer)
         (snd (peerCallback "0xdef" "island-1" bytes 9 (connectionOn idlePeer))))
    = [(profileRequestHandler,
        mkPackage "0xdef" sampleTime profileRequest
          (ProfileRequest "0xabc" None))].
Proof.
  refine (profile_request_loopback (connectionOn livePeer)
           (connectionOn idlePeer) livePeer sample_position "0xabc" None
           "0xdef" "island-1" 9 _ _ _);
    [reflexivity | discriminate | reflexivity].
Defined.

Lemma profile_response_loopback_witness :
  exists bytes,
    newEvents (connectionOn livePeer)
      (snd (sendProfileResponse sample_position "{}" (connectionOn livePeer)))
    = [PeerCalled
         (CallSendMessage "island-1" bytes
            (ProfileRequestResponseType "response"))] /\
    handlersInvoked
      (newEvents (connectionOn idlePeer)
         (snd (peerCallback "0xabc" "island-1" bytes 9 (connectionOn idlePeer))))
    = [(profileResponseHandler,
        mkPackage "0xabc" sampleTime profileResponse (ProfileResponse "{}"))].
Proof.
  refine (profile_response_loopback (connectionOn livePeer)
           (connectionOn idlePeer) livePeer sample_position "{}" "{}"
           "0xabc" "island-1" 9 _ _ _);
    reflexivity.
Defined.

Lemma profile_loopback_witness :
  exists bytes,
    newEvents (connectionOn livePeer)
      (snd (sendProfileMessage sample_position sampleUser (connectionOn livePeer)))
    = [PeerCalled (CallSendMessage "island-1" bytes (unreliable "profile"))] /\
    handlersInvoked
      (newEvents (connectionOn idlePeer)
         (snd (peerCallback "0xabc" "island-1" bytes 9 (connectionOn idlePeer))))
    = [(profileHandler,
        mkPackage "0xabc" sampleTime profile
          (ProfileVersion "0xabc" "7" DEPLOYED))].
Proof.
  refine (profile_loopback (connectionOn livePeer) (connectionOn idlePeer)
           livePeer sample_position sampleUser "0xabc" "island-1" 9 _ _);
    reflexivity.
Defined.

(** The sample position is delivered with its rotation y, a negative
    zero, as a positive zero. *)
Lemma position_loopback_witness :
  exists bytes rest,
    newEvents (connectionOn livePeer)
      (snd (sendPositionMessage sample_position (connectionOn livePeer)))
    = [PeerCalled (CallSendMessage "island-1" bytes (unreliable "position"))] /\
    newEvents (connectionOn idlePeer)
      (snd (peerCallback "0xabc" "island-1" bytes 9 (connectionOn idlePeer)))
    = PeerCalled
        (CallSetPeerPosition "0xabc"
           (p0 sample_position, p1 sample_position, p2 sample_position))
      :: HandlerInvoked positionHandler
           (mkPackage "0xabc" sampleTime position
              (PositionMessage
                 (mkPosition (p0 sample_position) (p1 sample_position)
                    (p2 sample_position) (p3 sample_position) zero
                    (p5 sample_position) (p6 sample_position) true)))
      :: rest /\
    handlersInvoked rest = [].
Proof.
  refine (position_loopback (connectionOn livePeer) (connectionOn idlePeer)
           livePeer idlePeer idlePeer sample_position "0xabc" "island-1" 9
           _ _ _ _);
    reflexivity.
Defined.

(** ** Realm selection *)

Lemma selectRealm_returns_cached_realm_unchecked_witness :
  fst (selectRealm (start cachedRealmOnly)) = Returned (Some (realmOf candidateA))
  /\ pings (effects (snd (selectRealm (start cachedRealmOnly)))) = [].
Proof.
  rewrite (selectRealm_returns_cached_realm_unchecked cachedRealmOnly
             [candidateA; candidateB] (realmOf candidateA));
    [split; reflexivity | discriminate | reflexivity | reflexivity
    | reflexivity].
Defined.

(** Realm B is among the candidates, but its catalyst answers the ping
    with version 1.0.0 where the minimum is 2.0.0: realm A, the cached one,
    is taken, with a warning.  With a minimum of 1.0 the comparison of the
    versions throws, and so does the selection. *)
Lemma selectRealm_warns_and_falls_back_witness :
  (fst (selectRealm (start strictQuery))
     = Returned (Some (realmOf candidateA)) /\
   In (Warn "Provided realm is not valid: B")
     (effects (snd (selectRealm (start strictQuery)))) /\
   In (Call (getFromPersistentStorage_ realmKey))
     (effects (snd (selectRealm (start strictQuery))))) /\
  (fst (selectRealm (start shortMinimumQuery))
     = Threw (TypeError "Invalid Version: 1.0") /\
   ~ In (Warn "Provided realm is not valid: B")
       (effects (snd (selectRealm (start shortMinimumQuery)))) /\
   ~ In (Call (getFromPersistentStorage_ realmKey))
       (effects (snd (selectRealm (start shortMinimumQuery))))).
Proof.
  split.
  - refine (proj1 (selectRealm_warns_and_falls_back strictQuery
                     [candidateA; candidateB] "B" (realmOf candidateA)
                     _ _ _ _ _) _);
      [discriminate | reflexivity | reflexivity | reflexivity | reflexivity
      | reflexivity].
  - refine (proj2 (selectRealm_warns_and_falls_back shortMinimumQuery
                     [candidateA; candidateB] "B" (realmOf candidateA)
                     _ _ _ _ _) _ _);
      [discriminate | reflexivity | reflexivity | reflexivity | reflexivity
      | reflexivity].
Defined.

(** In the preview the saga changes to the local realm; when that change
    is rejected the saga throws the rejection, and nothing is reported. *)
Lemma selectAndReconnectRealm_preview_witness :
  selectAndReconnectRealm (start previewWorld) =
    (Returned tt,
     mkSagaState previewWorld
       [Call waitForMetaConfigurationInitialization_;
        Put establishingComms;
        Put (setCatalystCandidates []);
        Put (setAddedCatalystCandidates []);
        Call waitForExplorerIdentity_;
        Call (changeRealmObject_
                (mkRealm "v1" "http://localhost:8000" "localhost" None))]) /\
  selectAndReconnectRealm (H := RefusedCollaborators) (start previewWorld) =
    (Threw refusedError,
     mkSagaState previewWorld
       [Call waitForMetaConfigurationInitialization_;
        Put establishingComms;
        Put (setCatalystCandidates []);
        Put (setAddedCatalystCandidates []);
        Call waitForExplorerIdentity_;
        Call (changeRealmObject_
                (mkRealm "v1" "http://localhost:8000" "localhost" None))]).
Proof.
  split.
  - refine (selectAndReconnectRealm_preview previewWorld _). reflexivity.
  - refine (selectAndReconnectRealm_preview (H := RefusedCollaborators)
              previewWorld _).
    reflexivity.
Defined.

(** The cached realm A is committed; when the commit is rejected, the
    rejection is reported as fatal, the client is brought down and the
    rejection is thrown. *)
Lemma selectAndReconnectRealm_outcomes_witness :
  (fst (selectAndReconnectRealm (start cachedRealmOnly)) = Returned tt /\
   List.last (effects (snd (selectAndReconnectRealm (start cachedRealmOnly))))
     BringDownClientAndShowError
   = Call (changeRealmObject_ (realmOf candidateA))) /\
  (fst (selectAndReconnectRealm (H := RefusedCollaborators)
          (start cachedRealmOnly)) = Threw refusedError /\
   drop 11
     (effects
        (snd (selectAndReconnectRealm (H := RefusedCollaborators)
                (start cachedRealmOnly))))
   = [Call waitForExplorerIdentity_;
      Call (changeRealmObject_ (realmOf candidateA));
      ReportFatalErrorWithCatalystPayload refusedError;
      BringDownClientAndShowError]).
Proof.
  split.
  - rewrite (selectAndReconnectRealm_outcomes cachedRealmOnly);
      [split; reflexivity | reflexivity | discriminate].
  - rewrite (selectAndReconnectRealm_outcomes (H := RefusedCollaborators)
               cachedRealmOnly);
      [split; reflexivity | reflexivity | discriminate].
Defined.

Lemma selectAndReconnectRealm_fetch_failure_escapes_witness :
  fst (selectAndReconnectRealm (H := OfflineCollaborators) (start firstStart))
    = Threw offlineError /\
  takenDown
    (effects
       (snd (selectAndReconnectRealm (H := OfflineCollaborators)
               (start firstStart)))) = false.
Proof.
  destruct (selectAndReconnectRealm_fetch_failure_escapes
              (H := OfflineCollaborators) firstStart offlineError)
    as [Hrun Hdown]; [reflexivity | reflexivity | reflexivity |].
  rewrite Hrun. split; reflexivity.
Defined.

(** With catalyst A pinned and a status fetch that answers with B (0.5.0)
    and C (1.2.0) when asked for no server: A and B are put unfiltered, and
    of the added candidates only C, which is above the minimum of 1.0.0. *)
Lemma initializeCatalystCandidates_pin_skips_added_servers_witness :
  let r := initializeCatalystCandidates (H := EagerStatusCollaborators)
             (start pinnedStart) in
  ~ In (Select getAddedServers) (effects (snd r)) /\
  In (Call (fetchCatalystStatuses_ [])) (effects (snd r)) /\
  candidatesPut (effects (snd r)) = [[candidateA; candidateB]] /\
  (fst r = Returned tt /\ addedCandidatesPut (effects (snd r)) = [[candidateC]]).
Proof.
  destruct (initializeCatalystCandidates_pin_skips_added_servers
              (H := EagerStatusCollaborators) pinnedStart
              [candidateA; candidateB] [candidateB; candidateC])
    as (Hno & Hcall & Hput & Hadded & _);
    [reflexivity | reflexivity | reflexivity |].
  split; [exact Hno|]. split; [exact Hcall|]. split; [exact Hput|].
  exact Hadded.
Defined.

(** Offline, nothing is put.  When only the status fetch fails, catalyst A
    (1.0.0), which passed the minimum of 1.0.0, has been put and is in the
    store. *)
Lemma initializeCatalystCandidates_failures_witness :
  (let r := initializeCatalystCandidates (H := OfflineCollaborators)
              (start firstStart) in
   fst r = Threw offlineError /\
   candidatesPut (effects (snd r)) = [] /\
   addedCandidatesPut (effects (snd r)) = []) /\
  (let r := initializeCatalystCandidates (H := StatusOfflineCollaborators)
              (start firstStart) in
   fst r = Threw offlineError /\
   candidatesPut (effects (snd r)) = [[candidateA]] /\
   addedCandidatesPut (effects (snd r)) = [] /\
   dao_candidates (world (snd r)) = [candidateA]).
Proof.
  split.
  - refine (proj1 (initializeCatalystCandidates_failures
                     (H := OfflineCollaborators) firstStart offlineError) _).
    reflexivity.
  - refine (proj2 (initializeCatalystCandidates_failures
                     (H := StatusOfflineCollaborators) firstStart offlineError)
              [candidateA; candidateB] [candidateA] _ _ _);
      reflexivity.
Defined.

(** The world in which the realm of the query string was lost to a
    [TypeError]: once the candidates are cached, realm B is selected. *)
Lemma cacheCatalystCandidates_then_selectRealm_witness :
  let s := snd (cacheCatalystCandidates (start queryWithoutCandidateCache)) in
  effects s =
    [Select getAllCatalystCandidates;
     Select getSelectedNetwork;
     Call (saveToPersistentStorage_ candidatesKey)] /\
  storedCandidates (world s) !! candidatesKey = Some [candidateA; candidateB] /\
  fst (selectRealm s) = Returned (Some (realmOf candidateB)).
Proof.
  refine (cacheCatalystCandidates_then_selectRealm queryWithoutCandidateCache
           "B" (realmOf candidateB) _ _ _ _ _);
    [discriminate | reflexivity | reflexivity | reflexivity | reflexivity].
Defined.

(** The candidates come with the second action: the saga takes two
    actions and returns with candidate B in the store. *)
Lemma waitForCandidates_first_candidates_witness :
  fst (waitForCandidates (start lateCandidates)) = Returned tt /\
  allCatalystCandidates (world (snd (waitForCandidates (start lateCandidates))))
    = [candidateB].
Proof.
  exact (waitForCandidates_first_candidates (start lateCandidates)).
Defined.

(** The sample position has a negative zero as its fifth component. *)
Lemma position_mapping_exact_witness :
  mapToPositionMessage (createPositionData sample_position) =
    mkPosition
      (S754_finite false 6755399441055744 (-52))
      (S754_zero false)
      (S754_finite true 4503599627370496 (-51))
      (S754_zero false) (S754_zero false) (S754_zero false)
      (S754_finite false 4503599627370496 (-52))
      true.
Proof.
  exact (PositionCodecMore.position_mapping_exact sample_position).
Defined.

End MoreScenarioFacts.

(** * The sample scenes, run *)

Module SceneScenarioFacts.
Import Js SceneManager SceneScenario SceneManagerFacts.

Lemma consistent_started : consistent started.
Proof.
  split; [|split].
  - intros k r [=].
  - intros r w Hw. now destruct r.
  - intros k e [].
Qed.

Lemma consistent_withPlaza : consistent withPlaza.
Proof.
  change withPlaza
    with (snd (setDesiredParcelScenes [("scene-plaza", plaza)] started)).
  apply consistent_setDesired; [exact consistent_started|].
  intros k e [[= <- <-]|[]]. reflexivity.
Qed.

(** From the start, loading the tower keeps the registry consistent. *)
Lemma registry_stays_consistent_witness :
  consistent (snd (addDesiredParcel tower started)) /\
  consistent (snd (reloadScene "scene-tower" started)).
Proof.
  destruct (registry_stays_consistent started consistent_started)
    as (_ & _ & Hreload & Hadd & _).
  split; [apply Hadd | apply Hreload].
Defined.

Lemma setDesiredParcelScenes_reconciles_witness :
  let r := setDesiredParcelScenes [("scene-tower", tower)] withPlaza in
  fst r = Normal tt /\
  desiredParcelScenes (snd r) = [("scene-tower", tower)] /\
  allLoaded (snd r) /\
  (forall k,
     map_has k (desiredParcelScenes withPlaza) = true ->
     map_has k [("scene-tower", tower)] = false ->
     map_has k (loadedSceneWorkers (snd r)) = false) /\
  (forall k,
     map_has k (desiredParcelScenes withPlaza) = false ->
     map_has k [("scene-tower", tower)] = false ->
     map_get k (loadedSceneWorkers (snd r))
       = map_get k (loadedSceneWorkers withPlaza)).
Proof.
  refine (setDesiredParcelScenes_reconciles withPlaza [("scene-tower", tower)]
            _ _ _).
  - exact consistent_withPlaza.
  - intros k e [[= <- <-]|[]]. reflexivity.
  - reflexivity.
Defined.

Lemma addDesiredParcel_then_removeDesiredParcel_witness :
  let st1 := snd (addDesiredParcel tower started) in
  let st2 := snd (removeDesiredParcel "scene-tower" st1) in
  fst (addDesiredParcel tower started) = Normal tt /\
  map_get "scene-tower" (loadedSceneWorkers st1) = Some 0 /\
  fst (removeDesiredParcel "scene-tower" st1) = Normal tt /\
  desiredParcelScenes st2 = [] /\
  loadedSceneWorkers st2 = [] /\
  workers st2 = [dispose (parcelWorker (Some "10,20 30,40") tower)] /\
  newEvents started st2 =
    [WorkerCreated 0 (generateBannedILand tower) None;
     LoadParcelScenesNotified [tower];
     SceneStatusNotified "scene-tower" "unloaded";
     WorkerDisposed 0;
     ScenesChanged].
Proof.
  refine (addDesiredParcel_then_removeDesiredParcel started tower _ _ _ _).
  - reflexivity.
  - intros k e [].
  - reflexivity.
  - reflexivity.
Defined.

Lemma reloadScene_replaces_worker_witness :
  reloadScene "scene-plaza" withPlaza =
    (Normal tt,
     mkState
       [dispose (parcelWorker (Some "10,20 30,40") plaza);
        parcelWorker (Some "10,20 30,40") plaza]
       [("scene-plaza", 1)]
       [("scene-plaza", plaza)] true (Some "10,20 30,40")
       [WorkerCreated 0 plaza None;
        LoadParcelScenesNotified [plaza];
        SceneStatusNotified "scene-plaza" "unloaded";
        WorkerDisposed 0;
        ScenesChanged;
        WorkerCreated 1 plaza None;
        LoadParcelScenesNotified [plaza]]).
Proof.
  refine (reloadScene_replaces_worker withPlaza "scene-plaza" plaza 0
            (parcelWorker (Some "10,20 30,40") plaza) _ _ _ _ _ _ _).
  - reflexivity.
  - intros k e [[= <- <-]|[]]. reflexivity.
  - reflexivity.
  - reflexivity.
  - reflexivity.
  - reflexivity.
  - reflexivity.
Defined.

Lemma unloading_before_enabled_throws_witness :
  unloadParcelSceneById "scene-tower" early = (Throw nullLifecycleManager, early)
  /\ reloadScene "scene-tower" early = (Throw nullLifecycleManager, early).
Proof.
  refine (unloading_before_enabled_throws early "scene-tower" 0 _ _);
    reflexivity.
Defined.

(** The spare worker takes the place of the plaza's worker, which is
    stopped; registering it once more changes nothing. *)
Lemma setNewParcelScene_idempotent_witness :
  let st' := snd (setNewParcelScene "scene-plaza" 1 withSpareWorker) in
  map_get "scene-plaza" (loadedSceneWorkers st') = Some 1 /\
  setNewParcelScene "scene-plaza" 1 st' = (Normal tt, st').
Proof.
  refine (setNewParcelScene_idempotent withSpareWorker "scene-plaza" 1 _).
  reflexivity.
Defined.

Lemma deny_listed_scene_loads_without_content_witness :
  let st' := snd (loadParcelSceneByIdIfMissing "scene-tower" tower started) in
  exists r w,
    map_get "scene-tower" (loadedSceneWorkers st') = Some r /\
    workers st' !! r = Some w /\
    loadableScene w =
      mkLoadableScene (mkEntity [] ["10,20"] ["10,20"])
        "https://peer.example.org/content/contents/" "scene-tower" None /\
    useFPSThrottling w = true /\
    (forall p, In p defaultParcelPermissions -> In p (permissionGranted w)) /\
    newEvents started st' =
      [WorkerCreated r (loadableScene w) None;
       LoadParcelScenesNotified [tower]].
Proof.
  refine (deny_listed_scene_loads_without_content started tower _ _);
    reflexivity.
Defined.

Lemma isParcelDenyListed_tokens_witness :
  isParcelDenyListed ["30,40"; "30,41"] started = (Normal true, started).
Proof.
  refine (isParcelDenyListed_tokens started "10,20" [(" ", "30,40")]
            ["30,40"; "30,41"] _ _ _).
  - split; [discriminate | repeat constructor].
  - constructor; [|constructor].
    split; (split; [discriminate | repeat constructor]).
  - reflexivity.
Defined.

End SceneScenarioFacts.
